(** * yupsh/diff: a shallow embedding of the two diff commands

    The repository holds two implementations of the command:
    - [diff.go] (package diff): cancellable, reads files or standard input,
      normalises the line sequences up front and renders in normal, unified
      or side-by-side format;
    - [command.go] (package command): no cancellation, normalises inside the
      identity check, renders in normal, unified or context format.

    Both are embedded below, each in its own module, over a common model of
    the Go library functions they call. *)

From Stdlib Require Import String Ascii List Arith ZArith Lia Bool.
From Stdlib Require Import DecimalString Relations.
Import ListNotations.

Local Open Scope list_scope.
Local Open Scope string_scope.

(** ** Go library functions on strings

    A Go string is a byte sequence, modelled by [string]. The functions of
    package [strings] are modelled on their ASCII paths: bytes above 0x7f are
    neither letters nor white space. *)

Definition nl : string := String (ascii_of_nat 10) EmptyString.

(** [strconv.Itoa] on a non-negative int, as the verb [%d] prints it. *)
Definition Itoa (n : nat) : string := NilEmpty.string_of_uint (Nat.to_uint n).

(** The table [asciiSpace] of package strings: tab, newline, vertical tab,
    form feed, carriage return and space. *)
Definition isSpace (c : ascii) : bool :=
  let n := nat_of_ascii c in
  (((9 <=? n) && (n <=? 13)) || (n =? 32))%nat.

Definition toLowerByte (c : ascii) : ascii :=
  let n := nat_of_ascii c in
  if ((65 <=? n) && (n <=? 90))%nat then ascii_of_nat (n + 32) else c.

(** [strings.ToLower] *)
Fixpoint ToLower (s : string) : string :=
  match s with
  | EmptyString => EmptyString
  | String c s' => String (toLowerByte c) (ToLower s')
  end.

Fixpoint trimLeft (s : string) : string :=
  match s with
  | EmptyString => EmptyString
  | String c s' => if isSpace c then trimLeft s' else s
  end.

Fixpoint trimRight (s : string) : string :=
  match s with
  | EmptyString => EmptyString
  | String c s' =>
      match trimRight s' with
      | EmptyString => if isSpace c then EmptyString else String c EmptyString
      | t => String c t
      end
  end.

(** [strings.TrimSpace] *)
Definition TrimSpace (s : string) : string := trimRight (trimLeft s).

Definition startsField (s : string) : bool :=
  match s with
  | EmptyString => false
  | String c _ => negb (isSpace c)
  end.

(** [strings.Fields]: the maximal runs of bytes that are not white space. *)
Fixpoint Fields (s : string) : list string :=
  match s with
  | EmptyString => []
  | String c s' =>
      if isSpace c then Fields s'
      else if startsField s' then
        match Fields s' with
        | f :: fs => String c f :: fs
        | [] => [String c EmptyString]
        end
      else String c EmptyString :: Fields s'
  end.

(** [strings.Join] *)
Fixpoint Join (elems : list string) (sep : string) : string :=
  match elems with
  | [] => EmptyString
  | [e] => e
  | e :: rest => e ++ sep ++ Join rest sep
  end.

(** [utf8.RuneCountInString], which [fmt] uses for the width of [%-40s]:
    every byte that is not a continuation byte starts a rune. *)
Fixpoint RuneCount (s : string) : nat :=
  match s with
  | EmptyString => 0
  | String c s' =>
      let n := nat_of_ascii c in
      ((if (128 <=? n) && (n <? 192) then 0 else 1) + RuneCount s')%nat
  end.

Fixpoint spaces (n : nat) : string :=
  match n with
  | 0 => EmptyString
  | S n' => String " " (spaces n')
  end.

(** The verb [%-40s]: left-justified, padded with spaces to 40 runes. *)
Definition padRight40 (s : string) : string := s ++ spaces (40 - RuneCount s).

Fixpoint concat_str (l : list string) : string :=
  match l with
  | [] => EmptyString
  | s :: l' => s ++ concat_str l'
  end.

(** ** The world a command runs in

    An [error] is [None] for Go's [nil] and carries its message otherwise.
    A [Reader] is what a [bufio.Scanner] over it yields: the lines, then the
    error [scanner.Err()] reports. A [Context] is observed only through
    polls; since cancellation is permanent, a context is determined by the
    first poll, counted from the start of the run, that sees it cancelled. *)

Definition error := option string.

Record Reader := mkReader { pending : list string; scanErr : error }.

Inductive File :=
| OpenFails (e : string)
| Opens (r : Reader).

Record Context := mkContext { cancelledAt : option nat; ctxErr : string }.

Record World := mkWorld {
  files : string -> File;
  polls : nat;
  stdin : Reader;
  stdout : string;
  stderr : string
}.

Definition M (A : Type) : Type := World -> A * World.

Definition ret {A : Type} (a : A) : M A := fun w => (a, w).

Definition bind {A B : Type} (m : M A) (f : A -> M B) : M B :=
  fun w => let (a, w') := m w in f a w'.

Declare Scope go_scope.
Delimit Scope go_scope with go.
Notation "x <- m ;; k" := (bind m (fun x => k))
  (at level 61, m at next level, right associativity) : go_scope.
Notation "m ;; k" := (bind m (fun _ => k))
  (at level 61, right associativity) : go_scope.
Local Open Scope go_scope.

Inductive Writer := Stdout | Stderr.

(** [fmt.Fprintf], [fmt.Fprintln]: the formatted text is appended to the
    stream; the callers drop the results. *)
Definition Fprint (out : Writer) (s : string) : M unit :=
  fun w =>
    match out with
    | Stdout => (tt, mkWorld (files w) (polls w) (stdin w) (stdout w ++ s) (stderr w))
    | Stderr => (tt, mkWorld (files w) (polls w) (stdin w) (stdout w) (stderr w ++ s))
    end.

Definition cancelled (ctx : Context) (poll : nat) : bool :=
  match cancelledAt ctx with
  | Some n => (n <=? poll)%nat
  | None => false
  end.

(** [yup.CheckContextCancellation]: [ctx.Err()] if the context is done. *)
Definition CheckContextCancellation (ctx : Context) : M error :=
  fun w =>
    (if cancelled ctx (polls w) then Some (ctxErr ctx) else None,
     mkWorld (files w) (S (polls w)) (stdin w) (stdout w) (stderr w)).

(** The guard [if n%k == 0 { if err := CheckContextCancellation(ctx) ... }]
    of the loops: polls only when [k] divides [n]. *)
Definition checkEvery (k : nat) (ctx : Context) (n : nat) : M error :=
  if (n mod k =? 0)%nat then CheckContextCancellation ctx else ret None.

Definition setStdin (r : Reader) : M unit :=
  fun w => (tt, mkWorld (files w) (polls w) r (stdout w) (stderr w)).

(** A [for] statement without early exit: [for i := i0; cond(i); i++]. *)
Fixpoint forLoop (fuel : nat) (cond : nat -> bool) (body : nat -> M unit)
  (i : nat) : M unit :=
  match fuel with
  | O => ret tt
  | S fuel' =>
      if cond i then (body i ;; forLoop fuel' cond body (S i)) else ret tt
  end.

(** ** Flags and parameters

    Packages opt (of diff.go) and command declare the same flag types and
    the same struct, named [Flags] in one and [flags] in the other. *)

Record flags := mkFlags {
  ContextLines : Z;
  UnifiedContext : Z;
  Unified : bool;
  ContextDiff : bool;
  Brief : bool;
  IgnoreCase : bool;
  IgnoreWhitespace : bool;
  SideBySide : bool;
  Recursive : bool
}.

(** The zero value of the struct. *)
Definition zeroFlags : flags :=
  mkFlags 0 0 false false false false false false false.

(** A value of one of the option types. *)
Inductive Option :=
| OContextLines (c : Z)
| OUnifiedContext (u : Z)
| OUnifiedFlag (u : bool)
| OContextFlag (c : bool)
| OBriefFlag (b : bool)
| OIgnoreCaseFlag (i : bool)
| OIgnoreWhitespaceFlag (i : bool)
| OSideBySideFlag (s : bool)
| ORecursiveFlag (r : bool).

(** The [Configure] methods. *)
Definition Configure (o : Option) (f : flags) : flags :=
  match o with
  | OContextLines c =>
      mkFlags c (UnifiedContext f) (Unified f) (ContextDiff f) (Brief f)
        (IgnoreCase f) (IgnoreWhitespace f) (SideBySide f) (Recursive f)
  | OUnifiedContext u =>
      mkFlags (ContextLines f) u (Unified f) (ContextDiff f) (Brief f)
        (IgnoreCase f) (IgnoreWhitespace f) (SideBySide f) (Recursive f)
  | OUnifiedFlag u =>
      mkFlags (ContextLines f) (UnifiedContext f) u (ContextDiff f) (Brief f)
        (IgnoreCase f) (IgnoreWhitespace f) (SideBySide f) (Recursive f)
  | OContextFlag c =>
      mkFlags (ContextLines f) (UnifiedContext f) (Unified f) c (Brief f)
        (IgnoreCase f) (IgnoreWhitespace f) (SideBySide f) (Recursive f)
  | OBriefFlag b =>
      mkFlags (ContextLines f) (UnifiedContext f) (Unified f) (ContextDiff f) b
        (IgnoreCase f) (IgnoreWhitespace f) (SideBySide f) (Recursive f)
  | OIgnoreCaseFlag i =>
      mkFlags (ContextLines f) (UnifiedContext f) (Unified f) (ContextDiff f)
        (Brief f) i (IgnoreWhitespace f) (SideBySide f) (Recursive f)
  | OIgnoreWhitespaceFlag i =>
      mkFlags (ContextLines f) (UnifiedContext f) (Unified f) (ContextDiff f)
        (Brief f) (IgnoreCase f) i (SideBySide f) (Recursive f)
  | OSideBySideFlag s =>
      mkFlags (ContextLines f) (UnifiedContext f) (Unified f) (ContextDiff f)
        (Brief f) (IgnoreCase f) (IgnoreWhitespace f) s (Recursive f)
  | ORecursiveFlag r =>
      mkFlags (ContextLines f) (UnifiedContext f) (Unified f) (ContextDiff f)
        (Brief f) (IgnoreCase f) (IgnoreWhitespace f) (SideBySide f) r
  end.

(** One element of the variadic [parameters ...any]: a positional string or
    an option. *)
Inductive parameter :=
| PString (s : string)
| POption (o : Option).

Record command := mkCommand { Positional : list string; Flags : flags }.

(** [opt.Args] of the yupsh framework and [yup.Initialize] of the gloo-foo
    framework: strings are collected in order as positionals, every option
    configures the flags, starting from the zero value. *)
Fixpoint Args_from (c : command) (parameters : list parameter) : command :=
  match parameters with
  | [] => c
  | PString s :: rest =>
      Args_from (mkCommand (Positional c ++ [s])%list (Flags c)) rest
  | POption o :: rest =>
      Args_from (mkCommand (Positional c) (Configure o (Flags c))) rest
  end.

Definition Args (parameters : list parameter) : command :=
  Args_from (mkCommand [] zeroFlags) parameters.

(** [Diff], the same in both packages: the defaults of the two widths. *)
Definition Diff (parameters : list parameter) : command :=
  let cmd := Args parameters in
  let f := Flags cmd in
  let f :=
    if (UnifiedContext f =? 0)%Z && Unified f
    then Configure (OUnifiedContext 3) f else f in
  let f :=
    if (ContextLines f =? 0)%Z && ContextDiff f
    then Configure (OContextLines 3) f else f in
  mkCommand (Positional cmd) f.

(** ** diff.go *)

Module DiffGo.

(** The scanning loop of [readFile]; [yup.ScanWithContext] polls the context
    and then calls [scanner.Scan]. Returns the lines read and the input left
    unread. *)
Fixpoint scanLoop (ctx : Context) (input : list string) (lines : list string)
  {struct input} : M (list string * list string) :=
  err <- CheckContextCancellation ctx ;;
  match err with
  | Some _ => ret (lines, input)
  | None =>
      match input with
      | [] => ret (lines, [])
      | l :: input' => scanLoop ctx input' (lines ++ [l])%list
      end
  end.

Definition readFile (ctx : Context) (filename : string)
  : M (list string * error) :=
  fun w =>
    let opened :=
      if String.eqb filename "-" then Opens (stdin w) else files w filename in
    match opened with
    | OpenFails e => (([], Some e), w)
    | Opens reader =>
        (r <- scanLoop ctx (pending reader) [] ;;
         (if String.eqb filename "-"
          then setStdin (mkReader (snd r) (scanErr reader))
          else ret tt) ;;
         err <- CheckContextCancellation ctx ;;
         match err with
         | Some e => ret (fst r, Some e)
         | None => ret (fst r, scanErr reader)
         end) w
    end.

(** The loop shared in shape by [normalizeCase] and [normalizeWhitespace]:
    [normalized] holds the [i] lines set so far, and is what
    [normalized[:i]] returns on cancellation. *)
Fixpoint normalizeLoop (f : string -> string) (ctx : Context) (i : nat)
  (normalized : list string) (lines : list string) : M (list string) :=
  match lines with
  | [] => ret normalized
  | line :: rest =>
      err <- checkEvery 1000 ctx i ;;
      match err with
      | Some _ => ret normalized
      | None => normalizeLoop f ctx (S i) (normalized ++ [f line])%list rest
      end
  end.

Definition normalizeCase (ctx : Context) (lines : list string)
  : M (list string) :=
  normalizeLoop ToLower ctx 0 [] lines.

Definition normalizeWhitespace (ctx : Context) (lines : list string)
  : M (list string) :=
  normalizeLoop (fun line => Join (Fields line) " ") ctx 0 [] lines.

(** The loop of [linesEqual], entered only when the lengths agree, so that
    index [i] is in range in [lines2]. *)
Fixpoint linesEqualLoop (ctx : Context) (lines2 : list string) (i : nat)
  (rest1 : list string) : M bool :=
  match rest1 with
  | [] => ret true
  | line1 :: rest =>
      err <- checkEvery 1000 ctx i ;;
      match err with
      | Some _ => ret false
      | None =>
          if negb (String.eqb line1 (nth i lines2 ""))
          then ret false
          else linesEqualLoop ctx lines2 (S i) rest
      end
  end.

Definition linesEqual (ctx : Context) (lines1 lines2 : list string) : M bool :=
  if negb (length lines1 =? length lines2)%nat then ret false
  else linesEqualLoop ctx lines2 0 lines1.

Fixpoint generateNormalDiffLoop (ctx : Context) (lines1 lines2 : list string)
  (output : Writer) (fuel i j lineCount : nat) : M error :=
  match fuel with
  | O => ret None
  | S fuel' =>
      if ((i <? length lines1) || (j <? length lines2))%nat then
        let lineCount := S lineCount in
        err <- checkEvery 1000 ctx lineCount ;;
        match err with
        | Some e => ret (Some e)
        | None =>
            if (length lines1 <=? i)%nat then
              Fprint output (Itoa i ++ "a" ++ Itoa (j + 1) ++ nl) ;;
              Fprint output ("> " ++ nth j lines2 "" ++ nl) ;;
              generateNormalDiffLoop ctx lines1 lines2 output fuel'
                i (S j) lineCount
            else if (length lines2 <=? j)%nat then
              Fprint output (Itoa (i + 1) ++ "d" ++ Itoa j ++ nl) ;;
              Fprint output ("< " ++ nth i lines1 "" ++ nl) ;;
              generateNormalDiffLoop ctx lines1 lines2 output fuel'
                (S i) j lineCount
            else if String.eqb (nth i lines1 "") (nth j lines2 "") then
              generateNormalDiffLoop ctx lines1 lines2 output fuel'
                (S i) (S j) lineCount
            else
              Fprint output (Itoa (i + 1) ++ "c" ++ Itoa (j + 1) ++ nl) ;;
              Fprint output ("< " ++ nth i lines1 "" ++ nl) ;;
              Fprint output ("---" ++ nl) ;;
              Fprint output ("> " ++ nth j lines2 "" ++ nl) ;;
              generateNormalDiffLoop ctx lines1 lines2 output fuel'
                (S i) (S j) lineCount
        end
      else ret None
  end.

(** Every iteration advances [i] or [j], so the loop runs at most
    [len(lines1) + len(lines2)] times before its condition fails. *)
Definition generateNormalDiff (ctx : Context) (lines1 lines2 : list string)
  (file1Name file2Name : string) (output : Writer) : M error :=
  generateNormalDiffLoop ctx lines1 lines2 output
    (S (length lines1 + length lines2)) 0 0 0.

(** The two inner loops of [generateUnifiedDiff], [for ; k < len(lines); k++],
    one printing the rest of [lines2] with [+], the other the rest of
    [lines1] with [-]. Returns the error and the final index. *)
Fixpoint emitRest (ctx : Context) (sign : string) (lines : list string)
  (output : Writer) (fuel k : nat) : M (error * nat) :=
  match fuel with
  | O => ret (None, k)
  | S fuel' =>
      if (k <? length lines)%nat then
        err <- checkEvery 100 ctx k ;;
        match err with
        | Some e => ret (Some e, k)
        | None =>
            Fprint output (sign ++ nth k lines "" ++ nl) ;;
            emitRest ctx sign lines output fuel' (S k)
        end
      else ret (None, k)
  end.

Fixpoint generateUnifiedDiffLoop (ctx : Context) (lines1 lines2 : list string)
  (output : Writer) (fuel i j lineCount : nat) : M error :=
  match fuel with
  | O => ret None
  | S fuel' =>
      if ((i <? length lines1) || (j <? length lines2))%nat then
        let lineCount := S lineCount in
        err <- checkEvery 1000 ctx lineCount ;;
        match err with
        | Some e => ret (Some e)
        | None =>
            if (length lines1 <=? i)%nat then
              Fprint output ("@@ -" ++ Itoa (i + 1) ++ ",0 +" ++ Itoa (j + 1)
                             ++ "," ++ Itoa (length lines2 - j) ++ " @@" ++ nl) ;;
              r <- emitRest ctx "+" lines2 output (S (length lines2)) j ;;
              match fst r with
              | Some e => ret (Some e)
              | None =>
                  generateUnifiedDiffLoop ctx lines1 lines2 output fuel'
                    i (snd r) lineCount
              end
            else if (length lines2 <=? j)%nat then
              Fprint output ("@@ -" ++ Itoa (i + 1) ++ ","
                             ++ Itoa (length lines1 - i) ++ " +" ++ Itoa (j + 1)
                             ++ ",0 @@" ++ nl) ;;
              r <- emitRest ctx "-" lines1 output (S (length lines1)) i ;;
              match fst r with
              | Some e => ret (Some e)
              | None =>
                  generateUnifiedDiffLoop ctx lines1 lines2 output fuel'
                    (snd r) j lineCount
              end
            else if String.eqb (nth i lines1 "") (nth j lines2 "") then
              generateUnifiedDiffLoop ctx lines1 lines2 output fuel'
                (S i) (S j) lineCount
            else
              Fprint output ("@@ -" ++ Itoa (i + 1) ++ ",1 +" ++ Itoa (j + 1)
                             ++ ",1 @@" ++ nl) ;;
              Fprint output ("-" ++ nth i lines1 "" ++ nl) ;;
              Fprint output ("+" ++ nth j lines2 "" ++ nl) ;;
              generateUnifiedDiffLoop ctx lines1 lines2 output fuel'
                (S i) (S j) lineCount
        end
      else ret None
  end.

(** [contextLines] is computed from the flag and not used afterwards. *)
Definition generateUnifiedDiff (c : command) (ctx : Context)
  (lines1 lines2 : list string) (file1Name file2Name : string)
  (output : Writer) : M error :=
  Fprint output ("--- " ++ file1Name ++ nl) ;;
  Fprint output ("+++ " ++ file2Name ++ nl) ;;
  let contextLines := UnifiedContext (Flags c) in
  let contextLines := if (contextLines =? 0)%Z then 3%Z else contextLines in
  generateUnifiedDiffLoop ctx lines1 lines2 output
    (S (length lines1 + length lines2)) 0 0 0.

Fixpoint generateSideBySideDiffLoop (ctx : Context)
  (lines1 lines2 : list string) (output : Writer) (fuel i maxLen : nat)
  : M error :=
  match fuel with
  | O => ret None
  | S fuel' =>
      if (i <? maxLen)%nat then
        err <- checkEvery 1000 ctx i ;;
        match err with
        | Some e => ret (Some e)
        | None =>
            let line1 := if (i <? length lines1)%nat then nth i lines1 "" else "" in
            let line2 := if (i <? length lines2)%nat then nth i lines2 "" else "" in
            (if String.eqb line1 line2
             then Fprint output (padRight40 line1 ++ "   " ++ padRight40 line2 ++ nl)
             else Fprint output (padRight40 line1 ++ " | " ++ padRight40 line2 ++ nl)) ;;
            generateSideBySideDiffLoop ctx lines1 lines2 output fuel' (S i) maxLen
        end
      else ret None
  end.

Definition generateSideBySideDiff (ctx : Context) (lines1 lines2 : list string)
  (file1Name file2Name : string) (output : Writer) : M error :=
  let maxLen := length lines1 in
  let maxLen := if (maxLen <? length lines2)%nat then length lines2 else maxLen in
  generateSideBySideDiffLoop ctx lines1 lines2 output (S maxLen) 0 maxLen.

Definition generateDiff (c : command) (ctx : Context)
  (lines1 lines2 : list string) (file1Name file2Name : string)
  (output : Writer) : M error :=
  if Unified (Flags c) || (0 <? UnifiedContext (Flags c))%Z then
    generateUnifiedDiff c ctx lines1 lines2 file1Name file2Name output
  else if SideBySide (Flags c) then
    generateSideBySideDiff ctx lines1 lines2 file1Name file2Name output
  else
    generateNormalDiff ctx lines1 lines2 file1Name file2Name output.

(** [if err != nil { return err }] around the rest of the function. *)
Definition orReturn (err : error) (k : M error) : M error :=
  match err with
  | Some e => ret (Some e)
  | None => k
  end.

Definition Execute (c : command) (ctx : Context) : M error :=
  err <- CheckContextCancellation ctx ;;
  orReturn err (
  if negb (length (Positional c) =? 2)%nat then
    Fprint Stderr ("diff: need exactly 2 files" ++ nl) ;;
    ret (Some "need exactly 2 files")
  else
    let file1Name := nth 0 (Positional c) "" in
    let file2Name := nth 1 (Positional c) "" in
    r1 <- readFile ctx file1Name ;;
    match snd r1 with
    | Some e =>
        Fprint Stderr ("diff: " ++ file1Name ++ ": " ++ e ++ nl) ;;
        ret (Some e)
    | None =>
    err <- CheckContextCancellation ctx ;;
    orReturn err (
    r2 <- readFile ctx file2Name ;;
    match snd r2 with
    | Some e =>
        Fprint Stderr ("diff: " ++ file2Name ++ ": " ++ e ++ nl) ;;
        ret (Some e)
    | None =>
    err <- CheckContextCancellation ctx ;;
    orReturn err (
    let lines1 := fst r1 in
    let lines2 := fst r2 in
    lines1 <- (if IgnoreCase (Flags c) then normalizeCase ctx lines1 else ret lines1) ;;
    lines2 <- (if IgnoreCase (Flags c) then normalizeCase ctx lines2 else ret lines2) ;;
    lines1 <- (if IgnoreWhitespace (Flags c) then normalizeWhitespace ctx lines1 else ret lines1) ;;
    lines2 <- (if IgnoreWhitespace (Flags c) then normalizeWhitespace ctx lines2 else ret lines2) ;;
    err <- CheckContextCancellation ctx ;;
    orReturn err (
    same <- linesEqual ctx lines1 lines2 ;;
    if same then ret None
    else if Brief (Flags c) then
      Fprint Stdout ("Files " ++ file1Name ++ " and " ++ file2Name ++ " differ" ++ nl) ;;
      ret None
    else generateDiff c ctx lines1 lines2 file1Name file2Name Stdout))
    end)
    end).

End DiffGo.

(** ** command.go *)

Module CommandGo.

Definition readFileLines (path : string) : M (list string * error) :=
  fun w =>
    match files w path with
    | OpenFails e => (([], Some e), w)
    | Opens r =>
        match scanErr r with
        | Some e => (([], Some e), w)
        | None => ((pending r, None), w)
        end
    end.

(** The loop of [areIdentical], entered only when the lengths agree. *)
Fixpoint areIdenticalLoop (lines2 : list string)
  (ignoreCase ignoreWhitespace : bool) (i : nat) (rest1 : list string) : bool :=
  match rest1 with
  | [] => true
  | l1 :: rest =>
      let l2 := nth i lines2 "" in
      let l1 := if ignoreWhitespace then TrimSpace l1 else l1 in
      let l2 := if ignoreWhitespace then TrimSpace l2 else l2 in
      let l1 := if ignoreCase then ToLower l1 else l1 in
      let l2 := if ignoreCase then ToLower l2 else l2 in
      if negb (String.eqb l1 l2) then false
      else areIdenticalLoop lines2 ignoreCase ignoreWhitespace (S i) rest
  end.

Definition areIdentical (lines1 lines2 : list string)
  (ignoreCase ignoreWhitespace : bool) : bool :=
  if negb (length lines1 =? length lines2)%nat then false
  else areIdenticalLoop lines2 ignoreCase ignoreWhitespace 0 lines1.

Definition outputNormalDiff (w : Writer) (lines1 lines2 : list string)
  : M unit :=
  let maxLen := length lines1 in
  let maxLen := if (maxLen <? length lines2)%nat then length lines2 else maxLen in
  forLoop (S maxLen) (fun i => (i <? maxLen)%nat)
    (fun i =>
       if (length lines1 <=? i)%nat then
         Fprint w (Itoa (length lines1) ++ "a" ++ Itoa (i + 1) ++ nl) ;;
         Fprint w ("> " ++ nth i lines2 "" ++ nl)
       else if (length lines2 <=? i)%nat then
         Fprint w (Itoa (i + 1) ++ "d" ++ Itoa (length lines2) ++ nl) ;;
         Fprint w ("< " ++ nth i lines1 "" ++ nl)
       else if negb (String.eqb (nth i lines1 "") (nth i lines2 "")) then
         Fprint w (Itoa (i + 1) ++ "c" ++ Itoa (i + 1) ++ nl) ;;
         Fprint w ("< " ++ nth i lines1 "" ++ nl) ;;
         Fprint w ("---" ++ nl) ;;
         Fprint w ("> " ++ nth i lines2 "" ++ nl)
       else ret tt)
    0.

(** The parameter [context] is not used by the body. *)
Definition outputUnifiedDiff (w : Writer) (file1 file2 : string)
  (lines1 lines2 : list string) (context : Z) : M unit :=
  Fprint w ("--- " ++ file1 ++ nl) ;;
  Fprint w ("+++ " ++ file2 ++ nl) ;;
  forLoop (S (length lines1 + length lines2))
    (fun i => ((i <? length lines1) || (i <? length lines2))%nat)
    (fun i =>
       if (length lines1 <=? i)%nat then
         Fprint w ("+" ++ nth i lines2 "" ++ nl)
       else if (length lines2 <=? i)%nat then
         Fprint w ("-" ++ nth i lines1 "" ++ nl)
       else if negb (String.eqb (nth i lines1 "") (nth i lines2 "")) then
         Fprint w ("-" ++ nth i lines1 "" ++ nl) ;;
         Fprint w ("+" ++ nth i lines2 "" ++ nl)
       else Fprint w (" " ++ nth i lines1 "" ++ nl))
    0.

(** The parameter [context] is not used by the body. *)
Definition outputContextDiff (w : Writer) (file1 file2 : string)
  (lines1 lines2 : list string) (context : Z) : M unit :=
  Fprint w ("*** " ++ file1 ++ nl) ;;
  Fprint w ("--- " ++ file2 ++ nl) ;;
  forLoop (S (length lines1 + length lines2))
    (fun i => ((i <? length lines1) || (i <? length lines2))%nat)
    (fun i =>
       if (length lines1 <=? i)%nat then
         Fprint w ("+ " ++ nth i lines2 "" ++ nl)
       else if (length lines2 <=? i)%nat then
         Fprint w ("- " ++ nth i lines1 "" ++ nl)
       else if negb (String.eqb (nth i lines1 "") (nth i lines2 "")) then
         Fprint w ("! " ++ nth i lines1 "" ++ nl) ;;
         Fprint w ("! " ++ nth i lines2 "" ++ nl)
       else Fprint w ("  " ++ nth i lines1 "" ++ nl))
    0.

(** The function [Executor] returns. *)
Definition Executor (p : command) : M error :=
  if (length (Positional p) <? 2)%nat then
    Fprint Stderr ("diff: missing operand after '"
                   ++ Join (Positional p) " " ++ "'" ++ nl) ;;
    ret (Some "diff requires two files to compare")
  else
    let file1Path := nth 0 (Positional p) "" in
    let file2Path := nth 1 (Positional p) "" in
    r1 <- readFileLines file1Path ;;
    match snd r1 with
    | Some e =>
        Fprint Stderr ("diff: " ++ file1Path ++ ": " ++ e ++ nl) ;;
        ret (Some e)
    | None =>
    r2 <- readFileLines file2Path ;;
    match snd r2 with
    | Some e =>
        Fprint Stderr ("diff: " ++ file2Path ++ ": " ++ e ++ nl) ;;
        ret (Some e)
    | None =>
    let lines1 := fst r1 in
    let lines2 := fst r2 in
    if areIdentical lines1 lines2 (IgnoreCase (Flags p)) (IgnoreWhitespace (Flags p))
    then ret None
    else if Brief (Flags p) then
      Fprint Stdout ("Files " ++ file1Path ++ " and " ++ file2Path ++ " differ" ++ nl) ;;
      ret None
    else
      (if Unified (Flags p) then
         outputUnifiedDiff Stdout file1Path file2Path lines1 lines2
           (UnifiedContext (Flags p))
       else if ContextDiff (Flags p) then
         outputContextDiff Stdout file1Path file2Path lines1 lines2
           (ContextLines (Flags p))
       else outputNormalDiff Stdout lines1 lines2) ;;
      ret None
    end
    end.

End CommandGo.

(** ** Sample inputs *)

Definition noFile : string -> File :=
  fun _ => OpenFails "no such file or directory".

(** A file system with two files. *)
Definition twoFiles (n1 : string) (l1 : list string) (n2 : string)
  (l2 : list string) : string -> File :=
  fun name =>
    if String.eqb name n1 then Opens (mkReader l1 None)
    else if String.eqb name n2 then Opens (mkReader l2 None)
    else noFile name.

Definition world0 (fs : string -> File) : World :=
  mkWorld fs 0 (mkReader [] None) "" "".

Definition background : Context := mkContext None "context canceled".

Definition abc_axc : World :=
  world0 (twoFiles "A.txt" ["a"; "b"; "c"] "B.txt" ["a"; "x"; "c"]).

(** ** What the runs are compared with

    Closed forms by recursion on the two sequences, against which the
    index-driven loops above are proved. *)

(** A context that is never cancelled. *)
Definition quiet (ctx : Context) : Prop := cancelledAt ctx = None.

(** [w'] is reached from [w] by writing [out] to the standard output, and
    nothing else but polling. *)
Definition steps (w w' : World) (out : string) : Prop :=
  files w' = files w /\ stdin w' = stdin w /\
  stdout w' = stdout w ++ out /\ stderr w' = stderr w.

(** What [readFile] of diff.go opens for a name, and the world once it has
    been read to the end. *)
Definition source (w : World) (name : string) : File :=
  if String.eqb name "-" then Opens (stdin w) else files w name.

Definition drained (w : World) (name : string) : World :=
  if String.eqb name "-"
  then mkWorld (files w) (polls w) (mkReader [] (scanErr (stdin w)))
         (stdout w) (stderr w)
  else w.

Definition collapse (line : string) : string := Join (Fields line) " ".

(** The sequences diff.go compares and renders under the given flags. *)
Definition normalized (f : flags) (lines : list string) : list string :=
  let lines := if IgnoreCase f then map ToLower lines else lines in
  if IgnoreWhitespace f then map collapse lines else lines.

(** The form of a line that [areIdentical] of command.go compares. *)
Definition compared (ignoreCase ignoreWhitespace : bool) (l : string) : string :=
  let l := if ignoreWhitespace then TrimSpace l else l in
  if ignoreCase then ToLower l else l.

Definition lines_eqb (l1 l2 : list string) : bool :=
  if list_eq_dec string_dec l1 l2 then true else false.

(** Append commands for the lines [ys] of the second sequence, the first of
    which has index [j], after line [n] of the first sequence. *)
Fixpoint appendCommands (n j : nat) (ys : list string) : string :=
  match ys with
  | [] => ""
  | y :: ys' =>
      Itoa n ++ "a" ++ Itoa (j + 1) ++ nl ++ "> " ++ y ++ nl
      ++ appendCommands n (S j) ys'
  end.

Fixpoint deleteCommands (i n : nat) (xs : list string) : string :=
  match xs with
  | [] => ""
  | x :: xs' =>
      Itoa (i + 1) ++ "d" ++ Itoa n ++ nl ++ "< " ++ x ++ nl
      ++ deleteCommands (S i) n xs'
  end.

Definition changeCommand (i j : nat) (x y : string) : string :=
  Itoa (i + 1) ++ "c" ++ Itoa (j + 1) ++ nl ++ "< " ++ x ++ nl
  ++ "---" ++ nl ++ "> " ++ y ++ nl.

(** Normal format of diff.go for the rests [l1], [l2] of the sequences from
    indices [i] and [j]. *)
Fixpoint normalScript (i j : nat) (l1 l2 : list string) : string :=
  match l1, l2 with
  | [], _ => appendCommands i j l2
  | _ :: _, [] => deleteCommands i j l1
  | x :: xs, y :: ys =>
      (if String.eqb x y then "" else changeCommand i j x y)
      ++ normalScript (S i) (S j) xs ys
  end.

(** Normal format of command.go for the rests from index [i] of sequences of
    lengths [n1] and [n2]. *)
Fixpoint cmdNormalScript (n1 n2 i : nat) (l1 l2 : list string) : string :=
  match l1, l2 with
  | [], _ => appendCommands n1 i l2
  | _ :: _, [] => deleteCommands i n2 l1
  | x :: xs, y :: ys =>
      (if String.eqb x y then "" else changeCommand i i x y)
      ++ cmdNormalScript n1 n2 (S i) xs ys
  end.

Definition signed (sign : string) (lines : list string) : string :=
  concat_str (map (fun l => sign ++ l ++ nl) lines).

Definition hunkHeader (i lenA j lenB : nat) : string :=
  "@@ -" ++ Itoa (i + 1) ++ "," ++ Itoa lenA ++ " +" ++ Itoa (j + 1) ++ ","
  ++ Itoa lenB ++ " @@" ++ nl.

(** The hunks of diff.go: one per position where the lines differ, holding
    that line pair, and one for the surplus of the longer sequence. *)
Fixpoint unifiedHunks (i j : nat) (l1 l2 : list string) : string :=
  match l1, l2 with
  | [], [] => ""
  | [], _ :: _ => hunkHeader i 0 j (length l2) ++ signed "+" l2
  | _ :: _, [] => hunkHeader i (length l1) j 0 ++ signed "-" l1
  | x :: xs, y :: ys =>
      (if String.eqb x y then ""
       else hunkHeader i 1 j 1 ++ "-" ++ x ++ nl ++ "+" ++ y ++ nl)
      ++ unifiedHunks (S i) (S j) xs ys
  end.

Definition unifiedHeader (file1 file2 : string) : string :=
  "--- " ++ file1 ++ nl ++ "+++ " ++ file2 ++ nl.

(** The body command.go prints in unified format: every position, in order. *)
Fixpoint cmdUnifiedBody (l1 l2 : list string) : string :=
  match l1, l2 with
  | [], _ => signed "+" l2
  | _ :: _, [] => signed "-" l1
  | x :: xs, y :: ys =>
      (if String.eqb x y then " " ++ x ++ nl
       else "-" ++ x ++ nl ++ "+" ++ y ++ nl)
      ++ cmdUnifiedBody xs ys
  end.

Definition sideBySideRow (line1 line2 : string) : string :=
  padRight40 line1 ++ (if String.eqb line1 line2 then "   " else " | ")
  ++ padRight40 line2 ++ nl.

Fixpoint sideBySideRows (l1 l2 : list string) : string :=
  match l1, l2 with
  | [], _ => concat_str (map (sideBySideRow "") l2)
  | _ :: _, [] => concat_str (map (fun x => sideBySideRow x "") l1)
  | x :: xs, y :: ys => sideBySideRow x y ++ sideBySideRows xs ys
  end.

(** What diff.go prints for two sequences that differ, outside brief mode. *)
Definition diffOutput (f : flags) (l1 l2 : list string)
  (file1Name file2Name : string) : string :=
  if Unified f || (0 <? UnifiedContext f)%Z then
    unifiedHeader file1Name file2Name ++ unifiedHunks 0 0 l1 l2
  else if SideBySide f then sideBySideRows l1 l2
  else normalScript 0 0 l1 l2.

(** Lines that differ only in white space or in letter case.

    [wsStep]: one white space byte less, at the start, at the end, or next
    to another white space byte. [caseStep]: one byte replaced by one with
    the same lower case. *)
Inductive wsStep : string -> string -> Prop :=
| ws_leading c s : isSpace c = true -> wsStep (String c s) s
| ws_trailing c s : isSpace c = true -> wsStep (s ++ String c "") s
| ws_run_l s1 c d s2 :
    isSpace c = true -> isSpace d = true ->
    wsStep (s1 ++ String c (String d s2)) (s1 ++ String d s2)
| ws_run_r s1 c d s2 :
    isSpace c = true -> isSpace d = true ->
    wsStep (s1 ++ String c (String d s2)) (s1 ++ String c s2).

Inductive caseStep : string -> string -> Prop :=
| case_byte s1 c d s2 :
    toLowerByte c = toLowerByte d ->
    caseStep (s1 ++ String c s2) (s1 ++ String d s2).

(** Differ only in the lengths of white space runs and in leading or
    trailing white space. *)
Definition sameUpToSpace : string -> string -> Prop :=
  clos_refl_sym_trans string wsStep.

(** The same, and in letter case. *)
Definition sameUpToSpaceAndCase : string -> string -> Prop :=
  clos_refl_sym_trans string (union string wsStep caseStep).

(** Equal length and equal lines at every index. *)
Definition pointwiseEqual (A B : list string) : Prop :=
  length A = length B /\
  forall i, (i < length A)%nat -> nth i A "" = nth i B "".

(** Whether the parameters give a width explicitly. *)
Definition explicitUnifiedWidth (parameters : list parameter) : bool :=
  existsb (fun p => match p with POption (OUnifiedContext _) => true | _ => false end)
    parameters.

Definition explicitContextWidth (parameters : list parameter) : bool :=
  existsb (fun p => match p with POption (OContextLines _) => true | _ => false end)
    parameters.

(** The lines of an output text. *)
Fixpoint outLines (s : string) : list string :=
  match s with
  | EmptyString => []
  | String c s' =>
      if Ascii.eqb c (ascii_of_nat 10) then "" :: outLines s'
      else match outLines s' with
           | l :: ls => String c l :: ls
           | [] => [String c ""]
           end
  end.

Definition hasLineWithPrefix (p out : string) : bool :=
  existsb (String.prefix p) (outLines out).

(** A context that the tenth poll of a run finds cancelled. *)
Definition cancelledLate : Context := mkContext (Some 9) "context canceled".

Definition sideBySideParams : list parameter :=
  [PString "A.txt"; PString "B.txt"; POption (OSideBySideFlag true)].

Definition contextParams : list parameter :=
  [PString "A.txt"; PString "B.txt"; POption (OContextFlag true)].

Definition run {A : Type} (m : M A) (w : World) : A * string * string :=
  (fst (m w), stdout (snd (m w)), stderr (snd (m w))).

Definition ab_xy : World :=
  world0 (twoFiles "A.txt" ["a"; "b"] "B.txt" ["x"; "y"]).

Definition unifiedParams : list parameter :=
  [PString "A.txt"; PString "B.txt"; POption (OUnifiedFlag true)].

(** The unified diff of [a b c] against [a x c] with three lines of context,
    as C7 describes it: one hunk, the change between its context lines. *)
Definition unifiedClaimed_abc_axc : string :=
  "--- A.txt" ++ nl ++ "+++ B.txt" ++ nl ++ "@@ -1,3 +1,3 @@" ++ nl
  ++ " a" ++ nl ++ "-b" ++ nl ++ "+x" ++ nl ++ " c" ++ nl.

Definition spaced : World :=
  world0 (twoFiles "A.txt" ["a  b"] "B.txt" ["a b"]).

Definition ignoreSpaceParams : list parameter :=
  [PString "A.txt"; PString "B.txt"; POption (OIgnoreWhitespaceFlag true)].

Definition hello : World :=
  world0 (twoFiles "A.txt" ["Hello  World"] "B.txt" ["hello there"]).

Definition ignoreBothParams : list parameter :=
  [PString "A.txt"; PString "B.txt"; POption (OIgnoreCaseFlag true);
   POption (OIgnoreWhitespaceFlag true)].

Definition widthOnlyParams : list parameter :=
  [PString "A.txt"; PString "B.txt"; POption (OUnifiedContext 1)].

(** ** What partial and failing runs are compared with *)

(** [w'] is reached from [w] by writing a prefix of [full]; all of it when
    the run ends without error. *)
Definition partialOf (w w' : World) (r : error) (full : string) : Prop :=
  exists out rest,
    steps w w' out /\ full = out ++ rest /\ (r = None -> rest = "").

(** The error, if any, that opening and scanning the input [name] ends
    with: in diff.go, where [-] is the standard input, and in command.go. *)
Definition sourceErr (w : World) (name : string) : error :=
  match source w name with
  | OpenFails e => Some e
  | Opens r => scanErr r
  end.

Definition fileErr (w : World) (name : string) : error :=
  match files w name with
  | OpenFails e => Some e
  | Opens r => scanErr r
  end.

Definition sourceLines (w : World) (name : string) : list string :=
  match source w name with
  | OpenFails _ => []
  | Opens r => pending r
  end.

Definition diagnostic (name e : string) : string :=
  "diff: " ++ name ++ ": " ++ e ++ nl.

Definition contextHeader (file1 file2 : string) : string :=
  "*** " ++ file1 ++ nl ++ "--- " ++ file2 ++ nl.

(** The body command.go prints in context format: every position, in order. *)
Fixpoint cmdContextBody (l1 l2 : list string) : string :=
  match l1, l2 with
  | [], _ => signed "+ " l2
  | _ :: _, [] => signed "- " l1
  | x :: xs, y :: ys =>
      (if String.eqb x y then "  " ++ x ++ nl
       else "! " ++ x ++ nl ++ "! " ++ y ++ nl)
      ++ cmdContextBody xs ys
  end.

(** Row [i] of the side-by-side format, an absent line shown as empty. *)
Definition sideBySideAt (l1 l2 : list string) (i : nat) : string :=
  sideBySideRow (nth i l1 "") (nth i l2 "").

(** A field: not empty, no white space in it. *)
Fixpoint noSpace (s : string) : bool :=
  match s with
  | EmptyString => true
  | String c s' => negb (isSpace c) && noSpace s'
  end.

Definition isWord (s : string) : Prop := s <> "" /\ noSpace s = true.

(** The two flag sets ignore at least what [f] ignores. *)
Definition ignoresMore (f f' : flags) : Prop :=
  (IgnoreCase f = true -> IgnoreCase f' = true)
  /\ (IgnoreWhitespace f = true -> IgnoreWhitespace f' = true).

Definition manyLines (n : nat) : list string := repeat "x" n.

Definition cancelledAtStart : Context := mkContext (Some 0) "context canceled".

(** The normal form diff.go gives one line under the flags. *)
Definition normalLine (f : flags) (line : string) : string :=
  let line := if IgnoreCase f then ToLower line else line in
  if IgnoreWhitespace f then collapse line else line.

(** How a renderer run under any context ends: a prefix of the full report
    written, and no error or the context's. *)
Definition rendered (ctx : Context) (w : World) (res : error * World)
  (full : string) : Prop :=
  partialOf w (snd res) (fst res) full
  /\ (fst res = None \/ fst res = Some (ctxErr ctx)).

(** The normal report read off the positions: a change command at every
    index, below both lengths, where the two lines differ, then the append
    commands for the lines of the second sequence beyond the first, or the
    delete commands for the lines of the first beyond the second. *)
Definition changeAt (l1 l2 : list string) (k : nat) : string :=
  if String.eqb (nth k l1 "") (nth k l2 "") then ""
  else changeCommand k k (nth k l1 "") (nth k l2 "").

Definition positionalScript (l1 l2 : list string) : string :=
  concat_str (map (changeAt l1 l2) (seq 0 (Nat.min (length l1) (length l2))))
  ++ appendCommands (length l1) (length l1) (skipn (length l1) l2)
  ++ deleteCommands (length l2) (length l2) (skipn (length l2) l1).

(** The command with both normalisation flags cleared. *)
Definition withoutIgnoring (p : command) : command :=
  mkCommand (Positional p)
    (Configure (OIgnoreCaseFlag false)
       (Configure (OIgnoreWhitespaceFlag false) (Flags p))).

(** Lines made of 7-bit bytes only. On these the models of [strings.ToLower],
    [strings.Fields] and [strings.TrimSpace] above are Go's own ASCII paths. *)
Fixpoint isASCII (s : string) : bool :=
  match s with
  | EmptyString => true
  | String c s' => (nat_of_ascii c <? 128)%nat && isASCII s'
  end.

Definition asciiLines (lines : list string) : Prop :=
  Forall (fun line => isASCII line = true) lines.

(** * Properties *)

Arguments Itoa : simpl never.
Arguments bind : simpl never.
Arguments ret : simpl never.

(** ** Sample runs *)

Example library_functions :
  Fields "  a  bc   d " = ["a"; "bc"; "d"] /\ TrimSpace "  a  b " = "a  b"
  /\ ToLower "Hello World" = "hello world" /\ Itoa 120 = "120"
  /\ Join (Fields " x   y ") " " = "x y" /\ padRight40 "ab" = "ab" ++ spaces 38.
Proof. repeat split; reflexivity. Qed.

Example normal_abc_axc :
  run (DiffGo.Execute (Diff [PString "A.txt"; PString "B.txt"]) background) abc_axc
  = (None, "2c2" ++ nl ++ "< b" ++ nl ++ "---" ++ nl ++ "> x" ++ nl, "")
  /\
  run (CommandGo.Executor (Diff [PString "A.txt"; PString "B.txt"])) abc_axc
  = (None, "2c2" ++ nl ++ "< b" ++ nl ++ "---" ++ nl ++ "> x" ++ nl, "").
Proof. split; vm_compute; reflexivity. Qed.

Example sideBySide_ab_xy :
  run (DiffGo.Execute (Diff sideBySideParams) background)
    (world0 (twoFiles "A.txt" ["a"; "b"] "B.txt" ["a"]))
  = (None,
     "a" ++ spaces 39 ++ "   " ++ "a" ++ spaces 39 ++ nl
     ++ "b" ++ spaces 39 ++ " | " ++ spaces 40 ++ nl, "").
Proof. vm_compute. reflexivity. Qed.

Example context_abc_axc :
  run (CommandGo.Executor (Diff contextParams)) abc_axc
  = (None,
     "*** A.txt" ++ nl ++ "--- B.txt" ++ nl ++ "  a" ++ nl ++ "! b" ++ nl
     ++ "! x" ++ nl ++ "  c" ++ nl, "").
Proof. vm_compute. reflexivity. Qed.

Example missing_file :
  run (DiffGo.Execute (Diff [PString "nonexistent.txt"; PString "A.txt"]) background)
    abc_axc
  = (Some "no such file or directory", "",
     "diff: nonexistent.txt: no such file or directory" ++ nl)
  /\
  run (CommandGo.Executor (Diff [PString "nonexistent.txt"; PString "A.txt"]))
    abc_axc
  = (Some "no such file or directory", "",
     "diff: nonexistent.txt: no such file or directory" ++ nl).
Proof. split; vm_compute; reflexivity. Qed.

(** Cancellation seen while the second file is scanned: the partial read is
    reported as a failure of that file. *)
Example cancelled_while_reading :
  run (DiffGo.Execute (Diff [PString "A.txt"; PString "B.txt"]) cancelledLate)
    abc_axc
  = (Some "context canceled", "", "diff: B.txt: context canceled" ++ nl).
Proof. vm_compute. reflexivity. Qed.

(** The standard input can be read once: named twice, the second read is
    empty. *)
Example stdin_twice :
  run (DiffGo.Execute (Diff [PString "-"; PString "-"]) background)
    (mkWorld noFile 0 (mkReader ["a"] None) "" "")
  = (None, "1d0" ++ nl ++ "< a" ++ nl, "").
Proof. vm_compute. reflexivity. Qed.

(** ** Strings and lists *)

Lemma append_nil_r (s : string) : s ++ "" = s.
Proof. induction s as [|c s IH]; simpl; [reflexivity | now rewrite IH]. Qed.

Lemma append_assoc (s t u : string) : (s ++ t) ++ u = s ++ t ++ u.
Proof. induction s as [|c s IH]; simpl; [reflexivity | now rewrite IH]. Qed.

Ltac str_norm :=
  repeat rewrite append_assoc; repeat rewrite append_nil_r; cbn [append];
  try reflexivity.

Lemma skipn_nth {A : Type} (d : A) (l : list A) :
  forall i, (i < length l)%nat -> skipn i l = nth i l d :: skipn (S i) l.
Proof.
  induction l as [|x l IH]; intros i Hi; simpl in Hi; [lia|].
  destruct i as [|i]; [reflexivity|].
  simpl. rewrite (IH i) by lia. reflexivity.
Qed.

Lemma lines_eqb_true (l1 l2 : list string) : lines_eqb l1 l2 = true <-> l1 = l2.
Proof.
  unfold lines_eqb. destruct (list_eq_dec string_dec l1 l2); split;
    intros; congruence.
Qed.

Lemma lines_eqb_false (l1 l2 : list string) : lines_eqb l1 l2 = false <-> l1 <> l2.
Proof.
  unfold lines_eqb. destruct (list_eq_dec string_dec l1 l2); split;
    intros; congruence.
Qed.

Lemma lines_eqb_refl (l : list string) : lines_eqb l l = true.
Proof. now apply lines_eqb_true. Qed.

Lemma lines_eqb_cons (x y : string) (xs ys : list string) :
  lines_eqb (x :: xs) (y :: ys) = String.eqb x y && lines_eqb xs ys.
Proof.
  destruct (String.eqb_spec x y) as [->|Hxy]; simpl.
  - destruct (lines_eqb xs ys) eqn:E.
    + apply lines_eqb_true in E. subst. apply lines_eqb_refl.
    + apply lines_eqb_false in E. apply lines_eqb_false. congruence.
  - apply lines_eqb_false. congruence.
Qed.

(** ** Steps of the world *)

Lemma steps_refl (w : World) : steps w w "".
Proof. unfold steps. now rewrite append_nil_r. Qed.

Lemma steps_trans (w w1 w2 : World) (o1 o2 : string) :
  steps w w1 o1 -> steps w1 w2 o2 -> steps w w2 (o1 ++ o2).
Proof.
  unfold steps. intros (F1 & I1 & O1 & E1) (F2 & I2 & O2 & E2).
  rewrite F2, I2, O2, E2, F1, I1, O1, E1, append_assoc. auto.
Qed.

Lemma steps_eq (w w' : World) (o o' : string) :
  steps w w' o -> o = o' -> steps w w' o'.
Proof. now intros H <-. Qed.

Lemma check_quiet (ctx : Context) (w : World) :
  quiet ctx ->
  exists w', CheckContextCancellation ctx w = (None, w') /\ steps w w' "".
Proof.
  intros Q. unfold CheckContextCancellation, cancelled. rewrite Q.
  eexists; split; [reflexivity|].
  unfold steps; simpl. now rewrite append_nil_r.
Qed.

Lemma checkEvery_quiet (k : nat) (ctx : Context) (n : nat) (w : World) :
  quiet ctx -> exists w', checkEvery k ctx n w = (None, w') /\ steps w w' "".
Proof.
  intros Q. unfold checkEvery. destruct (n mod k =? 0)%nat.
  - now apply check_quiet.
  - exists w. split; [reflexivity | apply steps_refl].
Qed.

Lemma Fprint_stdout (s : string) (w : World) :
  exists w', Fprint Stdout s w = (tt, w') /\ steps w w' s.
Proof. eexists; split; [reflexivity|]. unfold steps; simpl; auto. Qed.

Lemma bind_assoc {A B C : Type} (m : M A) (f : A -> M B) (g : B -> M C)
  (w : World) :
  bind (bind m f) g w = bind m (fun x => bind (f x) g) w.
Proof. unfold bind. destruct (m w). reflexivity. Qed.

(** Run the next command of a sequence with the lemma [H] about it. *)
Ltac run H :=
  let w' := fresh "w" in
  let E := fresh "E" in
  let St := fresh "St" in
  destruct H as (w' & E & St); repeat rewrite bind_assoc;
  first [rewrite E | unfold bind at 1; rewrite E]; cbv beta iota.

Ltac run_print :=
  match goal with
  | |- context [bind (bind (Fprint Stdout ?s) _) _ ?w] =>
      run (Fprint_stdout s w)
  | |- context [bind (Fprint Stdout ?s) _ ?w] => run (Fprint_stdout s w)
  end.

Ltac chain :=
  first [ eassumption | apply steps_refl
        | eapply steps_trans; [eassumption | chain] ].

Ltac done_with :=
  eexists; split; [reflexivity | eapply steps_eq; [chain | str_norm]].

(** ** diff.go under a context that is never cancelled *)

Section Quiet.

Variable ctx : Context.
Hypothesis Q : quiet ctx.

Lemma scanLoop_quiet (input : list string) :
  forall lines w,
  exists w', DiffGo.scanLoop ctx input lines w = ((lines ++ input, [])%list, w')
             /\ steps w w' "".
Proof.
  induction input as [|l input IH]; intros lines w; simpl.
  - run (check_quiet ctx w Q). rewrite app_nil_r. unfold ret. done_with.
  - run (check_quiet ctx w Q). run (IH (lines ++ [l])%list w0).
    rewrite <- app_assoc. simpl. done_with.
Qed.

Lemma normalizeLoop_quiet (f : string -> string) (lines : list string) :
  forall i done w,
  exists w', DiffGo.normalizeLoop f ctx i done lines w
             = ((done ++ map f lines)%list, w') /\ steps w w' "".
Proof.
  induction lines as [|l lines IH]; intros i done w; simpl.
  - rewrite app_nil_r. unfold ret. done_with.
  - run (checkEvery_quiet 1000 ctx i w Q).
    run (IH (S i) (done ++ [f l])%list w0).
    rewrite <- app_assoc. simpl. done_with.
Qed.

Lemma linesEqualLoop_quiet (lines2 : list string) (rest : list string) :
  forall i w, (length rest + i = length lines2)%nat ->
  exists w', DiffGo.linesEqualLoop ctx lines2 i rest w
             = (lines_eqb rest (skipn i lines2), w') /\ steps w w' "".
Proof.
  induction rest as [|x rest IH]; intros i w Hlen; simpl in *.
  - rewrite skipn_all2 by lia. unfold ret. done_with.
  - rewrite (skipn_nth "" lines2 i) by lia. rewrite lines_eqb_cons.
    run (checkEvery_quiet 1000 ctx i w Q).
    destruct (String.eqb x (nth i lines2 "")); simpl.
    + run (IH (S i) w0 ltac:(lia)). done_with.
    + unfold ret. done_with.
Qed.

Lemma linesEqual_quiet (lines1 lines2 : list string) (w : World) :
  exists w', DiffGo.linesEqual ctx lines1 lines2 w
             = (lines_eqb lines1 lines2, w') /\ steps w w' "".
Proof.
  unfold DiffGo.linesEqual.
  destruct (Nat.eqb_spec (length lines1) (length lines2)) as [E|NE]; simpl.
  - destruct (linesEqualLoop_quiet lines2 lines1 0 w ltac:(lia)) as (w' & E' & S').
    exists w'. split; [exact E' | exact S'].
  - replace (lines_eqb lines1 lines2) with false
      by (symmetry; apply lines_eqb_false; congruence).
    unfold ret. done_with.
Qed.


Lemma readFile_quiet (name : string) (lines : list string) (w : World) :
  source w name = Opens (mkReader lines None) ->
  exists w', DiffGo.readFile ctx name w = ((lines, None), w')
             /\ files w' = files w /\ stdin w' = stdin (drained w name)
             /\ stdout w' = stdout w /\ stderr w' = stderr w.
Proof.
  unfold source, drained, DiffGo.readFile. intros H.
  destruct (String.eqb name "-").
  - injection H as H.
    destruct (scanLoop_quiet (pending (stdin w)) [] w) as (w1 & E1 & S1).
    unfold bind at 1. rewrite E1. cbv beta iota.
    unfold bind at 1, setStdin at 1. cbv beta iota.
    match goal with |- context [bind (CheckContextCancellation ctx) _ ?w2] =>
      destruct (check_quiet ctx w2 Q) as (w3 & E3 & S3) end.
    unfold bind at 1. rewrite E3. cbv beta iota. unfold ret.
    destruct S1 as (F1 & I1 & O1 & R1), S3 as (F3 & I3 & O3 & R3).
    simpl in *. rewrite append_nil_r in O1, O3. rewrite H in *. simpl.
    eexists; split; [reflexivity|]. simpl in *.
    repeat split; congruence.
  - rewrite H.
    destruct (scanLoop_quiet lines [] w) as (w1 & E1 & S1).
    unfold bind at 1. simpl pending. rewrite E1. cbv beta iota.
    unfold bind at 1, ret at 1. cbv beta iota.
    destruct (check_quiet ctx w1 Q) as (w3 & E3 & S3).
    unfold bind at 1. rewrite E3. cbv beta iota. unfold ret.
    destruct S1 as (F1 & I1 & O1 & R1), S3 as (F3 & I3 & O3 & R3).
    rewrite append_nil_r in O1, O3.
    eexists; split; [reflexivity|]. simpl.
    repeat split; congruence.
Qed.

Lemma normalScript_nil_r (i j : nat) (l1 : list string) :
  normalScript i j l1 [] = deleteCommands i j l1.
Proof. destruct l1; reflexivity. Qed.

Lemma generateNormalDiffLoop_quiet (l1 l2 : list string) :
  forall fuel i j lc w,
  (i <= length l1)%nat -> (j <= length l2)%nat ->
  ((length l1 - i) + (length l2 - j) < fuel)%nat ->
  exists w', DiffGo.generateNormalDiffLoop ctx l1 l2 Stdout fuel i j lc w
             = (None, w')
             /\ steps w w' (normalScript i j (skipn i l1) (skipn j l2)).
Proof.
  induction fuel as [|fuel IH]; intros i j lc w Hi Hj Hf; [lia|].
  cbn [DiffGo.generateNormalDiffLoop].
  destruct (Nat.ltb_spec i (length l1)) as [Li|Li];
    destruct (Nat.ltb_spec j (length l2)) as [Lj|Lj]; cbn [orb].
  - run (checkEvery_quiet 1000 ctx (S lc) w Q).
    destruct (Nat.leb_spec (length l1) i); [lia|].
    destruct (Nat.leb_spec (length l2) j); [lia|].
    rewrite (skipn_nth "" l1 i), (skipn_nth "" l2 j) by lia.
    cbn [normalScript]. unfold changeCommand.
    destruct (String.eqb (nth i l1 "") (nth j l2 "")).
    + run (IH (S i) (S j) (S lc) w0 ltac:(lia) ltac:(lia) ltac:(lia)).
      done_with.
    + do 4 run_print.
      run (IH (S i) (S j) (S lc) w4 ltac:(lia) ltac:(lia) ltac:(lia)).
      done_with.
  - run (checkEvery_quiet 1000 ctx (S lc) w Q).
    destruct (Nat.leb_spec (length l1) i); [lia|].
    destruct (Nat.leb_spec (length l2) j); [|lia].
    rewrite (skipn_nth "" l1 i) by lia. rewrite (skipn_all2 l2) by lia.
    cbn [normalScript deleteCommands].
    do 2 run_print.
    run (IH (S i) j (S lc) w2 ltac:(lia) ltac:(lia) ltac:(lia)).
    rewrite (skipn_all2 l2) in St2 by lia. rewrite normalScript_nil_r in St2.
    done_with.
  - run (checkEvery_quiet 1000 ctx (S lc) w Q).
    destruct (Nat.leb_spec (length l1) i); [|lia].
    rewrite (skipn_nth "" l2 j) by lia. rewrite (skipn_all2 l1) by lia.
    cbn [normalScript appendCommands].
    do 2 run_print.
    run (IH i (S j) (S lc) w2 ltac:(lia) ltac:(lia) ltac:(lia)).
    rewrite (skipn_all2 l1) in St2 by lia. cbn [normalScript] in St2.
    done_with.
  - rewrite (skipn_all2 l1), (skipn_all2 l2) by lia. unfold ret. done_with.
Qed.

Lemma generateNormalDiff_quiet (l1 l2 : list string) (f1 f2 : string)
  (w : World) :
  exists w', DiffGo.generateNormalDiff ctx l1 l2 f1 f2 Stdout w = (None, w')
             /\ steps w w' (normalScript 0 0 l1 l2).
Proof.
  unfold DiffGo.generateNormalDiff.
  apply (generateNormalDiffLoop_quiet l1 l2 _ 0 0 0 w); lia.
Qed.

Lemma signed_cons (sign x : string) (xs : list string) :
  signed sign (x :: xs) = sign ++ x ++ nl ++ signed sign xs.
Proof. unfold signed. simpl. now rewrite !append_assoc. Qed.

Lemma emitRest_quiet (sign : string) (lines : list string) :
  forall fuel k w,
  (k <= length lines)%nat -> (length lines - k < fuel)%nat ->
  exists w', DiffGo.emitRest ctx sign lines Stdout fuel k w
             = ((None, length lines), w')
             /\ steps w w' (signed sign (skipn k lines)).
Proof.
  induction fuel as [|fuel IH]; intros k w Hk Hf; [lia|].
  cbn [DiffGo.emitRest].
  destruct (Nat.ltb_spec k (length lines)) as [Lk|Lk].
  - run (checkEvery_quiet 100 ctx k w Q). run_print.
    run (IH (S k) w1 ltac:(lia) ltac:(lia)).
    rewrite (skipn_nth "" lines k) by lia. rewrite signed_cons.
    done_with.
  - rewrite skipn_all2 by lia. replace k with (length lines) by lia.
    unfold ret. done_with.
Qed.

Lemma generateUnifiedDiffLoop_quiet (l1 l2 : list string) :
  forall fuel i j lc w,
  (i <= length l1)%nat -> (j <= length l2)%nat ->
  ((length l1 - i) + (length l2 - j) < fuel)%nat ->
  exists w', DiffGo.generateUnifiedDiffLoop ctx l1 l2 Stdout fuel i j lc w
             = (None, w')
             /\ steps w w' (unifiedHunks i j (skipn i l1) (skipn j l2)).
Proof.
  induction fuel as [|fuel IH]; intros i j lc w Hi Hj Hf; [lia|].
  cbn [DiffGo.generateUnifiedDiffLoop].
  destruct (Nat.ltb_spec i (length l1)) as [Li|Li];
    destruct (Nat.ltb_spec j (length l2)) as [Lj|Lj]; cbn [orb].
  - run (checkEvery_quiet 1000 ctx (S lc) w Q).
    destruct (Nat.leb_spec (length l1) i); [lia|].
    destruct (Nat.leb_spec (length l2) j); [lia|].
    rewrite (skipn_nth "" l1 i), (skipn_nth "" l2 j) by lia.
    cbn [unifiedHunks]. unfold hunkHeader.
    destruct (String.eqb (nth i l1 "") (nth j l2 "")).
    + run (IH (S i) (S j) (S lc) w0 ltac:(lia) ltac:(lia) ltac:(lia)).
      done_with.
    + do 3 run_print.
      run (IH (S i) (S j) (S lc) w3 ltac:(lia) ltac:(lia) ltac:(lia)).
      done_with.
  - run (checkEvery_quiet 1000 ctx (S lc) w Q).
    destruct (Nat.leb_spec (length l1) i); [lia|].
    destruct (Nat.leb_spec (length l2) j); [|lia].
    run_print.
    run (emitRest_quiet "-" l1 (S (length l1)) i w1 ltac:(lia) ltac:(lia)).
    cbn [fst snd].
    run (IH (length l1) j (S lc) w2 ltac:(lia) ltac:(lia) ltac:(lia)).
    rewrite (skipn_all2 l1 (n := length l1)) in St2 by lia.
    rewrite (skipn_all2 l2) in St2 |- * by lia. cbn [unifiedHunks] in St2.
    rewrite (skipn_nth "" l1 i) in St1 |- * by lia.
    cbn [unifiedHunks]. unfold hunkHeader.
    replace (length (nth i l1 "" :: skipn (S i) l1)) with (length l1 - i)%nat
      by (cbn [length]; rewrite length_skipn; lia).
    done_with.
  - run (checkEvery_quiet 1000 ctx (S lc) w Q).
    destruct (Nat.leb_spec (length l1) i); [|lia].
    run_print.
    run (emitRest_quiet "+" l2 (S (length l2)) j w1 ltac:(lia) ltac:(lia)).
    cbn [fst snd].
    run (IH i (length l2) (S lc) w2 ltac:(lia) ltac:(lia) ltac:(lia)).
    rewrite (skipn_all2 l2 (n := length l2)) in St2 by lia.
    rewrite (skipn_all2 l1) in St2 |- * by lia. cbn [unifiedHunks] in St2.
    rewrite (skipn_nth "" l2 j) in St1 |- * by lia.
    cbn [unifiedHunks]. unfold hunkHeader.
    replace (length (nth j l2 "" :: skipn (S j) l2)) with (length l2 - j)%nat
      by (cbn [length]; rewrite length_skipn; lia).
    done_with.
  - rewrite (skipn_all2 l1), (skipn_all2 l2) by lia. unfold ret. done_with.
Qed.

Lemma generateUnifiedDiff_quiet (c : command) (l1 l2 : list string)
  (f1 f2 : string) (w : World) :
  exists w', DiffGo.generateUnifiedDiff c ctx l1 l2 f1 f2 Stdout w = (None, w')
             /\ steps w w' (unifiedHeader f1 f2 ++ unifiedHunks 0 0 l1 l2).
Proof.
  unfold DiffGo.generateUnifiedDiff, unifiedHeader. do 2 run_print.
  cbv zeta.
  run (generateUnifiedDiffLoop_quiet l1 l2 (S (length l1 + length l2)) 0 0 0 w1
         ltac:(lia) ltac:(lia) ltac:(lia)).
  done_with.
Qed.

Lemma sideBySideRows_nil_r (l1 : list string) :
  sideBySideRows l1 [] = concat_str (map (fun x => sideBySideRow x "") l1).
Proof. destruct l1; reflexivity. Qed.

Lemma generateSideBySideDiffLoop_quiet (l1 l2 : list string) :
  forall fuel i w,
  (i <= Nat.max (length l1) (length l2))%nat ->
  (Nat.max (length l1) (length l2) - i < fuel)%nat ->
  exists w', DiffGo.generateSideBySideDiffLoop ctx l1 l2 Stdout fuel i
               (Nat.max (length l1) (length l2)) w = (None, w')
             /\ steps w w' (sideBySideRows (skipn i l1) (skipn i l2)).
Proof.
  induction fuel as [|fuel IH]; intros i w Hi Hf; [lia|].
  cbn [DiffGo.generateSideBySideDiffLoop].
  destruct (Nat.ltb_spec i (Nat.max (length l1) (length l2))) as [Lm|Lm].
  - run (checkEvery_quiet 1000 ctx i w Q). cbv zeta.
    assert (R : forall a b,
      (if String.eqb a b
       then Fprint Stdout (padRight40 a ++ "   " ++ padRight40 b ++ nl)
       else Fprint Stdout (padRight40 a ++ " | " ++ padRight40 b ++ nl))
      = Fprint Stdout (sideBySideRow a b)).
    { intros a b. unfold sideBySideRow. destruct (String.eqb a b); reflexivity. }
    rewrite R. clear R. run_print.
    run (IH (S i) w1 ltac:(lia) ltac:(lia)).
    destruct (Nat.ltb_spec i (length l1)) as [Li|Li];
      destruct (Nat.ltb_spec i (length l2)) as [Lj|Lj]; try lia.
    + rewrite (skipn_nth "" l1 i), (skipn_nth "" l2 i) by lia.
      cbn [sideBySideRows]. done_with.
    + rewrite (skipn_nth "" l1 i) by lia.
      rewrite (skipn_all2 l2 (n := i)) by lia.
      rewrite (skipn_all2 l2) in St1 by lia.
      rewrite sideBySideRows_nil_r in St1.
      cbn [sideBySideRows map concat_str]. done_with.
    + rewrite (skipn_nth "" l2 i) by lia.
      rewrite (skipn_all2 l1 (n := i)) by lia.
      rewrite (skipn_all2 l1) in St1 by lia.
      cbn [sideBySideRows] in St1.
      cbn [sideBySideRows map concat_str]. done_with.
  - rewrite (skipn_all2 l1), (skipn_all2 l2) by lia. unfold ret. done_with.
Qed.

Lemma generateSideBySideDiff_quiet (l1 l2 : list string) (f1 f2 : string)
  (w : World) :
  exists w', DiffGo.generateSideBySideDiff ctx l1 l2 f1 f2 Stdout w = (None, w')
             /\ steps w w' (sideBySideRows l1 l2).
Proof.
  unfold DiffGo.generateSideBySideDiff. cbv zeta.
  replace (if (length l1 <? length l2)%nat then length l2 else length l1)
    with (Nat.max (length l1) (length l2))
    by (destruct (Nat.ltb_spec (length l1) (length l2)); lia).
  apply (generateSideBySideDiffLoop_quiet l1 l2 _ 0 w); lia.
Qed.

Lemma generateDiff_quiet (c : command) (l1 l2 : list string) (f1 f2 : string)
  (w : World) :
  exists w', DiffGo.generateDiff c ctx l1 l2 f1 f2 Stdout w = (None, w')
             /\ steps w w' (diffOutput (Flags c) l1 l2 f1 f2).
Proof.
  unfold DiffGo.generateDiff, diffOutput.
  destruct (Unified (Flags c) || (0 <? UnifiedContext (Flags c))%Z).
  - apply generateUnifiedDiff_quiet.
  - destruct (SideBySide (Flags c)).
    + apply generateSideBySideDiff_quiet.
    + apply generateNormalDiff_quiet.
Qed.

Lemma source_ext (w w' : World) (name : string) :
  files w' = files w -> stdin w' = stdin w -> source w' name = source w name.
Proof. unfold source. now intros -> ->. Qed.

Lemma files_drained (w : World) (name : string) :
  files (drained w name) = files w.
Proof. unfold drained. now destruct (String.eqb name "-"). Qed.

Lemma normalizeStage_quiet (b : bool) (f : string -> string)
  (lines : list string) (w : World) :
  exists w', (if b then DiffGo.normalizeLoop f ctx 0 [] lines else ret lines) w
             = ((if b then map f lines else lines), w') /\ steps w w' "".
Proof.
  destruct b.
  - apply (normalizeLoop_quiet f lines 0 [] w).
  - unfold ret. done_with.
Qed.

(** The whole run of diff.go on two readable inputs. *)
Lemma Execute_quiet (c : command) (f1 f2 : string) (A B : list string)
  (w : World) :
  Positional c = [f1; f2] ->
  source w f1 = Opens (mkReader A None) ->
  source (drained w f1) f2 = Opens (mkReader B None) ->
  exists w', DiffGo.Execute c ctx w = (None, w')
    /\ stderr w' = stderr w
    /\ stdout w' = stdout w ++
         (if lines_eqb (normalized (Flags c) A) (normalized (Flags c) B) then ""
          else if Brief (Flags c)
               then "Files " ++ f1 ++ " and " ++ f2 ++ " differ" ++ nl
               else diffOutput (Flags c) (normalized (Flags c) A)
                      (normalized (Flags c) B) f1 f2).
Proof.
  intros P H1 H2. unfold DiffGo.Execute.
  destruct (check_quiet ctx w Q) as (w0 & E0 & S0).
  unfold bind at 1. rewrite E0. cbv beta iota. cbn [DiffGo.orReturn].
  rewrite P. cbn [length Nat.eqb negb nth].
  assert (H1' : source w0 f1 = Opens (mkReader A None)).
  { rewrite <- H1. apply source_ext; apply S0. }
  destruct (readFile_quiet f1 A w0 H1') as (w1 & E1 & F1 & I1 & O1 & R1).
  unfold bind at 1. rewrite E1. cbv beta iota. cbn [fst snd].
  destruct (check_quiet ctx w1 Q) as (w2 & E2 & S2).
  unfold bind at 1. rewrite E2. cbv beta iota. cbn [DiffGo.orReturn].
  assert (H2' : source w2 f2 = Opens (mkReader B None)).
  { rewrite <- H2. apply source_ext.
    - rewrite files_drained. destruct S2 as (-> & _), S0 as (<- & _). exact F1.
    - destruct S2 as (_ & -> & _). rewrite I1.
      unfold drained. destruct S0 as (_ & I0 & _).
      destruct (String.eqb f1 "-"); simpl; now rewrite I0. }
  destruct (readFile_quiet f2 B w2 H2') as (w3 & E3 & F3 & I3 & O3 & R3).
  unfold bind at 1. rewrite E3. cbv beta iota. cbn [fst snd].
  assert (Hout : stdout w3 = stdout w /\ stderr w3 = stderr w).
  { destruct S0 as (_ & _ & O0 & R0), S2 as (_ & _ & O2 & R2).
    rewrite append_nil_r in O0, O2. split; congruence. }
  clear E0 S0 H1' E1 F1 I1 O1 R1 E2 S2 H2' E3 F3 I3 O3 R3 H1 H2.
  destruct Hout as (O3 & R3).
  assert (G : forall out w', steps w3 w' out ->
            stderr w' = stderr w /\ stdout w' = stdout w ++ out).
  { intros out w' (_ & _ & O & R). split; congruence. }
  run (check_quiet ctx w3 Q). cbn [DiffGo.orReturn].
  unfold DiffGo.normalizeCase, DiffGo.normalizeWhitespace.
  run (normalizeStage_quiet (IgnoreCase (Flags c)) ToLower A w4).
  run (normalizeStage_quiet (IgnoreCase (Flags c)) ToLower B w5).
  run (normalizeStage_quiet (IgnoreWhitespace (Flags c))
         (fun line => Join (Fields line) " ")
         (if IgnoreCase (Flags c) then map ToLower A else A) w6).
  run (normalizeStage_quiet (IgnoreWhitespace (Flags c))
         (fun line => Join (Fields line) " ")
         (if IgnoreCase (Flags c) then map ToLower B else B) w7).
  run (check_quiet ctx w8 Q). cbn [DiffGo.orReturn].
  change (if IgnoreWhitespace (Flags c)
          then map (fun line => Join (Fields line) " ")
                 (if IgnoreCase (Flags c) then map ToLower A else A)
          else if IgnoreCase (Flags c) then map ToLower A else A)
    with (normalized (Flags c) A).
  change (if IgnoreWhitespace (Flags c)
          then map (fun line => Join (Fields line) " ")
                 (if IgnoreCase (Flags c) then map ToLower B else B)
          else if IgnoreCase (Flags c) then map ToLower B else B)
    with (normalized (Flags c) B).
  run (linesEqual_quiet (normalized (Flags c) A) (normalized (Flags c) B) w9).
  destruct (lines_eqb (normalized (Flags c) A) (normalized (Flags c) B)).
  - unfold ret. eexists; split; [reflexivity|]. apply G.
    eapply steps_eq; [chain | str_norm].
  - destruct (Brief (Flags c)).
    + run_print. unfold ret. eexists; split; [reflexivity|]. apply G.
      eapply steps_eq; [chain | str_norm].
    + run (generateDiff_quiet c (normalized (Flags c) A)
             (normalized (Flags c) B) f1 f2 w10).
      eexists; split; [reflexivity|]. apply G.
      eapply steps_eq; [chain | str_norm].
Qed.

End Quiet.

(** ** command.go *)

Lemma areIdenticalLoop_spec (ic iw : bool) (lines2 rest : list string) :
  forall i, (length rest + i = length lines2)%nat ->
  CommandGo.areIdenticalLoop lines2 ic iw i rest
  = lines_eqb (map (compared ic iw) rest)
      (map (compared ic iw) (skipn i lines2)).
Proof.
  induction rest as [|x rest IH]; intros i Hlen; simpl in *.
  - rewrite skipn_all2 by lia. reflexivity.
  - rewrite (skipn_nth "" lines2 i) by lia. cbn [map].
    rewrite lines_eqb_cons. fold (compared ic iw x).
    fold (compared ic iw (nth i lines2 "")).
    destruct (String.eqb (compared ic iw x) (compared ic iw (nth i lines2 "")));
      simpl; [apply IH; lia | reflexivity].
Qed.

Lemma areIdentical_spec (lines1 lines2 : list string) (ic iw : bool) :
  CommandGo.areIdentical lines1 lines2 ic iw
  = lines_eqb (map (compared ic iw) lines1) (map (compared ic iw) lines2).
Proof.
  unfold CommandGo.areIdentical.
  destruct (Nat.eqb_spec (length lines1) (length lines2)) as [E|NE]; simpl.
  - apply (areIdenticalLoop_spec ic iw lines2 lines1 0). lia.
  - symmetry. apply lines_eqb_false. intros H.
    apply (f_equal (@length string)) in H. rewrite !length_map in H. lia.
Qed.

Lemma cmdNormalScript_nil_r (n1 n2 i : nat) (l1 : list string) :
  cmdNormalScript n1 n2 i l1 [] = deleteCommands i n2 l1.
Proof. destruct l1; reflexivity. Qed.

Lemma cmdUnifiedBody_nil_r (l1 : list string) :
  cmdUnifiedBody l1 [] = signed "-" l1.
Proof. destruct l1; reflexivity. Qed.

Lemma outputNormalDiff_steps (l1 l2 : list string) (w : World) :
  exists w', CommandGo.outputNormalDiff Stdout l1 l2 w = (tt, w')
             /\ steps w w' (cmdNormalScript (length l1) (length l2) 0 l1 l2).
Proof.
  unfold CommandGo.outputNormalDiff. cbv zeta.
  replace (if (length l1 <? length l2)%nat then length l2 else length l1)
    with (Nat.max (length l1) (length l2))
    by (destruct (Nat.ltb_spec (length l1) (length l2)); lia).
  match goal with |- context [forLoop _ _ ?b 0 w] => set (body := b) end.
  assert (L : forall fuel i w,
    (i <= Nat.max (length l1) (length l2))%nat ->
    (Nat.max (length l1) (length l2) - i < fuel)%nat ->
    exists w',
      forLoop fuel (fun i => (i <? Nat.max (length l1) (length l2))%nat)
        body i w = (tt, w')
      /\ steps w w' (cmdNormalScript (length l1) (length l2) i
                       (skipn i l1) (skipn i l2))).
  { induction fuel as [|fuel IH]; intros i w0 Hi Hf; [lia|].
    cbn [forLoop].
    destruct (Nat.ltb_spec i (Nat.max (length l1) (length l2))) as [Lm|Lm].
    - unfold body at 1. cbv beta.
      destruct (Nat.leb_spec (length l1) i) as [Li|Li];
        [|destruct (Nat.leb_spec (length l2) i) as [Lj|Lj]].
      + do 2 run_print.
        run (IH (S i) w2 ltac:(lia) ltac:(lia)).
        rewrite (skipn_all2 l1 (n := i)) by lia.
        rewrite (skipn_all2 l1) in St1 by lia.
        rewrite (skipn_nth "" l2 i) by lia.
        cbn [cmdNormalScript appendCommands] in *. done_with.
      + do 2 run_print.
        run (IH (S i) w2 ltac:(lia) ltac:(lia)).
        rewrite (skipn_all2 l2 (n := i)) by lia.
        rewrite (skipn_all2 l2) in St1 by lia.
        rewrite cmdNormalScript_nil_r in St1.
        rewrite (skipn_nth "" l1 i) by lia.
        cbn [cmdNormalScript deleteCommands]. done_with.
      + rewrite (skipn_nth "" l1 i), (skipn_nth "" l2 i) by lia.
        cbn [cmdNormalScript]. unfold changeCommand.
        destruct (String.eqb (nth i l1 "") (nth i l2 "")); cbn [negb].
        * unfold bind at 1, ret at 1. cbv beta iota.
          run (IH (S i) w0 ltac:(lia) ltac:(lia)). done_with.
        * do 4 run_print.
          run (IH (S i) w4 ltac:(lia) ltac:(lia)). done_with.
    - rewrite (skipn_all2 l1), (skipn_all2 l2) by lia. unfold ret. done_with. }
  apply (L _ 0 w); lia.
Qed.

Lemma outputUnifiedDiff_steps (f1 f2 : string) (l1 l2 : list string)
  (context : Z) (w : World) :
  exists w', CommandGo.outputUnifiedDiff Stdout f1 f2 l1 l2 context w = (tt, w')
             /\ steps w w' (unifiedHeader f1 f2 ++ cmdUnifiedBody l1 l2).
Proof.
  unfold CommandGo.outputUnifiedDiff, unifiedHeader.
  match goal with |- context [forLoop _ ?c ?b 0] =>
    set (body := b); set (cond := c) end.
  assert (L : forall fuel i w,
    (i <= Nat.max (length l1) (length l2))%nat ->
    (Nat.max (length l1) (length l2) - i < fuel)%nat ->
    exists w',
      forLoop fuel cond body i w = (tt, w')
      /\ steps w w' (cmdUnifiedBody (skipn i l1) (skipn i l2))).
  { induction fuel as [|fuel IH]; intros i w0 Hi Hf; [lia|].
    cbn [forLoop]. unfold cond at 1.
    destruct (Nat.ltb_spec i (length l1)) as [Li|Li];
      destruct (Nat.ltb_spec i (length l2)) as [Lj|Lj]; cbn [orb];
      try (unfold body at 1; cbv beta).
    - destruct (Nat.leb_spec (length l1) i); [lia|].
      destruct (Nat.leb_spec (length l2) i); [lia|].
      rewrite (skipn_nth "" l1 i), (skipn_nth "" l2 i) by lia.
      cbn [cmdUnifiedBody].
      destruct (String.eqb (nth i l1 "") (nth i l2 "")); cbn [negb].
      + run_print. run (IH (S i) w1 ltac:(lia) ltac:(lia)). done_with.
      + do 2 run_print. run (IH (S i) w2 ltac:(lia) ltac:(lia)). done_with.
    - destruct (Nat.leb_spec (length l1) i); [lia|].
      destruct (Nat.leb_spec (length l2) i); [|lia].
      run_print. run (IH (S i) w1 ltac:(lia) ltac:(lia)).
      rewrite (skipn_all2 l2 (n := i)) by lia.
      rewrite (skipn_all2 l2) in St0 by lia.
      rewrite cmdUnifiedBody_nil_r in St0.
      rewrite (skipn_nth "" l1 i) by lia.
      cbn [cmdUnifiedBody]. rewrite signed_cons. done_with.
    - destruct (Nat.leb_spec (length l1) i); [|lia].
      run_print. run (IH (S i) w1 ltac:(lia) ltac:(lia)).
      rewrite (skipn_all2 l1 (n := i)) by lia.
      rewrite (skipn_all2 l1) in St0 by lia.
      rewrite (skipn_nth "" l2 i) by lia.
      cbn [cmdUnifiedBody] in *. rewrite signed_cons. done_with.
    - rewrite (skipn_all2 l1), (skipn_all2 l2) by lia. unfold ret. done_with. }
  do 2 run_print.
  run (L (S (length l1 + length l2)) 0 w1 ltac:(lia) ltac:(lia)).
  done_with.
Qed.

(** The run of command.go on two readable files. *)
Lemma Executor_readable (p : command) (f1 f2 : string) (rest : list string)
  (A B : list string) (w : World) :
  Positional p = f1 :: f2 :: rest ->
  files w f1 = Opens (mkReader A None) ->
  files w f2 = Opens (mkReader B None) ->
  CommandGo.Executor p w =
  (if CommandGo.areIdentical A B (IgnoreCase (Flags p)) (IgnoreWhitespace (Flags p))
   then ret None
   else if Brief (Flags p) then
     Fprint Stdout ("Files " ++ f1 ++ " and " ++ f2 ++ " differ" ++ nl) ;;
     ret None
   else
     (if Unified (Flags p) then
        CommandGo.outputUnifiedDiff Stdout f1 f2 A B (UnifiedContext (Flags p))
      else if ContextDiff (Flags p) then
        CommandGo.outputContextDiff Stdout f1 f2 A B (ContextLines (Flags p))
      else CommandGo.outputNormalDiff Stdout A B) ;;
     ret None) w.
Proof.
  intros P H1 H2. unfold CommandGo.Executor. rewrite P.
  cbn [length Nat.ltb Nat.leb nth].
  unfold bind at 1, CommandGo.readFileLines at 1. rewrite H1. cbn.
  unfold bind at 1, CommandGo.readFileLines at 1. rewrite H2. cbn.
  reflexivity.
Qed.

(** ** White space and case *)

Lemma Fields_space (c : ascii) (s : string) :
  isSpace c = true -> Fields (String c s) = Fields s.
Proof. intros H. cbn [Fields]. now rewrite H. Qed.

Lemma startsField_app (s t : string) :
  startsField t = false -> startsField (s ++ t) = startsField s.
Proof. destruct s; simpl; auto. Qed.

Lemma Fields_snoc_space (c : ascii) (s : string) :
  isSpace c = true -> Fields (s ++ String c "") = Fields s.
Proof.
  intros H. induction s as [|a s IH].
  - simpl. now rewrite H.
  - cbn [append Fields]. rewrite IH.
    rewrite (startsField_app s (String c "")) by (simpl; now rewrite H).
    reflexivity.
Qed.

Lemma Fields_run (s1 : string) (c d : ascii) (s2 : string) :
  isSpace c = true -> isSpace d = true ->
  Fields (s1 ++ String c (String d s2)) = Fields (s1 ++ String d s2)
  /\ Fields (s1 ++ String c (String d s2)) = Fields (s1 ++ String c s2).
Proof.
  intros Hc Hd. induction s1 as [|a s1 [IH1 IH2]].
  - cbn [append]. now rewrite !Fields_space.
  - cbn [append Fields].
    split; [rewrite IH1 | rewrite IH2];
      rewrite !(startsField_app s1) by (simpl; now rewrite ?Hc, ?Hd);
      reflexivity.
Qed.

Lemma wsStep_Fields (s t : string) : wsStep s t -> Fields s = Fields t.
Proof.
  intros [c s' H | c s' H | s1 c d s2 Hc Hd | s1 c d s2 Hc Hd].
  - now apply Fields_space.
  - now apply Fields_snoc_space.
  - now apply Fields_run.
  - now apply Fields_run.
Qed.

Lemma ToLower_app (s t : string) : ToLower (s ++ t) = ToLower s ++ ToLower t.
Proof. induction s as [|a s IH]; simpl; [reflexivity | now rewrite IH]. Qed.

Lemma toLowerByte_space (c : ascii) : isSpace c = true -> toLowerByte c = c.
Proof.
  unfold isSpace, toLowerByte. cbv zeta. intros H.
  destruct (Nat.leb_spec 65 (nat_of_ascii c)) as [L|L]; [|reflexivity].
  destruct (Nat.leb_spec (nat_of_ascii c) 90) as [U|U]; [|reflexivity].
  exfalso.
  destruct (Nat.leb_spec 9 (nat_of_ascii c)), (Nat.leb_spec (nat_of_ascii c) 13),
    (Nat.eqb_spec (nat_of_ascii c) 32); simpl in H; try discriminate H; lia.
Qed.

Lemma wsStep_ToLower (s t : string) :
  wsStep s t -> wsStep (ToLower s) (ToLower t).
Proof.
  intros [c s' H | c s' H | s1 c d s2 Hc Hd | s1 c d s2 Hc Hd];
    rewrite ?ToLower_app; cbn [ToLower];
    rewrite ?(toLowerByte_space c), ?(toLowerByte_space d) by assumption.
  - now apply ws_leading.
  - now apply ws_trailing.
  - now apply ws_run_l.
  - now apply ws_run_r.
Qed.

Lemma caseStep_ToLower (s t : string) : caseStep s t -> ToLower s = ToLower t.
Proof.
  intros [s1 c d s2 H]. rewrite !ToLower_app. cbn [ToLower]. now rewrite H.
Qed.

(** White space collapsing, as diff.go does it, identifies lines that differ
    only in white space runs. *)
Lemma collapse_sameUpToSpace (s t : string) :
  sameUpToSpace s t -> collapse s = collapse t.
Proof.
  unfold collapse. intros H. f_equal.
  induction H as [s t H | s | s t H IH | s t u H1 IH1 H2 IH2].
  - now apply wsStep_Fields.
  - reflexivity.
  - now symmetry.
  - now transitivity (Fields t).
Qed.

(** Case folding followed by collapsing identifies lines that differ only in
    white space runs and letter case. *)
Lemma collapse_ToLower_same (s t : string) :
  sameUpToSpaceAndCase s t -> collapse (ToLower s) = collapse (ToLower t).
Proof.
  intros H.
  induction H as [s t [H|H] | s | s t H IH | s t u H1 IH1 H2 IH2].
  - apply collapse_sameUpToSpace. apply rst_step. now apply wsStep_ToLower.
  - now rewrite (caseStep_ToLower s t H).
  - reflexivity.
  - now symmetry.
  - now transitivity (collapse (ToLower t)).
Qed.

Lemma sameUpToSpace_incl (s t : string) :
  sameUpToSpace s t -> sameUpToSpaceAndCase s t.
Proof.
  intros H. induction H as [s t H | s | s t H IH | s t u H1 IH1 H2 IH2].
  - apply rst_step. now left.
  - apply rst_refl.
  - now apply rst_sym.
  - now apply rst_trans with t.
Qed.

(** diff.go does what C4 asks: under ignoreWhitespace, sequences whose lines
    differ only in white space runs have the same normal form, whether or not
    ignoreCase is set; with both flags the lines may differ in case too. *)
Lemma normalized_ignores_space (f : flags) (A B : list string) :
  IgnoreWhitespace f = true ->
  Forall2 sameUpToSpace A B -> normalized f A = normalized f B.
Proof.
  intros Hw H. unfold normalized. rewrite Hw.
  induction H as [|a b A B Hab HAB IH]; [now destruct (IgnoreCase f)|].
  destruct (IgnoreCase f); cbn [map] in *.
  - rewrite (collapse_ToLower_same a b) by (now apply sameUpToSpace_incl).
    now rewrite IH.
  - rewrite (collapse_sameUpToSpace a b Hab). now rewrite IH.
Qed.

Lemma normalized_ignores_space_and_case (f : flags) (A B : list string) :
  IgnoreWhitespace f = true -> IgnoreCase f = true ->
  Forall2 sameUpToSpaceAndCase A B -> normalized f A = normalized f B.
Proof.
  intros Hw Hc H. unfold normalized. rewrite Hw, Hc.
  induction H as [|a b A B Hab HAB IH]; [reflexivity|].
  cbn [map]. rewrite (collapse_ToLower_same a b Hab). now rewrite IH.
Qed.

Lemma trimRight_snoc (c : ascii) (s : string) :
  isSpace c = true -> trimRight (s ++ String c "") = trimRight s.
Proof.
  intros H. induction s as [|a s IH].
  - simpl. now rewrite H.
  - cbn [append trimRight]. now rewrite IH.
Qed.

(** command.go's [TrimSpace] covers the two ends of a line only. *)
Lemma TrimSpace_ends (c : ascii) (s : string) :
  isSpace c = true ->
  TrimSpace (String c s) = TrimSpace s
  /\ TrimSpace (s ++ String c "") = TrimSpace s.
Proof.
  intros H. unfold TrimSpace. split.
  - cbn [trimLeft]. now rewrite H.
  - induction s as [|a s IH].
    + simpl. now rewrite H.
    + cbn [append trimLeft]. destruct (isSpace a); [exact IH|].
      apply (trimRight_snoc c (String a s) H).
Qed.

(** [linesEqual] of diff.go gives up on its first poll when the context is
    cancelled. *)
Lemma linesEqual_cancelled (l : string) (rest lines2 : list string) (w : World)
  (ctx : Context) :
  cancelled ctx (polls w) = true ->
  fst (DiffGo.linesEqual ctx (l :: rest) lines2 w) = false.
Proof.
  intros H. unfold DiffGo.linesEqual.
  destruct (negb (length (l :: rest) =? length lines2)%nat); [reflexivity|].
  cbn [DiffGo.linesEqualLoop]. unfold bind, checkEvery.
  change ((0 mod 1000 =? 0)%nat) with true. cbv iota.
  unfold CheckContextCancellation. now rewrite H.
Qed.

(** * The claims *)

Lemma pointwiseEqual_eq (A B : list string) : pointwiseEqual A B <-> A = B.
Proof.
  split.
  - intros [Hl Hn]. apply (nth_ext A B "" "" Hl Hn).
  - intros ->. split; auto.
Qed.

(** C1 fails as stated. [areIdentical] of command.go normalises inside the
    check: with ignoreCase it accepts [A] against [a], which are not equal
    lines. *)
Lemma C1_counterexample :
  ~ (CommandGo.areIdentical ["A"] ["a"] true false = true
     <-> pointwiseEqual ["A"] ["a"]).
Proof.
  intros [H _]. specialize (H eq_refl). apply pointwiseEqual_eq in H.
  discriminate H.
Qed.

(** C1, amended. Under a context that is not cancelled, [linesEqual] of
    diff.go returns true iff the two sequences have the same length and
    equal lines at every index; it does not normalise and writes nothing.
    [areIdentical] of command.go normalises inside the check: for given
    flags it applies one transformation, line by line, to both operands
    alike, and returns true iff the sequences have the same length and equal
    transformed lines at every index. With ignoreWhitespace off the
    transformation is ToLower under ignoreCase and nothing otherwise, so
    with both flags off the check is equality of the lines as given. What
    the transformation does to white space is not part of this statement. *)
Theorem C1_equality_check :
  forall (ctx : Context) (A B : list string) (w : World) (ic iw : bool),
  quiet ctx ->
  (fst (DiffGo.linesEqual ctx A B w) = true <-> pointwiseEqual A B)
  /\ steps w (snd (DiffGo.linesEqual ctx A B w)) ""
  /\ (exists norm : string -> string,
        (iw = false -> forall l, norm l = if ic then ToLower l else l)
        /\ forall A' B',
             CommandGo.areIdentical A' B' ic iw = true
             <-> pointwiseEqual (map norm A') (map norm B'))
  /\ (CommandGo.areIdentical A B false false = true <-> pointwiseEqual A B).
Proof.
  intros ctx A B w ic iw Q.
  destruct (linesEqual_quiet ctx Q A B w) as (w' & E & St).
  rewrite E. cbn [fst snd].
  assert (R : forall l1 l2, lines_eqb l1 l2 = true <-> pointwiseEqual l1 l2).
  { intros l1 l2. rewrite lines_eqb_true. symmetry. apply pointwiseEqual_eq. }
  split; [apply R|]. split; [exact St|]. split.
  - exists (compared ic iw). split.
    + intros ->. reflexivity.
    + intros A' B'. rewrite areIdentical_spec. apply R.
  - rewrite areIdentical_spec. unfold compared. cbn [map].
    rewrite !map_id. apply R.
Qed.

Lemma C1_equality_check_witness :
  quiet background
  /\ (fst (DiffGo.linesEqual background ["a"; "b"] ["a"; "c"] (world0 noFile)) = true
      <-> pointwiseEqual ["a"; "b"] ["a"; "c"])
  /\ (CommandGo.areIdentical ["A"] ["a"] false false = true
      <-> pointwiseEqual ["A"] ["a"]).
Proof.
  split; [reflexivity|].
  pose proof (C1_equality_check background ["a"; "b"] ["a"; "c"]
                (world0 noFile) true true eq_refl) as (H1 & _).
  pose proof (C1_equality_check background ["A"] ["a"]
                (world0 noFile) true true eq_refl) as (_ & _ & _ & H2).
  split; [exact H1 | exact H2].
Defined.

Lemma normalScript_suffix (A T : list string) :
  forall i j, normalScript i j A (A ++ T)
              = appendCommands (i + length A) (j + length A) T.
Proof.
  induction A as [|x A IH]; intros i j; cbn [normalScript app length].
  - now rewrite !Nat.add_0_r.
  - rewrite String.eqb_refl, IH. cbn [append].
    now replace (S i + length A)%nat with (i + S (length A))%nat by lia;
      replace (S j + length A)%nat with (j + S (length A))%nat by lia.
Qed.

Lemma cmdNormalScript_suffix (n1 n2 : nat) (A T : list string) :
  forall i, cmdNormalScript n1 n2 i A (A ++ T)
            = appendCommands n1 (i + length A) T.
Proof.
  induction A as [|x A IH]; intros i; cbn [cmdNormalScript app length].
  - now rewrite Nat.add_0_r.
  - rewrite String.eqb_refl, IH. cbn [append].
    now replace (S i + length A)%nat with (i + S (length A))%nat by lia.
Qed.

Lemma normalized_app (f : flags) (A T : list string) :
  normalized f (A ++ T) = (normalized f A ++ normalized f T)%list.
Proof.
  unfold normalized.
  destruct (IgnoreCase f), (IgnoreWhitespace f); now rewrite ?map_app.
Qed.

Lemma normalized_length (f : flags) (A : list string) :
  length (normalized f A) = length A.
Proof.
  unfold normalized.
  destruct (IgnoreCase f), (IgnoreWhitespace f); now rewrite ?length_map.
Qed.

(** C2. Comparing a sequence against itself: no output, no diagnostic, a nil
    error. In diff.go under a context that is not cancelled, for two inputs
    (files or the standard input) that both yield [A]; in command.go for two
    files that hold [A]. *)
Theorem C2_same_content_no_output :
  (forall (c : command) (ctx : Context) (f1 f2 : string) (A : list string)
          (w : World),
     quiet ctx ->
     Positional c = [f1; f2] ->
     source w f1 = Opens (mkReader A None) ->
     source (drained w f1) f2 = Opens (mkReader A None) ->
     run (DiffGo.Execute c ctx) w = (None, stdout w, stderr w))
  /\
  (forall (p : command) (f1 f2 : string) (rest A : list string) (w : World),
     Positional p = f1 :: f2 :: rest ->
     files w f1 = Opens (mkReader A None) ->
     files w f2 = Opens (mkReader A None) ->
     run (CommandGo.Executor p) w = (None, stdout w, stderr w)).
Proof.
  split.
  - intros c ctx f1 f2 A w Q P H1 H2.
    destruct (Execute_quiet ctx Q c f1 f2 A A w P H1 H2) as (w' & E & R & O).
    unfold run. rewrite E. cbn [fst snd].
    rewrite lines_eqb_refl, append_nil_r in O. now rewrite O, R.
  - intros p f1 f2 rest A w P H1 H2.
    unfold run. rewrite (Executor_readable p f1 f2 rest A A w P H1 H2).
    rewrite areIdentical_spec, lines_eqb_refl. reflexivity.
Qed.

Lemma C2_same_content_no_output_witness :
  run (DiffGo.Execute (Diff [PString "A.txt"; PString "B.txt"]) background)
    (world0 (twoFiles "A.txt" ["a"; "b"] "B.txt" ["a"; "b"])) = (None, "", "")
  /\
  run (CommandGo.Executor (Diff [PString "A.txt"; PString "A.txt"]))
    (world0 (twoFiles "A.txt" ["a"; "b"] "B.txt" ["x"])) = (None, "", "").
Proof.
  split.
  - apply (proj1 C2_same_content_no_output _ background "A.txt" "B.txt" ["a"; "b"]);
      reflexivity.
  - apply (proj2 C2_same_content_no_output _ "A.txt" "A.txt" [] ["a"; "b"]);
      reflexivity.
Defined.

(** C3. In normal mode, comparing [A] against [A ++ T] prints the append
    commands for the lines of [T] after line [len(A)] and nothing else: no
    change block for any line of [A]. In diff.go the lines shown are those
    of [T] under the normalisation flags, [T] itself when none is set. *)
Theorem C3_suffix_is_pure_append :
  (forall (c : command) (ctx : Context) (f1 f2 : string) (A T : list string)
          (w : World),
     quiet ctx ->
     Positional c = [f1; f2] ->
     source w f1 = Opens (mkReader A None) ->
     source (drained w f1) f2 = Opens (mkReader (A ++ T)%list None) ->
     Brief (Flags c) = false -> Unified (Flags c) = false ->
     (UnifiedContext (Flags c) <= 0)%Z -> SideBySide (Flags c) = false ->
     run (DiffGo.Execute c ctx) w
     = (None,
        stdout w ++ appendCommands (length A) (length A) (normalized (Flags c) T),
        stderr w))
  /\
  (forall (p : command) (f1 f2 : string) (rest A T : list string) (w : World),
     Positional p = f1 :: f2 :: rest ->
     files w f1 = Opens (mkReader A None) ->
     files w f2 = Opens (mkReader (A ++ T)%list None) ->
     Brief (Flags p) = false -> Unified (Flags p) = false ->
     ContextDiff (Flags p) = false ->
     run (CommandGo.Executor p) w
     = (None, stdout w ++ appendCommands (length A) (length A) T, stderr w)).
Proof.
  split.
  - intros c ctx f1 f2 A T w Q P H1 H2 HB HU HC HS.
    destruct (Execute_quiet ctx Q c f1 f2 A (A ++ T) w P H1 H2)
      as (w' & E & R & O).
    unfold run. rewrite E. cbn [fst snd]. rewrite R, O. do 2 f_equal.
    rewrite HB. unfold diffOutput. rewrite HU, HS.
    replace (0 <? UnifiedContext (Flags c))%Z with false
      by (symmetry; apply Z.ltb_ge; exact HC).
    cbn [orb]. rewrite normalized_app, normalScript_suffix.
    rewrite normalized_length. cbn [Nat.add].
    destruct (lines_eqb (normalized (Flags c) A)
                (normalized (Flags c) A ++ normalized (Flags c) T)) eqn:Eq;
      [|reflexivity].
    apply lines_eqb_true in Eq.
    rewrite <- (app_nil_r (normalized (Flags c) A)) in Eq at 1.
    apply app_inv_head in Eq. rewrite <- Eq. reflexivity.
  - intros p f1 f2 rest A T w P H1 H2 HB HU HC.
    unfold run. rewrite (Executor_readable p f1 f2 rest A (A ++ T) w P H1 H2).
    rewrite HB, HU, HC.
    destruct (CommandGo.areIdentical A (A ++ T) (IgnoreCase (Flags p))
                (IgnoreWhitespace (Flags p))) eqn:Eq.
    + rewrite areIdentical_spec in Eq. apply lines_eqb_true in Eq.
      apply (f_equal (@length string)) in Eq.
      rewrite !length_map, length_app in Eq.
      destruct T; [|simpl in Eq; lia].
      cbn. now rewrite append_nil_r.
    + destruct (outputNormalDiff_steps A (A ++ T) w) as (w' & E & St).
      unfold bind. rewrite E. unfold ret. cbn [fst snd].
      rewrite cmdNormalScript_suffix in St. cbn [Nat.add] in St.
      destruct St as (_ & _ & O & R). now rewrite O, R.
Qed.

Lemma C3_suffix_is_pure_append_witness :
  run (DiffGo.Execute (Diff [PString "A.txt"; PString "B.txt"]) background)
    (world0 (twoFiles "A.txt" ["a"; "b"] "B.txt" ["a"; "b"; "c"]))
  = (None, "2a3" ++ nl ++ "> c" ++ nl, "")
  /\
  run (CommandGo.Executor (Diff [PString "A.txt"; PString "B.txt"]))
    (world0 (twoFiles "A.txt" ["a"; "b"] "B.txt" ["a"; "b"; "c"]))
  = (None, "2a3" ++ nl ++ "> c" ++ nl, "").
Proof.
  split.
  - exact (proj1 C3_suffix_is_pure_append
             (Diff [PString "A.txt"; PString "B.txt"]) background
             "A.txt" "B.txt" ["a"; "b"] ["c"]
             (world0 (twoFiles "A.txt" ["a"; "b"] "B.txt" ["a"; "b"; "c"]))
             eq_refl eq_refl eq_refl eq_refl eq_refl eq_refl (Z.le_refl 0)
             eq_refl).
  - exact (proj2 C3_suffix_is_pure_append
             (Diff [PString "A.txt"; PString "B.txt"])
             "A.txt" "B.txt" [] ["a"; "b"] ["c"]
             (world0 (twoFiles "A.txt" ["a"; "b"] "B.txt" ["a"; "b"; "c"]))
             eq_refl eq_refl eq_refl eq_refl eq_refl eq_refl).
Defined.

(** C5. In brief mode, two inputs whose compared sequences differ produce
    exactly the line [Files <A> and <B> differ], naming the two operands as
    given, and a nil error; nothing is rendered. In diff.go the compared
    sequences are the normalised ones and the context is not cancelled; in
    command.go the comparison is [areIdentical]. *)
Theorem C5_brief_one_line :
  (forall (c : command) (ctx : Context) (f1 f2 : string) (A B : list string)
          (w : World),
     quiet ctx ->
     Positional c = [f1; f2] ->
     source w f1 = Opens (mkReader A None) ->
     source (drained w f1) f2 = Opens (mkReader B None) ->
     Brief (Flags c) = true ->
     normalized (Flags c) A <> normalized (Flags c) B ->
     run (DiffGo.Execute c ctx) w
     = (None,
        stdout w ++ "Files " ++ f1 ++ " and " ++ f2 ++ " differ" ++ nl,
        stderr w))
  /\
  (forall (p : command) (f1 f2 : string) (rest A B : list string) (w : World),
     Positional p = f1 :: f2 :: rest ->
     files w f1 = Opens (mkReader A None) ->
     files w f2 = Opens (mkReader B None) ->
     Brief (Flags p) = true ->
     CommandGo.areIdentical A B (IgnoreCase (Flags p))
       (IgnoreWhitespace (Flags p)) = false ->
     run (CommandGo.Executor p) w
     = (None,
        stdout w ++ "Files " ++ f1 ++ " and " ++ f2 ++ " differ" ++ nl,
        stderr w)).
Proof.
  split.
  - intros c ctx f1 f2 A B w Q P H1 H2 HB HD.
    destruct (Execute_quiet ctx Q c f1 f2 A B w P H1 H2) as (w' & E & R & O).
    unfold run. rewrite E. cbn [fst snd]. rewrite R, O, HB.
    apply lines_eqb_false in HD. rewrite HD. reflexivity.
  - intros p f1 f2 rest A B w P H1 H2 HB HD.
    unfold run. rewrite (Executor_readable p f1 f2 rest A B w P H1 H2).
    rewrite HD, HB. reflexivity.
Qed.

Lemma C5_brief_one_line_witness :
  run (DiffGo.Execute
         (Diff [PString "A.txt"; PString "B.txt"; POption (OBriefFlag true)])
         background) abc_axc
  = (None, "Files A.txt and B.txt differ" ++ nl, "")
  /\
  run (CommandGo.Executor
         (Diff [PString "A.txt"; PString "B.txt"; POption (OBriefFlag true)]))
    abc_axc
  = (None, "Files A.txt and B.txt differ" ++ nl, "").
Proof.
  split.
  - refine (proj1 C5_brief_one_line
              (Diff [PString "A.txt"; PString "B.txt"; POption (OBriefFlag true)])
              background "A.txt" "B.txt" ["a"; "b"; "c"] ["a"; "x"; "c"] abc_axc
              eq_refl eq_refl eq_refl eq_refl eq_refl _).
    discriminate.
  - exact (proj2 C5_brief_one_line
             (Diff [PString "A.txt"; PString "B.txt"; POption (OBriefFlag true)])
             "A.txt" "B.txt" [] ["a"; "b"; "c"] ["a"; "x"; "c"] abc_axc
             eq_refl eq_refl eq_refl eq_refl eq_refl).
Defined.

(** C6 fails as stated: with fewer than two operands diff.go writes
    [diff: need exactly 2 files], not [diff: missing operand]. *)
Lemma C6_counterexample :
  ~ (fst (DiffGo.Execute (Diff [PString "A.txt"]) background (world0 noFile))
       <> None
     /\ String.prefix "diff: missing operand"
          (stderr (snd (DiffGo.Execute (Diff [PString "A.txt"]) background
                          (world0 noFile)))) = true).
Proof. intros [_ H]. vm_compute in H. discriminate H. Qed.

(** C6, amended. With fewer than two operands both commands fail with a
    non-nil error and leave the standard output alone. command.go writes
    [diff: missing operand after '<operands>'], the operands joined by a
    space. diff.go, once its first poll finds the context not cancelled,
    writes [diff: need exactly 2 files]. *)
Theorem C6_missing_operand :
  (forall (c : command) (ctx : Context) (w : World),
     (length (Positional c) < 2)%nat ->
     fst (DiffGo.Execute c ctx w) <> None
     /\ stdout (snd (DiffGo.Execute c ctx w)) = stdout w
     /\ (cancelled ctx (polls w) = false ->
         run (DiffGo.Execute c ctx) w
         = (Some "need exactly 2 files", stdout w,
            stderr w ++ "diff: need exactly 2 files" ++ nl)))
  /\
  (forall (p : command) (w : World),
     (length (Positional p) < 2)%nat ->
     run (CommandGo.Executor p) w
     = (Some "diff requires two files to compare", stdout w,
        stderr w ++ "diff: missing operand after '"
        ++ Join (Positional p) " " ++ "'" ++ nl)).
Proof.
  split.
  - intros c ctx w Hlen. unfold run, DiffGo.Execute.
    replace (length (Positional c) =? 2)%nat with false
      by (symmetry; apply Nat.eqb_neq; lia).
    unfold bind, CheckContextCancellation, DiffGo.orReturn, ret.
    destruct (cancelled ctx (polls w)); cbn.
    + split; [discriminate|]. split; [reflexivity|]. intros H; discriminate H.
    + split; [discriminate|]. split; [reflexivity|]. intros _. reflexivity.
  - intros p w Hlen. unfold run, CommandGo.Executor.
    replace (length (Positional p) <? 2)%nat with true
      by (symmetry; apply Nat.ltb_lt; lia).
    reflexivity.
Qed.

Lemma C6_missing_operand_witness :
  run (DiffGo.Execute (Diff [PString "A.txt"]) background) (world0 noFile)
  = (Some "need exactly 2 files", "", "diff: need exactly 2 files" ++ nl)
  /\
  run (CommandGo.Executor (Diff [PString "A.txt"])) (world0 noFile)
  = (Some "diff requires two files to compare", "",
     "diff: missing operand after 'A.txt'" ++ nl).
Proof.
  split.
  - refine (proj2 (proj2 (proj1 C6_missing_operand (Diff [PString "A.txt"])
                            background (world0 noFile) _)) eq_refl).
    simpl. lia.
  - refine (proj2 C6_missing_operand (Diff [PString "A.txt"])
              (world0 noFile) _).
    simpl. lia.
Defined.

(** C7 fails as stated. For [a b c] against [a x c] in unified mode with
    the default width 3, diff.go prints the changed pair in a hunk of its own
    with no context line, and command.go prints every line with no hunk
    marker; for [a b] against [x y] diff.go prints two hunks, one per line,
    and does not merge them. *)
Lemma C7_counterexample :
  let out1 := stdout (snd (DiffGo.Execute (Diff unifiedParams) background abc_axc)) in
  let out2 := stdout (snd (CommandGo.Executor (Diff unifiedParams) abc_axc)) in
  let out3 := stdout (snd (DiffGo.Execute (Diff unifiedParams) background ab_xy)) in
  UnifiedContext (Flags (Diff unifiedParams)) = 3%Z
  /\ out1 = "--- A.txt" ++ nl ++ "+++ B.txt" ++ nl ++ "@@ -2,1 +2,1 @@" ++ nl
            ++ "-b" ++ nl ++ "+x" ++ nl
  /\ hasLineWithPrefix " " out1 = false
  /\ out1 <> unifiedClaimed_abc_axc
  /\ out2 = "--- A.txt" ++ nl ++ "+++ B.txt" ++ nl ++ " a" ++ nl
            ++ "-b" ++ nl ++ "+x" ++ nl ++ " c" ++ nl
  /\ hasLineWithPrefix "@@" out2 = false
  /\ out2 <> unifiedClaimed_abc_axc
  /\ out3 = "--- A.txt" ++ nl ++ "+++ B.txt" ++ nl
            ++ "@@ -1,1 +1,1 @@" ++ nl ++ "-a" ++ nl ++ "+x" ++ nl
            ++ "@@ -2,1 +2,1 @@" ++ nl ++ "-b" ++ nl ++ "+y" ++ nl.
Proof.
  cbv zeta.
  repeat match goal with
         | |- _ /\ _ => split
         | |- _ = _ => vm_compute; reflexivity
         | |- _ <> _ => vm_compute; discriminate
         end.
Qed.

(** C7, amended. For two inputs that differ, in unified mode and outside
    brief mode, the output is the header [--- <A>], [+++ <B>] followed, in
    diff.go, by one hunk [@@ -i,1 +i,1 @@], [-old], [+new] for every position
    where the lines differ and one hunk for the surplus lines of the longer
    sequence, and in command.go by every position in order, equal lines with
    a leading space, differing ones as [-old], [+new], surplus lines with
    their sign. No context window is computed, hunks are not merged, and the
    width has no effect. *)
Theorem C7_unified_output :
  (forall (c : command) (ctx : Context) (f1 f2 : string) (A B : list string)
          (w : World),
     quiet ctx ->
     Positional c = [f1; f2] ->
     source w f1 = Opens (mkReader A None) ->
     source (drained w f1) f2 = Opens (mkReader B None) ->
     Unified (Flags c) = true -> Brief (Flags c) = false ->
     normalized (Flags c) A <> normalized (Flags c) B ->
     run (DiffGo.Execute c ctx) w
     = (None,
        stdout w ++ unifiedHeader f1 f2
        ++ unifiedHunks 0 0 (normalized (Flags c) A) (normalized (Flags c) B),
        stderr w))
  /\
  (forall (p : command) (f1 f2 : string) (rest A B : list string) (w : World),
     Positional p = f1 :: f2 :: rest ->
     files w f1 = Opens (mkReader A None) ->
     files w f2 = Opens (mkReader B None) ->
     Unified (Flags p) = true -> Brief (Flags p) = false ->
     CommandGo.areIdentical A B (IgnoreCase (Flags p))
       (IgnoreWhitespace (Flags p)) = false ->
     run (CommandGo.Executor p) w
     = (None, stdout w ++ unifiedHeader f1 f2 ++ cmdUnifiedBody A B, stderr w)).
Proof.
  split.
  - intros c ctx f1 f2 A B w Q P H1 H2 HU HB HD.
    destruct (Execute_quiet ctx Q c f1 f2 A B w P H1 H2) as (w' & E & R & O).
    unfold run. rewrite E. cbn [fst snd]. rewrite R, O, HB.
    apply lines_eqb_false in HD. rewrite HD.
    unfold diffOutput. rewrite HU. reflexivity.
  - intros p f1 f2 rest A B w P H1 H2 HU HB HD.
    unfold run. rewrite (Executor_readable p f1 f2 rest A B w P H1 H2).
    rewrite HD, HB, HU.
    destruct (outputUnifiedDiff_steps f1 f2 A B (UnifiedContext (Flags p)) w)
      as (w' & E & St).
    unfold bind. rewrite E. unfold ret. cbn [fst snd].
    destruct St as (_ & _ & O & R). now rewrite O, R.
Qed.

Lemma C7_unified_output_witness :
  run (DiffGo.Execute (Diff unifiedParams) background) abc_axc
  = (None,
     "--- A.txt" ++ nl ++ "+++ B.txt" ++ nl ++ "@@ -2,1 +2,1 @@" ++ nl
     ++ "-b" ++ nl ++ "+x" ++ nl, "")
  /\
  run (CommandGo.Executor (Diff unifiedParams)) abc_axc
  = (None,
     "--- A.txt" ++ nl ++ "+++ B.txt" ++ nl ++ " a" ++ nl
     ++ "-b" ++ nl ++ "+x" ++ nl ++ " c" ++ nl, "").
Proof.
  split.
  - refine (proj1 C7_unified_output (Diff unifiedParams) background
              "A.txt" "B.txt" ["a"; "b"; "c"] ["a"; "x"; "c"] abc_axc
              eq_refl eq_refl eq_refl eq_refl eq_refl eq_refl _).
    discriminate.
  - exact (proj2 C7_unified_output (Diff unifiedParams)
             "A.txt" "B.txt" [] ["a"; "b"; "c"] ["a"; "x"; "c"] abc_axc
             eq_refl eq_refl eq_refl eq_refl eq_refl eq_refl).
Defined.

Lemma Args_from_UnifiedContext (parameters : list parameter) :
  forall c, explicitUnifiedWidth parameters = false ->
  UnifiedContext (Flags (Args_from c parameters)) = UnifiedContext (Flags c).
Proof.
  induction parameters as [|p ps IH]; intros c H; [reflexivity|].
  destruct p as [s|o]; cbn [Args_from explicitUnifiedWidth existsb] in *.
  - now rewrite IH.
  - apply Bool.orb_false_elim in H. destruct H as [Ho Hps].
    rewrite IH by exact Hps. destruct o; try reflexivity. discriminate Ho.
Qed.

Lemma Args_from_ContextLines (parameters : list parameter) :
  forall c, explicitContextWidth parameters = false ->
  ContextLines (Flags (Args_from c parameters)) = ContextLines (Flags c).
Proof.
  induction parameters as [|p ps IH]; intros c H; [reflexivity|].
  destruct p as [s|o]; cbn [Args_from explicitContextWidth existsb] in *.
  - now rewrite IH.
  - apply Bool.orb_false_elim in H. destruct H as [Ho Hps].
    rewrite IH by exact Hps. destruct o; try reflexivity. discriminate Ho.
Qed.

(** C8. When the parameters select unified mode (context mode) and hold no
    explicit width, the command [Diff] returns has width 3 there. *)
Theorem C8_default_width :
  forall parameters : list parameter,
  (Unified (Flags (Diff parameters)) = true ->
   explicitUnifiedWidth parameters = false ->
   UnifiedContext (Flags (Diff parameters)) = 3%Z)
  /\
  (ContextDiff (Flags (Diff parameters)) = true ->
   explicitContextWidth parameters = false ->
   ContextLines (Flags (Diff parameters)) = 3%Z).
Proof.
  intros parameters. unfold Diff. cbv zeta.
  pose proof (Args_from_UnifiedContext parameters (mkCommand [] zeroFlags)) as HU.
  pose proof (Args_from_ContextLines parameters (mkCommand [] zeroFlags)) as HC.
  fold (Args parameters) in HU, HC. cbn [Flags zeroFlags UnifiedContext ContextLines] in HU, HC.
  destruct (Flags (Args parameters)) as [cl uc u cd b ic iw sbs r].
  cbn [UnifiedContext ContextLines Unified ContextDiff] in *.
  split; intros Hsel Hexp.
  - rewrite HU in * by exact Hexp. destruct u; cbn in *.
    + destruct ((cl =? 0)%Z && cd); reflexivity.
    + destruct ((cl =? 0)%Z && cd); discriminate Hsel.
  - rewrite HC in * by exact Hexp.
    destruct ((uc =? 0)%Z && u); cbn in *.
    + destruct cd; cbn in *; [reflexivity | discriminate Hsel].
    + destruct cd; cbn in *; [reflexivity | discriminate Hsel].
Qed.

Lemma C8_default_width_witness :
  UnifiedContext (Flags (Diff unifiedParams)) = 3%Z
  /\ ContextLines
       (Flags (Diff [POption (OContextFlag true); PString "A.txt";
                     POption (OUnifiedContext 5)])) = 3%Z.
Proof.
  split.
  - exact (proj1 (C8_default_width unifiedParams) eq_refl eq_refl).
  - exact (proj2 (C8_default_width
                    [POption (OContextFlag true); PString "A.txt";
                     POption (OUnifiedContext 5)]) eq_refl eq_refl).
Defined.

(** C9. diff.go renders the normalised sequences: for two inputs whose
    normalised sequences differ, outside brief mode, the output is the one
    the selected format gives for the normalised sequences, so every line
    shown is a normalised line. *)
Theorem C9_renders_normalized :
  forall (c : command) (ctx : Context) (f1 f2 : string) (A B : list string)
         (w : World),
  quiet ctx ->
  Positional c = [f1; f2] ->
  source w f1 = Opens (mkReader A None) ->
  source (drained w f1) f2 = Opens (mkReader B None) ->
  Brief (Flags c) = false ->
  normalized (Flags c) A <> normalized (Flags c) B ->
  run (DiffGo.Execute c ctx) w
  = (None,
     stdout w ++ diffOutput (Flags c) (normalized (Flags c) A)
                   (normalized (Flags c) B) f1 f2,
     stderr w).
Proof.
  intros c ctx f1 f2 A B w Q P H1 H2 HB HD.
  destruct (Execute_quiet ctx Q c f1 f2 A B w P H1 H2) as (w' & E & R & O).
  unfold run. rewrite E. cbn [fst snd]. rewrite R, O, HB.
  apply lines_eqb_false in HD. now rewrite HD.
Qed.

Lemma C9_renders_normalized_witness :
  run (DiffGo.Execute (Diff ignoreBothParams) background) hello
  = (None,
     "1c1" ++ nl ++ "< hello world" ++ nl ++ "---" ++ nl
     ++ "> hello there" ++ nl, "").
Proof.
  refine (C9_renders_normalized (Diff ignoreBothParams) background
            "A.txt" "B.txt" ["Hello  World"] ["hello there"] hello
            eq_refl eq_refl eq_refl eq_refl eq_refl _).
  vm_compute. discriminate.
Defined.

(** C10. In diff.go a positive UnifiedContext selects the unified renderer
    although the Unified flag is false: [generateDiff] is then
    [generateUnifiedDiff], and two inputs that differ, outside brief mode,
    are reported in unified format. *)
Theorem C10_width_selects_unified :
  forall (c : command) (ctx : Context),
  Unified (Flags c) = false ->
  (0 < UnifiedContext (Flags c))%Z ->
  (forall (l1 l2 : list string) (f1 f2 : string) (out : Writer),
     DiffGo.generateDiff c ctx l1 l2 f1 f2 out
     = DiffGo.generateUnifiedDiff c ctx l1 l2 f1 f2 out)
  /\
  (forall (f1 f2 : string) (A B : list string) (w : World),
     quiet ctx ->
     Positional c = [f1; f2] ->
     source w f1 = Opens (mkReader A None) ->
     source (drained w f1) f2 = Opens (mkReader B None) ->
     Brief (Flags c) = false ->
     normalized (Flags c) A <> normalized (Flags c) B ->
     run (DiffGo.Execute c ctx) w
     = (None,
        stdout w ++ unifiedHeader f1 f2
        ++ unifiedHunks 0 0 (normalized (Flags c) A) (normalized (Flags c) B),
        stderr w)).
Proof.
  intros c ctx HU HC.
  assert (HW : (0 <? UnifiedContext (Flags c))%Z = true) by (now apply Z.ltb_lt).
  split.
  - intros l1 l2 f1 f2 out. unfold DiffGo.generateDiff.
    now rewrite HU, HW.
  - intros f1 f2 A B w Q P H1 H2 HB HD.
    destruct (Execute_quiet ctx Q c f1 f2 A B w P H1 H2) as (w' & E & R & O).
    unfold run. rewrite E. cbn [fst snd]. rewrite R, O, HB.
    apply lines_eqb_false in HD. rewrite HD.
    unfold diffOutput. now rewrite HU, HW.
Qed.

Lemma C10_width_selects_unified_witness :
  Unified (Flags (Diff widthOnlyParams)) = false
  /\ run (DiffGo.Execute (Diff widthOnlyParams) background) abc_axc
     = (None,
        "--- A.txt" ++ nl ++ "+++ B.txt" ++ nl ++ "@@ -2,1 +2,1 @@" ++ nl
        ++ "-b" ++ nl ++ "+x" ++ nl, "").
Proof.
  split; [reflexivity|].
  refine (proj2 (C10_width_selects_unified (Diff widthOnlyParams) background
                   eq_refl eq_refl)
            "A.txt" "B.txt" ["a"; "b"; "c"] ["a"; "x"; "c"] abc_axc
            eq_refl eq_refl eq_refl eq_refl eq_refl _).
  discriminate.
Defined.

(** C4 at the failing input. The lines [a  b] and [a b] differ only in the
    length of an interior run of spaces. With ignoreWhitespace set,
    command.go, which only trims the ends of a line, finds them different and
    reports a change; diff.go on the same files finds them equal. *)
Theorem C4_interior_space_in_command_go :
  sameUpToSpace "a  b" "a b"
  /\ CommandGo.areIdentical ["a  b"] ["a b"] false true = false
  /\ run (CommandGo.Executor (Diff ignoreSpaceParams)) spaced
     = (None,
        "1c1" ++ nl ++ "< a  b" ++ nl ++ "---" ++ nl ++ "> a b" ++ nl, "")
  /\ run (DiffGo.Execute (Diff ignoreSpaceParams) background) spaced
     = (None, "", "").
Proof.
  split.
  - apply rst_step. exact (ws_run_l "a" " " " " "b" eq_refl eq_refl).
  - repeat split; vm_compute; reflexivity.
Qed.

(** * Further properties *)

(** ** diff.go under any context *)

Lemma cancelled_mono (ctx : Context) (p q : nat) :
  cancelled ctx p = true -> (p <= q)%nat -> cancelled ctx q = true.
Proof.
  unfold cancelled. destruct (cancelledAt ctx) as [n|]; [|discriminate].
  intros H L. apply Nat.leb_le in H. apply Nat.leb_le. lia.
Qed.

Lemma check_cases (ctx : Context) (w : World) :
  exists r w', CheckContextCancellation ctx w = (r, w')
    /\ steps w w' "" /\ polls w' = S (polls w)
    /\ (r = None \/ (r = Some (ctxErr ctx) /\ cancelled ctx (polls w) = true)).
Proof.
  unfold CheckContextCancellation.
  destruct (cancelled ctx (polls w)) eqn:C; do 2 eexists;
    (split; [reflexivity|]);
    (split; [unfold steps; simpl; now rewrite append_nil_r|]);
    (split; [reflexivity|]); auto.
Qed.

Lemma checkEvery_cases (k : nat) (ctx : Context) (n : nat) (w : World) :
  exists r w', checkEvery k ctx n w = (r, w')
    /\ steps w w' "" /\ (polls w <= polls w')%nat
    /\ (r = None \/ (r = Some (ctxErr ctx) /\ cancelled ctx (polls w) = true
                     /\ (n mod k = 0)%nat)).
Proof.
  unfold checkEvery. destruct (Nat.eqb_spec (n mod k) 0) as [E|NE].
  - destruct (check_cases ctx w) as (r & w' & E' & St & P & [R|[R C]]);
      exists r, w'; (split; [exact E'|]); (split; [exact St|]);
      (split; [lia|]); [left | right]; auto.
  - exists None, w. split; [reflexivity|]. split; [apply steps_refl|].
    split; [lia | now left].
Qed.

Lemma linesEqualLoop_sound (ctx : Context) (lines2 rest : list string) :
  forall i w, (length rest + i = length lines2)%nat ->
  steps w (snd (DiffGo.linesEqualLoop ctx lines2 i rest w)) ""
  /\ (fst (DiffGo.linesEqualLoop ctx lines2 i rest w) = true ->
      rest = skipn i lines2).
Proof.
  induction rest as [|x rest IH]; intros i w Hlen; simpl in *.
  - split; [apply steps_refl|]. intros _. rewrite skipn_all2 by lia. reflexivity.
  - unfold bind.
    destruct (checkEvery_cases 1000 ctx i w) as (r & w1 & E & St & _ & [->|[-> _]]);
      rewrite E.
    + destruct (String.eqb_spec x (nth i lines2 "")) as [Hx|Hx]; simpl.
      * destruct (IH (S i) w1 ltac:(lia)) as [St' Hs]. split.
        -- exact (steps_trans _ _ _ _ _ St St').
        -- intros H. rewrite (skipn_nth "" lines2 i) by lia.
           rewrite <- Hx. f_equal. now apply Hs.
      * split; [exact St | discriminate].
    + split; [exact St | discriminate].
Qed.

(** X1. Under every context, cancelled or not, [linesEqual] writes nothing
    and answers true only for equal sequences: cancellation can turn its
    answer to false, never to true. *)
Theorem X1_linesEqual_sound :
  forall (ctx : Context) (lines1 lines2 : list string) (w : World),
  steps w (snd (DiffGo.linesEqual ctx lines1 lines2 w)) ""
  /\ (fst (DiffGo.linesEqual ctx lines1 lines2 w) = true -> lines1 = lines2).
Proof.
  intros ctx lines1 lines2 w. unfold DiffGo.linesEqual.
  destruct (Nat.eqb_spec (length lines1) (length lines2)) as [E|NE]; simpl.
  - destruct (linesEqualLoop_sound ctx lines2 lines1 0 w ltac:(lia)) as [St H].
    split; [exact St | exact H].
  - split; [apply steps_refl | discriminate].
Qed.

(** X2. Once the context is cancelled, [linesEqual] answers true exactly
    when both sequences are empty: equal sequences with at least one line
    are reported as different. *)
Theorem X2_linesEqual_cancelled :
  forall (ctx : Context) (lines1 lines2 : list string) (w : World),
  cancelled ctx (polls w) = true ->
  (fst (DiffGo.linesEqual ctx lines1 lines2 w) = true
   <-> lines1 = [] /\ lines2 = []).
Proof.
  intros ctx lines1 lines2 w C. split.
  - destruct lines1 as [|l rest].
    + intros H. apply X1_linesEqual_sound in H. now subst.
    + rewrite (linesEqual_cancelled l rest lines2 w ctx C). discriminate.
  - intros [-> ->]. reflexivity.
Qed.

Lemma X2_linesEqual_cancelled_witness :
  (fst (DiffGo.linesEqual cancelledAtStart ["a"] ["a"] (world0 noFile)) = true
   <-> ["a"] = [] /\ ["a"] = @nil string)
  /\ fst (DiffGo.linesEqual cancelledAtStart ["a"] ["a"] (world0 noFile)) = false.
Proof.
  split; [|reflexivity].
  exact (X2_linesEqual_cancelled cancelledAtStart ["a"] ["a"] (world0 noFile)
           eq_refl).
Defined.

Lemma normalizeLoop_prefix (f : string -> string) (ctx : Context)
  (lines : list string) :
  forall i done w,
  exists k,
    fst (DiffGo.normalizeLoop f ctx i done lines w)
    = (done ++ map f (firstn k lines))%list
    /\ (k <= length lines)%nat
    /\ (k < length lines -> ((i + k) mod 1000 = 0)%nat)
    /\ steps w (snd (DiffGo.normalizeLoop f ctx i done lines w)) "".
Proof.
  induction lines as [|l lines IH]; intros i done w; simpl.
  - exists 0%nat. rewrite app_nil_r.
    split; [reflexivity|]. split; [lia|]. split; [lia | apply steps_refl].
  - unfold bind.
    destruct (checkEvery_cases 1000 ctx i w)
      as (r & w1 & E & St & _ & [->|(-> & _ & M)]); rewrite E.
    + destruct (IH (S i) (done ++ [f l])%list w1) as (k & Hk & Hle & Hm & St').
      exists (S k). rewrite Hk, <- app_assoc. simpl.
      split; [reflexivity|]. split; [lia|]. split.
      * intros Hlt. replace (i + S k)%nat with (S i + k)%nat by lia.
        apply Hm. lia.
      * exact (steps_trans _ _ _ _ _ St St').
    + exists 0%nat. simpl. rewrite app_nil_r, Nat.add_0_r.
      split; [reflexivity|]. split; [lia|]. split; [intros _; exact M | exact St].
Qed.

(** X3. Under every context the two normalizers return the normal forms of
    a prefix of their input, in order, and write nothing; the prefix is the
    whole input or stops at a multiple of 1000 lines, and it is the whole
    input when the context is not cancelled. *)
Theorem X3_normalizers_prefix :
  forall (ctx : Context) (lines : list string) (w : World),
  (exists k,
     fst (DiffGo.normalizeCase ctx lines w) = map ToLower (firstn k lines)
     /\ (k = length lines \/ (k < length lines /\ k mod 1000 = 0))%nat
     /\ steps w (snd (DiffGo.normalizeCase ctx lines w)) "")
  /\
  (exists k,
     fst (DiffGo.normalizeWhitespace ctx lines w) = map collapse (firstn k lines)
     /\ (k = length lines \/ (k < length lines /\ k mod 1000 = 0))%nat
     /\ steps w (snd (DiffGo.normalizeWhitespace ctx lines w)) "")
  /\
  (quiet ctx ->
   fst (DiffGo.normalizeCase ctx lines w) = map ToLower lines
   /\ fst (DiffGo.normalizeWhitespace ctx lines w) = map collapse lines).
Proof.
  intros ctx lines w.
  unfold DiffGo.normalizeCase, DiffGo.normalizeWhitespace.
  assert (P : forall f, exists k,
    fst (DiffGo.normalizeLoop f ctx 0 [] lines w) = map f (firstn k lines)
    /\ (k = length lines \/ (k < length lines /\ k mod 1000 = 0))%nat
    /\ steps w (snd (DiffGo.normalizeLoop f ctx 0 [] lines w)) "").
  { intros f.
    destruct (normalizeLoop_prefix f ctx lines 0 [] w) as (k & Hk & Hle & Hm & St).
    exists k. split; [exact Hk|]. split; [|exact St].
    destruct (Nat.eq_dec k (length lines)) as [->|NE]; [now left|].
    right. split; [lia|]. apply Hm. lia. }
  split; [apply P|]. split; [apply (P (fun line => Join (Fields line) " "))|].
  intros Q.
  destruct (normalizeLoop_quiet ctx Q ToLower lines 0 [] w) as (w1 & E1 & _).
  destruct (normalizeLoop_quiet ctx Q (fun line => Join (Fields line) " ")
              lines 0 [] w) as (w2 & E2 & _).
  rewrite E1, E2. split; reflexivity.
Qed.

Lemma X3_normalizers_prefix_witness :
  fst (DiffGo.normalizeCase background ["Ab"; "C"] (world0 noFile)) = ["ab"; "c"]
  /\ fst (DiffGo.normalizeWhitespace background [" a  b "; "c"] (world0 noFile))
     = ["a b"; "c"].
Proof.
  split.
  - exact (proj1 (proj2 (proj2 (X3_normalizers_prefix background ["Ab"; "C"]
                                  (world0 noFile))) eq_refl)).
  - exact (proj2 (proj2 (proj2 (X3_normalizers_prefix background
                                  [" a  b "; "c"] (world0 noFile))) eq_refl)).
Defined.

Lemma X1_linesEqual_sound_witness :
  fst (DiffGo.linesEqual cancelledLate ["a"; "b"] ["a"; "b"] (world0 noFile)) = true
  /\ ["a"; "b"] = ["a"; "b"].
Proof.
  split; [reflexivity|].
  exact (proj2 (X1_linesEqual_sound cancelledLate ["a"; "b"] ["a"; "b"]
                  (world0 noFile)) eq_refl).
Defined.

Lemma scanLoop_prefix (ctx : Context) (input : list string) :
  forall lines w,
  exists k,
    fst (fst (DiffGo.scanLoop ctx input lines w)) = (lines ++ firstn k input)%list
    /\ snd (fst (DiffGo.scanLoop ctx input lines w)) = skipn k input
    /\ steps w (snd (DiffGo.scanLoop ctx input lines w)) ""
    /\ (polls w <= polls (snd (DiffGo.scanLoop ctx input lines w)))%nat
    /\ (k < length input ->
        cancelled ctx (polls (snd (DiffGo.scanLoop ctx input lines w))) = true).
Proof.
  induction input as [|l input IH]; intros lines w; simpl; unfold bind;
    destruct (check_cases ctx w) as (r & w1 & E & St & P & [->|[-> C]]);
    rewrite E; cbn [ret fst snd].
  - exists 0%nat. rewrite app_nil_r. unfold ret. cbn [fst snd].
    split; [reflexivity|]. split; [reflexivity|]. split; [exact St|].
    split; [lia | simpl; lia].
  - exists 0%nat. rewrite app_nil_r. unfold ret. cbn [fst snd].
    split; [reflexivity|]. split; [reflexivity|]. split; [exact St|].
    split; [lia | simpl; lia].
  - destruct (IH (lines ++ [l])%list w1) as (k & H1 & H2 & St' & P' & C').
    exists (S k). rewrite H1, H2, <- app_assoc. simpl.
    split; [reflexivity|]. split; [reflexivity|].
    split; [exact (steps_trans _ _ _ _ _ St St')|].
    split; [lia|]. intros Hlt. apply C'. lia.
  - exists 0%nat. rewrite app_nil_r. unfold ret. cbn [fst snd].
    split; [reflexivity|]. split; [reflexivity|]. split; [exact St|].
    split; [lia|]. intros _. apply (cancelled_mono ctx (polls w)); [exact C | lia].
Qed.

(** X4. What [readFile] of diff.go returns under every context. An input
    that cannot be opened gives no lines and the open error, with no poll.
    Otherwise the lines returned are a prefix of the input, in order, and
    nothing is written; when the error is nil the lines are the whole input
    and the scanner ended without error. *)
Theorem X4_readFile_prefix :
  forall (ctx : Context) (name : string) (w : World),
  (forall e, source w name = OpenFails e ->
     DiffGo.readFile ctx name w = (([], Some e), w))
  /\
  (forall r, source w name = Opens r ->
     let res := DiffGo.readFile ctx name w in
     (exists k, fst (fst res) = firstn k (pending r))
     /\ (snd (fst res) = None -> fst (fst res) = pending r /\ scanErr r = None)
     /\ stdout (snd res) = stdout w /\ stderr (snd res) = stderr w).
Proof.
  intros ctx name w. unfold source, DiffGo.readFile. split.
  - intros e H. destruct (String.eqb name "-"); [discriminate H|].
    now rewrite H.
  - intros r H. cbv zeta.
    assert (G : forall (k1 : list string * list string -> M unit),
      (forall r0 w0, k1 r0 w0 = (tt, w0) \/ exists rd, k1 r0 w0 = setStdin rd w0) ->
      let res :=
        (r0 <- DiffGo.scanLoop ctx (pending r) [] ;;
         k1 r0 ;;
         err <- CheckContextCancellation ctx ;;
         match err with
         | Some e => ret (fst r0, Some e)
         | None => ret (fst r0, scanErr r)
         end) w in
      (exists k, fst (fst res) = firstn k (pending r))
      /\ (snd (fst res) = None -> fst (fst res) = pending r /\ scanErr r = None)
      /\ stdout (snd res) = stdout w /\ stderr (snd res) = stderr w).
    { intros k1 Hk1. cbv zeta. unfold bind.
      destruct (scanLoop_prefix ctx (pending r) [] w)
        as (k & H1 & H2 & St & P & C).
      destruct (DiffGo.scanLoop ctx (pending r) [] w) as [[ls rest] w1].
      cbn [fst snd] in *.
      assert (K : exists w2, k1 (ls, rest) w1 = (tt, w2) /\ polls w2 = polls w1
                /\ stdout w2 = stdout w1 /\ stderr w2 = stderr w1).
      { destruct (Hk1 (ls, rest) w1) as [->|[rd ->]]; eexists;
          (split; [reflexivity|]); simpl; auto. }
      destruct K as (w2 & -> & P2 & O2 & R2).
      destruct (check_cases ctx w2) as (e & w3 & E & St3 & _ & D). rewrite E.
      destruct St as (_ & _ & O1 & R1), St3 as (_ & _ & O3 & R3).
      rewrite append_nil_r in O1, O3.
      assert (OUT : stdout w3 = stdout w /\ stderr w3 = stderr w)
        by (split; congruence).
      destruct D as [->|[-> Cc]]; unfold ret; cbn [fst snd].
      - split; [exists k; exact H1|]. split; [|exact OUT].
        intros Hnone. split; [|exact Hnone].
        destruct (Nat.lt_ge_cases k (length (pending r))) as [Lt|Ge].
        + specialize (C Lt). rewrite <- P2 in C.
          unfold CheckContextCancellation in E. rewrite C in E. discriminate E.
        + rewrite H1. now rewrite firstn_all2 by lia.
      - split; [exists k; exact H1|]. split; [discriminate | exact OUT]. }
    destruct (String.eqb name "-").
    + injection H as <-.
      apply (G (fun r0 => setStdin (mkReader (snd r0) (scanErr (stdin w))))).
      intros r0 w0. right. eexists. reflexivity.
    + rewrite H. apply (G (fun _ => ret tt)). intros r0 w0. now left.
Qed.

Lemma X4_readFile_prefix_witness :
  DiffGo.readFile background "nonexistent.txt" abc_axc
  = (([], Some "no such file or directory"), abc_axc)
  /\ (snd (fst (DiffGo.readFile background "A.txt" abc_axc)) = None ->
      fst (fst (DiffGo.readFile background "A.txt" abc_axc)) = ["a"; "b"; "c"]
      /\ @None string = None).
Proof.
  split.
  - exact (proj1 (X4_readFile_prefix background "nonexistent.txt" abc_axc)
             "no such file or directory" eq_refl).
  - exact (proj1 (proj2 (proj2 (X4_readFile_prefix background "A.txt" abc_axc)
                           (mkReader ["a"; "b"; "c"] None) eq_refl))).
Defined.

(** ** command.go: context format, failures, exit status *)

Lemma cmdContextBody_nil_r (l1 : list string) :
  cmdContextBody l1 [] = signed "- " l1.
Proof. destruct l1; reflexivity. Qed.

Lemma outputContextDiff_steps (f1 f2 : string) (l1 l2 : list string)
  (context : Z) (w : World) :
  exists w', CommandGo.outputContextDiff Stdout f1 f2 l1 l2 context w = (tt, w')
             /\ steps w w' (contextHeader f1 f2 ++ cmdContextBody l1 l2).
Proof.
  unfold CommandGo.outputContextDiff, contextHeader.
  match goal with |- context [forLoop _ ?c ?b 0] =>
    set (body := b); set (cond := c) end.
  assert (L : forall fuel i w,
    (i <= Nat.max (length l1) (length l2))%nat ->
    (Nat.max (length l1) (length l2) - i < fuel)%nat ->
    exists w',
      forLoop fuel cond body i w = (tt, w')
      /\ steps w w' (cmdContextBody (skipn i l1) (skipn i l2))).
  { induction fuel as [|fuel IH]; intros i w0 Hi Hf; [lia|].
    cbn [forLoop]. unfold cond at 1.
    destruct (Nat.ltb_spec i (length l1)) as [Li|Li];
      destruct (Nat.ltb_spec i (length l2)) as [Lj|Lj]; cbn [orb];
      try (unfold body at 1; cbv beta).
    - destruct (Nat.leb_spec (length l1) i); [lia|].
      destruct (Nat.leb_spec (length l2) i); [lia|].
      rewrite (skipn_nth "" l1 i), (skipn_nth "" l2 i) by lia.
      cbn [cmdContextBody].
      destruct (String.eqb (nth i l1 "") (nth i l2 "")); cbn [negb].
      + run_print. run (IH (S i) w1 ltac:(lia) ltac:(lia)). done_with.
      + do 2 run_print. run (IH (S i) w2 ltac:(lia) ltac:(lia)). done_with.
    - destruct (Nat.leb_spec (length l1) i); [lia|].
      destruct (Nat.leb_spec (length l2) i); [|lia].
      run_print. run (IH (S i) w1 ltac:(lia) ltac:(lia)).
      rewrite (skipn_all2 l2 (n := i)) by lia.
      rewrite (skipn_all2 l2) in St0 by lia.
      rewrite cmdContextBody_nil_r in St0.
      rewrite (skipn_nth "" l1 i) by lia.
      cbn [cmdContextBody]. rewrite signed_cons. done_with.
    - destruct (Nat.leb_spec (length l1) i); [|lia].
      run_print. run (IH (S i) w1 ltac:(lia) ltac:(lia)).
      rewrite (skipn_all2 l1 (n := i)) by lia.
      rewrite (skipn_all2 l1) in St0 by lia.
      rewrite (skipn_nth "" l2 i) by lia.
      cbn [cmdContextBody] in *. rewrite signed_cons. done_with.
    - rewrite (skipn_all2 l1), (skipn_all2 l2) by lia. unfold ret. done_with. }
  do 2 run_print.
  run (L (S (length l1 + length l2)) 0 w1 ltac:(lia) ltac:(lia)).
  done_with.
Qed.

Lemma Executor_output (p : command) (f1 f2 : string) (rest A B : list string)
  (w : World) :
  Positional p = f1 :: f2 :: rest ->
  files w f1 = Opens (mkReader A None) ->
  files w f2 = Opens (mkReader B None) ->
  run (CommandGo.Executor p) w
  = (None,
     stdout w ++
       (if CommandGo.areIdentical A B (IgnoreCase (Flags p))
             (IgnoreWhitespace (Flags p)) then ""
        else if Brief (Flags p)
             then "Files " ++ f1 ++ " and " ++ f2 ++ " differ" ++ nl
        else if Unified (Flags p) then unifiedHeader f1 f2 ++ cmdUnifiedBody A B
        else if ContextDiff (Flags p)
             then contextHeader f1 f2 ++ cmdContextBody A B
        else cmdNormalScript (length A) (length B) 0 A B),
     stderr w).
Proof.
  intros P H1 H2. unfold run.
  rewrite (Executor_readable p f1 f2 rest A B w P H1 H2).
  assert (G : forall (m : M unit) out,
    (exists w', m w = (tt, w') /\ steps w w' out) ->
    (fst ((m ;; ret (@None string)) w),
     stdout (snd ((m ;; ret (@None string)) w)),
     stderr (snd ((m ;; ret (@None string)) w)))
    = (@None string, stdout w ++ out, stderr w)).
  { intros m out (w' & E & (F & I & O & R)). unfold bind. rewrite E.
    unfold ret. cbn [fst snd]. now rewrite O, R. }
  destruct (CommandGo.areIdentical A B (IgnoreCase (Flags p))
              (IgnoreWhitespace (Flags p))).
  - unfold ret. cbn [fst snd]. now rewrite append_nil_r.
  - destruct (Brief (Flags p)); [reflexivity|].
    destruct (Unified (Flags p)); [|destruct (ContextDiff (Flags p))]; apply G.
    + apply outputUnifiedDiff_steps.
    + apply outputContextDiff_steps.
    + apply outputNormalDiff_steps.
Qed.

Lemma fileErr_None (w : World) (name : string) :
  fileErr w name = None ->
  exists lines, files w name = Opens (mkReader lines None).
Proof.
  unfold fileErr. destruct (files w name) as [e|[ls se]]; [discriminate|].
  simpl. intros ->. now exists ls.
Qed.

(** X5. command.go in context format: for two files it does not find
    identical, with ContextDiff set and neither Unified nor Brief, the output
    is the header [*** <A>], [--- <B>] followed by every position in order:
    equal lines after two spaces, differing ones as [! old], [! new], surplus
    lines as [- old] or [+ new]. *)
Theorem X5_context_output :
  forall (p : command) (f1 f2 : string) (rest A B : list string) (w : World),
  Positional p = f1 :: f2 :: rest ->
  files w f1 = Opens (mkReader A None) ->
  files w f2 = Opens (mkReader B None) ->
  ContextDiff (Flags p) = true -> Unified (Flags p) = false ->
  Brief (Flags p) = false ->
  CommandGo.areIdentical A B (IgnoreCase (Flags p)) (IgnoreWhitespace (Flags p))
  = false ->
  run (CommandGo.Executor p) w
  = (None, stdout w ++ contextHeader f1 f2 ++ cmdContextBody A B, stderr w).
Proof.
  intros p f1 f2 rest A B w P H1 H2 HC HU HB HD.
  rewrite (Executor_output p f1 f2 rest A B w P H1 H2).
  now rewrite HD, HB, HU, HC.
Qed.

Lemma X5_context_output_witness :
  run (CommandGo.Executor (Diff contextParams)) abc_axc
  = (None,
     "*** A.txt" ++ nl ++ "--- B.txt" ++ nl ++ "  a" ++ nl ++ "! b" ++ nl
     ++ "! x" ++ nl ++ "  c" ++ nl, "").
Proof.
  exact (X5_context_output (Diff contextParams) "A.txt" "B.txt" []
           ["a"; "b"; "c"] ["a"; "x"; "c"] abc_axc
           eq_refl eq_refl eq_refl eq_refl eq_refl eq_refl eq_refl).
Defined.

Lemma Executor_first_fails (p : command) (f1 f2 : string) (rest : list string)
  (e : string) (w : World) :
  Positional p = f1 :: f2 :: rest ->
  fileErr w f1 = Some e ->
  run (CommandGo.Executor p) w
  = (Some e, stdout w, stderr w ++ diagnostic f1 e).
Proof.
  intros P H. unfold run, CommandGo.Executor. rewrite P.
  cbn [length Nat.ltb Nat.leb nth]. unfold bind, CommandGo.readFileLines.
  unfold fileErr in H.
  destruct (files w f1) as [e'|[ls se]]; simpl in H.
  - injection H as ->. reflexivity.
  - rewrite H. reflexivity.
Qed.

Lemma Executor_second_fails (p : command) (f1 f2 : string) (rest : list string)
  (e : string) (w : World) :
  Positional p = f1 :: f2 :: rest ->
  fileErr w f1 = None -> fileErr w f2 = Some e ->
  run (CommandGo.Executor p) w
  = (Some e, stdout w, stderr w ++ diagnostic f2 e).
Proof.
  intros P H1 H. unfold run, CommandGo.Executor. rewrite P.
  cbn [length Nat.ltb Nat.leb nth]. unfold bind, CommandGo.readFileLines.
  apply fileErr_None in H1. destruct H1 as (A & ->). cbn.
  unfold fileErr in H.
  destruct (files w f2) as [e'|[ls se]]; simpl in H.
  - injection H as ->. reflexivity.
  - rewrite H. reflexivity.
Qed.

(** X6. command.go on an input it cannot read (the file does not open, or
    its scan ends in an error): the error is returned, the diagnostic
    [diff: <path>: <error>] names the first operand that fails, and nothing
    is written to the standard output; the second operand is not looked at
    when the first fails. *)
Theorem X6_command_unreadable :
  forall (p : command) (f1 f2 : string) (rest : list string) (e : string)
         (w : World),
  Positional p = f1 :: f2 :: rest ->
  (fileErr w f1 = Some e ->
   run (CommandGo.Executor p) w
   = (Some e, stdout w, stderr w ++ diagnostic f1 e))
  /\
  (fileErr w f1 = None -> fileErr w f2 = Some e ->
   run (CommandGo.Executor p) w
   = (Some e, stdout w, stderr w ++ diagnostic f2 e)).
Proof.
  intros p f1 f2 rest e w P. split.
  - intros H. exact (Executor_first_fails p f1 f2 rest e w P H).
  - intros H1 H2. exact (Executor_second_fails p f1 f2 rest e w P H1 H2).
Qed.

Lemma X6_command_unreadable_witness :
  run (CommandGo.Executor (Diff [PString "A.txt"; PString "nonexistent.txt"]))
    abc_axc
  = (Some "no such file or directory", "",
     "diff: nonexistent.txt: no such file or directory" ++ nl).
Proof.
  exact (proj2 (X6_command_unreadable
                  (Diff [PString "A.txt"; PString "nonexistent.txt"])
                  "A.txt" "nonexistent.txt" [] "no such file or directory"
                  abc_axc eq_refl) eq_refl eq_refl).
Defined.

(** X7. The result of command.go. It returns a nil error exactly when at
    least two operands are given and the first two name readable files;
    differing files are not an error. A run that fails writes nothing to the
    standard output, and a run that succeeds writes no diagnostic. *)
Theorem X7_command_exit_status :
  forall (p : command) (w : World),
  let r := run (CommandGo.Executor p) w in
  (fst (fst r) = None
   <-> exists f1 f2 rest,
         Positional p = f1 :: f2 :: rest
         /\ fileErr w f1 = None /\ fileErr w f2 = None)
  /\ (fst (fst r) = None -> snd r = stderr w)
  /\ (fst (fst r) <> None -> snd (fst r) = stdout w).
Proof.
  intros p w. cbv zeta.
  destruct (Positional p) as [|f1 [|f2 rest]] eqn:P.
  - assert (E : run (CommandGo.Executor p) w
                = (Some "diff requires two files to compare", stdout w,
                   stderr w ++ "diff: missing operand after '"
                   ++ Join (Positional p) " " ++ "'" ++ nl)).
    { unfold run, CommandGo.Executor. rewrite P. reflexivity. }
    rewrite E. cbn [fst snd]. split; [|split; [discriminate | reflexivity]].
    split; [discriminate|]. intros (a & b & c & H & _). discriminate H.
  - assert (E : run (CommandGo.Executor p) w
                = (Some "diff requires two files to compare", stdout w,
                   stderr w ++ "diff: missing operand after '"
                   ++ Join (Positional p) " " ++ "'" ++ nl)).
    { unfold run, CommandGo.Executor. rewrite P. reflexivity. }
    rewrite E. cbn [fst snd]. split; [|split; [discriminate | reflexivity]].
    split; [discriminate|]. intros (a & b & c & H & _). discriminate H.
  - destruct (fileErr w f1) as [e1|] eqn:E1.
    + rewrite (Executor_first_fails p f1 f2 rest e1 w P E1). cbn [fst snd].
      split; [|split; [discriminate | reflexivity]].
      split; [discriminate|]. intros (a & b & c & H & Ha & _).
      injection H as <- <- <-. rewrite E1 in Ha. discriminate Ha.
    + destruct (fileErr w f2) as [e2|] eqn:E2.
      * rewrite (Executor_second_fails p f1 f2 rest e2 w P E1 E2). cbn [fst snd].
        split; [|split; [discriminate | reflexivity]].
        split; [discriminate|]. intros (a & b & c & H & _ & Hb).
        injection H as <- <- <-. rewrite E2 in Hb. discriminate Hb.
      * destruct (fileErr_None w f1 E1) as (A & HA).
        destruct (fileErr_None w f2 E2) as (B & HB).
        rewrite (Executor_output p f1 f2 rest A B w P HA HB). cbn [fst snd].
        split; [|split; [reflexivity | congruence]].
        split; [|reflexivity]. intros _. now exists f1, f2, rest.
Qed.

Lemma X7_command_exit_status_witness :
  fst (fst (run (CommandGo.Executor (Diff [PString "A.txt"; PString "B.txt"]))
              abc_axc)) = None
  /\ snd (run (CommandGo.Executor (Diff [PString "A.txt"; PString "B.txt"]))
            abc_axc) = "".
Proof.
  split; [reflexivity|].
  exact (proj1 (proj2 (X7_command_exit_status
                         (Diff [PString "A.txt"; PString "B.txt"]) abc_axc))
           eq_refl).
Defined.

(** ** diff.go: failures and exit status *)

Section QuietRun.

Variable ctx : Context.
Hypothesis Q : quiet ctx.

Lemma readFile_quiet_any (name : string) (w : World) :
  exists w', DiffGo.readFile ctx name w
             = ((sourceLines w name, sourceErr w name), w')
             /\ files w' = files w /\ stdin w' = stdin (drained w name)
             /\ stdout w' = stdout w /\ stderr w' = stderr w.
Proof.
  unfold sourceLines, sourceErr, source, drained, DiffGo.readFile.
  destruct (String.eqb name "-").
  - destruct (scanLoop_quiet ctx Q (pending (stdin w)) [] w) as (w1 & E1 & S1).
    unfold bind at 1. rewrite E1. cbv beta iota.
    unfold bind at 1, setStdin at 1. cbv beta iota.
    match goal with |- context [bind (CheckContextCancellation ctx) _ ?w2] =>
      destruct (check_quiet ctx w2 Q) as (w3 & E3 & S3) end.
    unfold bind at 1. rewrite E3. cbv beta iota. unfold ret.
    destruct S1 as (F1 & I1 & O1 & R1), S3 as (F3 & I3 & O3 & R3).
    simpl in *. rewrite append_nil_r in O1, O3.
    eexists; split; [reflexivity|]. simpl.
    repeat split; congruence.
  - destruct (files w name) as [e|r].
    + exists w. repeat split; reflexivity.
    + destruct (scanLoop_quiet ctx Q (pending r) [] w) as (w1 & E1 & S1).
      unfold bind at 1. rewrite E1. cbv beta iota.
      unfold bind at 1, ret at 1. cbv beta iota.
      destruct (check_quiet ctx w1 Q) as (w3 & E3 & S3).
      unfold bind at 1. rewrite E3. cbv beta iota. unfold ret.
      destruct S1 as (F1 & I1 & O1 & R1), S3 as (F3 & I3 & O3 & R3).
      rewrite append_nil_r in O1, O3.
      eexists; split; [reflexivity|]. simpl.
      repeat split; congruence.
Qed.

Lemma sourceErr_ext (w w' : World) (name : string) :
  files w' = files w -> stdin w' = stdin w ->
  sourceErr w' name = sourceErr w name.
Proof. intros F I. unfold sourceErr. now rewrite (source_ext w w' name F I). Qed.

Lemma Execute_first_fails (c : command) (f1 f2 e : string) (w : World) :
  Positional c = [f1; f2] ->
  sourceErr w f1 = Some e ->
  run (DiffGo.Execute c ctx) w = (Some e, stdout w, stderr w ++ diagnostic f1 e).
Proof.
  intros P H. unfold run.
  assert (G : exists w', DiffGo.Execute c ctx w = (Some e, w')
                /\ stdout w' = stdout w
                /\ stderr w' = stderr w ++ diagnostic f1 e).
  { unfold DiffGo.Execute.
    destruct (check_quiet ctx w Q) as (w0 & E0 & (F0 & I0 & O0 & R0)).
    unfold bind at 1. rewrite E0. cbv beta iota. cbn [DiffGo.orReturn].
    rewrite P. cbn [length Nat.eqb negb nth].
    destruct (readFile_quiet_any f1 w0) as (w1 & E1 & F1 & I1 & O1 & R1).
    unfold bind at 1. rewrite E1. cbv beta iota. cbn [fst snd].
    rewrite (sourceErr_ext w w0 f1 F0 I0), H.
    eexists. split; [reflexivity|]. simpl. rewrite append_nil_r in O0.
    split; [congruence|]. rewrite R1, R0. reflexivity. }
  destruct G as (w' & -> & O & R). cbn [fst snd]. now rewrite O, R.
Qed.

Lemma Execute_second_fails (c : command) (f1 f2 e : string) (w : World) :
  Positional c = [f1; f2] ->
  sourceErr w f1 = None ->
  sourceErr (drained w f1) f2 = Some e ->
  run (DiffGo.Execute c ctx) w = (Some e, stdout w, stderr w ++ diagnostic f2 e).
Proof.
  intros P H1 H2. unfold run.
  assert (G : exists w', DiffGo.Execute c ctx w = (Some e, w')
                /\ stdout w' = stdout w
                /\ stderr w' = stderr w ++ diagnostic f2 e).
  { unfold DiffGo.Execute.
    destruct (check_quiet ctx w Q) as (w0 & E0 & (F0 & I0 & O0 & R0)).
    unfold bind at 1. rewrite E0. cbv beta iota. cbn [DiffGo.orReturn].
    rewrite P. cbn [length Nat.eqb negb nth].
    destruct (readFile_quiet_any f1 w0) as (w1 & E1 & F1 & I1 & O1 & R1).
    unfold bind at 1. rewrite E1. cbv beta iota. cbn [fst snd].
    rewrite (sourceErr_ext w w0 f1 F0 I0), H1.
    destruct (check_quiet ctx w1 Q) as (w2 & E2 & (F2 & I2 & O2 & R2)).
    unfold bind at 1. rewrite E2. cbv beta iota. cbn [DiffGo.orReturn].
    destruct (readFile_quiet_any f2 w2) as (w3 & E3 & F3 & I3 & O3 & R3).
    unfold bind at 1. rewrite E3. cbv beta iota. cbn [fst snd].
    assert (S2 : sourceErr w2 f2 = sourceErr (drained w f1) f2).
    { apply sourceErr_ext.
      - rewrite files_drained. congruence.
      - rewrite I2, I1. unfold drained.
        destruct (String.eqb f1 "-"); simpl; now rewrite I0. }
    rewrite S2, H2.
    eexists. split; [reflexivity|]. simpl.
    rewrite append_nil_r in O0, O2.
    split; [congruence|]. rewrite R3, R2, R1, R0. reflexivity. }
  destruct G as (w' & -> & O & R). cbn [fst snd]. now rewrite O, R.
Qed.

Lemma sourceErr_None (w : World) (name : string) :
  sourceErr w name = None ->
  source w name = Opens (mkReader (sourceLines w name) None).
Proof.
  unfold sourceErr, sourceLines.
  destruct (source w name) as [e|[ls se]]; [discriminate|].
  simpl. now intros ->.
Qed.

Lemma Execute_output (c : command) (f1 f2 : string) (w : World) :
  Positional c = [f1; f2] ->
  sourceErr w f1 = None ->
  sourceErr (drained w f1) f2 = None ->
  exists out, run (DiffGo.Execute c ctx) w = (None, stdout w ++ out, stderr w).
Proof.
  intros P H1 H2.
  destruct (Execute_quiet ctx Q c f1 f2 _ _ w P (sourceErr_None _ _ H1)
              (sourceErr_None _ _ H2)) as (w' & E & R & O).
  eexists. unfold run. rewrite E. cbn [fst snd]. rewrite R, O. reflexivity.
Qed.

End QuietRun.

(** X8. diff.go on an input it cannot read (it does not open, or its scan
    ends in an error), under a context that is not cancelled: the error is
    returned, the diagnostic [diff: <name>: <error>] names the first operand
    that fails and nothing is written to the standard output. *)
Theorem X8_diffgo_unreadable :
  forall (c : command) (ctx : Context) (f1 f2 e : string) (w : World),
  quiet ctx ->
  Positional c = [f1; f2] ->
  (sourceErr w f1 = Some e ->
   run (DiffGo.Execute c ctx) w
   = (Some e, stdout w, stderr w ++ diagnostic f1 e))
  /\
  (sourceErr w f1 = None -> sourceErr (drained w f1) f2 = Some e ->
   run (DiffGo.Execute c ctx) w
   = (Some e, stdout w, stderr w ++ diagnostic f2 e)).
Proof.
  intros c ctx f1 f2 e w Q P. split.
  - intros H. exact (Execute_first_fails ctx Q c f1 f2 e w P H).
  - intros H1 H2. exact (Execute_second_fails ctx Q c f1 f2 e w P H1 H2).
Qed.

Lemma X8_diffgo_unreadable_witness :
  run (DiffGo.Execute (Diff [PString "nonexistent.txt"; PString "A.txt"])
         background) abc_axc
  = (Some "no such file or directory", "",
     "diff: nonexistent.txt: no such file or directory" ++ nl).
Proof.
  exact (proj1 (X8_diffgo_unreadable
                  (Diff [PString "nonexistent.txt"; PString "A.txt"]) background
                  "nonexistent.txt" "A.txt" "no such file or directory"
                  abc_axc eq_refl eq_refl) eq_refl).
Defined.

(** X9. The result of diff.go under a context that is not cancelled. It
    returns a nil error exactly when there are exactly two operands and both
    inputs are readable, the second as the first read leaves it; differing
    inputs are not an error. A run that fails writes nothing to the standard
    output, and a run that succeeds writes no diagnostic. *)
Theorem X9_diffgo_exit_status :
  forall (c : command) (ctx : Context) (w : World),
  quiet ctx ->
  let r := run (DiffGo.Execute c ctx) w in
  (fst (fst r) = None
   <-> exists f1 f2,
         Positional c = [f1; f2]
         /\ sourceErr w f1 = None /\ sourceErr (drained w f1) f2 = None)
  /\ (fst (fst r) = None -> snd r = stderr w)
  /\ (fst (fst r) <> None -> snd (fst r) = stdout w).
Proof.
  intros c ctx w Q. cbv zeta.
  assert (Bad : (length (Positional c) =? 2)%nat = false ->
    run (DiffGo.Execute c ctx) w
    = (Some "need exactly 2 files", stdout w,
       stderr w ++ "diff: need exactly 2 files" ++ nl)).
  { intros Hl. unfold run, DiffGo.Execute. rewrite Hl.
    unfold bind, CheckContextCancellation, cancelled. rewrite Q. reflexivity. }
  destruct (Positional c) as [|f1 [|f2 [|f3 rest]]] eqn:P;
    try (rewrite (Bad eq_refl); cbn [fst snd];
         split; [|split; [discriminate | reflexivity]];
         split; [discriminate|]; intros (a & b & H & _); discriminate H).
  clear Bad.
  destruct (sourceErr w f1) as [e1|] eqn:E1.
  - rewrite (Execute_first_fails ctx Q c f1 f2 e1 w P E1). cbn [fst snd].
    split; [|split; [discriminate | reflexivity]].
    split; [discriminate|]. intros (a & b & H & Ha & _).
    injection H as <- <-. rewrite E1 in Ha. discriminate Ha.
  - destruct (sourceErr (drained w f1) f2) as [e2|] eqn:E2.
    + rewrite (Execute_second_fails ctx Q c f1 f2 e2 w P E1 E2). cbn [fst snd].
      split; [|split; [discriminate | reflexivity]].
      split; [discriminate|]. intros (a & b & H & _ & Hb).
      injection H as <- <-. rewrite E2 in Hb. discriminate Hb.
    + destruct (Execute_output ctx Q c f1 f2 w P E1 E2) as (out & ->).
      cbn [fst snd]. split; [|split; [reflexivity | congruence]].
      split; [|reflexivity]. intros _. now exists f1, f2.
Qed.

Lemma X9_diffgo_exit_status_witness :
  quiet background
  /\ fst (fst (run (DiffGo.Execute (Diff [PString "A.txt"; PString "B.txt"])
                     background) abc_axc)) = None
  /\ snd (run (DiffGo.Execute (Diff [PString "A.txt"; PString "B.txt"])
                 background) abc_axc) = "".
Proof.
  split; [reflexivity|]. split; [reflexivity|].
  exact (proj1 (proj2 (X9_diffgo_exit_status
                         (Diff [PString "A.txt"; PString "B.txt"]) background
                         abc_axc eq_refl)) eq_refl).
Defined.

(** ** Formats *)

(** X10. The standard input can be read once. When both operands of diff.go
    are [-], the first read takes every line and the second finds none: in
    normal mode every line of the (normalised) input is reported as deleted,
    with a nil error. *)
Theorem X10_stdin_twice :
  forall (c : command) (ctx : Context) (A : list string) (w : World),
  quiet ctx ->
  Positional c = ["-"; "-"] ->
  stdin w = mkReader A None ->
  Brief (Flags c) = false -> Unified (Flags c) = false ->
  (UnifiedContext (Flags c) <= 0)%Z -> SideBySide (Flags c) = false ->
  run (DiffGo.Execute c ctx) w
  = (None, stdout w ++ deleteCommands 0 0 (normalized (Flags c) A), stderr w).
Proof.
  intros c ctx A w Q P HI HB HU HC HS.
  assert (H1 : source w "-" = Opens (mkReader A None))
    by (unfold source; simpl; now rewrite HI).
  assert (H2 : source (drained w "-") "-" = Opens (mkReader [] None))
    by (unfold source, drained; simpl; now rewrite HI).
  destruct (Execute_quiet ctx Q c "-" "-" A [] w P H1 H2) as (w' & E & R & O).
  unfold run. rewrite E. cbn [fst snd]. rewrite R, O. do 2 f_equal.
  rewrite HB. unfold diffOutput. rewrite HU, HS.
  replace (0 <? UnifiedContext (Flags c))%Z with false
    by (symmetry; apply Z.ltb_ge; exact HC).
  cbn [orb].
  assert (N : normalized (Flags c) [] = []).
  { unfold normalized. now destruct (IgnoreCase (Flags c)), (IgnoreWhitespace (Flags c)). }
  rewrite N, normalScript_nil_r.
  destruct (lines_eqb (normalized (Flags c) A) []) eqn:Eq; [|reflexivity].
  apply lines_eqb_true in Eq. now rewrite Eq.
Qed.

Lemma X10_stdin_twice_witness :
  run (DiffGo.Execute (Diff [PString "-"; PString "-"]) background)
    (mkWorld noFile 0 (mkReader ["a"; "b"] None) "" "")
  = (None, "1d0" ++ nl ++ "< a" ++ nl ++ "2d0" ++ nl ++ "< b" ++ nl, "").
Proof.
  exact (X10_stdin_twice (Diff [PString "-"; PString "-"]) background
           ["a"; "b"] (mkWorld noFile 0 (mkReader ["a"; "b"] None) "" "")
           eq_refl eq_refl eq_refl eq_refl eq_refl (Z.le_refl 0) eq_refl).
Defined.

Lemma scripts_agree (l1 : list string) :
  forall l2 i,
  normalScript i i l1 l2
  = cmdNormalScript (i + length l1) (i + length l2) i l1 l2.
Proof.
  induction l1 as [|x xs IH]; intros l2 i.
  - cbn [normalScript cmdNormalScript length]. now rewrite Nat.add_0_r.
  - destruct l2 as [|y ys].
    + cbn [normalScript cmdNormalScript length]. now rewrite Nat.add_0_r.
    + cbn [normalScript cmdNormalScript length]. rewrite IH.
      now replace (S i + length xs)%nat with (i + S (length xs))%nat by lia;
        replace (S i + length ys)%nat with (i + S (length ys))%nat by lia.
Qed.

Lemma normalized_off (f : flags) (A : list string) :
  IgnoreCase f = false -> IgnoreWhitespace f = false -> normalized f A = A.
Proof. intros Hc Hw. unfold normalized. now rewrite Hc, Hw. Qed.

(** X11. With no normalisation flag and no format flag, the two
    implementations agree: on two readable files, neither named [-], diff.go
    (under a context that is not cancelled) and command.go return the same
    error and write the same text to both streams, in normal and in brief
    mode. *)
Theorem X11_implementations_agree :
  forall (c : command) (ctx : Context) (f1 f2 : string) (A B : list string)
         (w : World),
  quiet ctx ->
  Positional c = [f1; f2] ->
  String.eqb f1 "-" = false -> String.eqb f2 "-" = false ->
  files w f1 = Opens (mkReader A None) ->
  files w f2 = Opens (mkReader B None) ->
  IgnoreCase (Flags c) = false -> IgnoreWhitespace (Flags c) = false ->
  Unified (Flags c) = false -> (UnifiedContext (Flags c) <= 0)%Z ->
  SideBySide (Flags c) = false -> ContextDiff (Flags c) = false ->
  run (DiffGo.Execute c ctx) w = run (CommandGo.Executor c) w.
Proof.
  intros c ctx f1 f2 A B w Q P N1 N2 H1 H2 HI HW HU HC HS HD.
  assert (S1 : source w f1 = Opens (mkReader A None))
    by (unfold source; now rewrite N1).
  assert (S2 : source (drained w f1) f2 = Opens (mkReader B None))
    by (unfold source, drained; now rewrite N2, N1).
  destruct (Execute_quiet ctx Q c f1 f2 A B w P S1 S2) as (w' & E & R & O).
  rewrite (Executor_output c f1 f2 [] A B w P H1 H2).
  unfold run. rewrite E. cbn [fst snd]. rewrite R, O. do 2 f_equal.
  rewrite !normalized_off by assumption.
  rewrite areIdentical_spec, HI, HW. unfold compared. cbn [map].
  rewrite !map_id. unfold diffOutput. rewrite HU, HS, HD.
  replace (0 <? UnifiedContext (Flags c))%Z with false
    by (symmetry; apply Z.ltb_ge; exact HC).
  cbn [orb]. now rewrite (scripts_agree A B 0).
Qed.

Lemma X11_implementations_agree_witness :
  run (DiffGo.Execute (Diff [PString "A.txt"; PString "B.txt"]) background) abc_axc
  = run (CommandGo.Executor (Diff [PString "A.txt"; PString "B.txt"])) abc_axc.
Proof.
  exact (X11_implementations_agree (Diff [PString "A.txt"; PString "B.txt"])
           background "A.txt" "B.txt" ["a"; "b"; "c"] ["a"; "x"; "c"] abc_axc
           eq_refl eq_refl eq_refl eq_refl eq_refl eq_refl eq_refl eq_refl
           eq_refl (Z.le_refl 0) eq_refl eq_refl).
Defined.

Lemma append_eq_nil (s t : string) : s ++ t = "" -> s = "" /\ t = "".
Proof. destruct s; simpl; [auto | discriminate]. Qed.

Lemma append_same_l (s t : string) : s ++ t = s -> t = "".
Proof.
  induction s as [|c s IH]; simpl; [auto|]. intros H. injection H as H. auto.
Qed.

Lemma appendCommands_empty (n j : nat) (ys : list string) :
  appendCommands n j ys = "" -> ys = [].
Proof.
  destruct ys as [|y ys]; [reflexivity|]. cbn [appendCommands]. intros H.
  apply append_eq_nil in H. destruct H as [_ H]. discriminate H.
Qed.

Lemma deleteCommands_empty (i n : nat) (xs : list string) :
  deleteCommands i n xs = "" -> xs = [].
Proof.
  destruct xs as [|x xs]; [reflexivity|]. cbn [deleteCommands]. intros H.
  apply append_eq_nil in H. destruct H as [_ H]. discriminate H.
Qed.

Lemma normalScript_empty (l1 : list string) :
  forall l2 i j, normalScript i j l1 l2 = "" -> l1 = l2.
Proof.
  induction l1 as [|x xs IH]; intros l2 i j H.
  - cbn [normalScript] in H. symmetry. eapply appendCommands_empty; eauto.
  - destruct l2 as [|y ys].
    + cbn [normalScript] in H. eapply deleteCommands_empty; eauto.
    + cbn [normalScript] in H. apply append_eq_nil in H. destruct H as [Hc Hr].
      destruct (String.eqb_spec x y) as [->|NE].
      * f_equal. eapply IH; eauto.
      * unfold changeCommand in Hc. apply append_eq_nil in Hc.
        destruct Hc as [_ Hc]. discriminate Hc.
Qed.

Lemma sideBySideRow_nonempty (a b : string) : sideBySideRow a b <> "".
Proof.
  unfold sideBySideRow. intros H. apply append_eq_nil in H.
  destruct H as [_ H]. apply append_eq_nil in H. destruct H as [H _].
  destruct (String.eqb a b); discriminate H.
Qed.

Lemma sideBySideRows_empty (l1 l2 : list string) :
  sideBySideRows l1 l2 = "" -> l1 = [] /\ l2 = [].
Proof.
  destruct l1 as [|x xs]; destruct l2 as [|y ys];
    cbn [sideBySideRows map concat_str]; auto; intros H;
    apply append_eq_nil in H; destruct H as [H _];
    now apply sideBySideRow_nonempty in H.
Qed.

Lemma diffOutput_empty (f : flags) (l1 l2 : list string) (f1 f2 : string) :
  diffOutput f l1 l2 f1 f2 = "" -> l1 = l2.
Proof.
  unfold diffOutput.
  destruct (Unified f || (0 <? UnifiedContext f)%Z).
  - unfold unifiedHeader. intros H. discriminate H.
  - destruct (SideBySide f).
    + intros H. apply sideBySideRows_empty in H. destruct H. congruence.
    + apply normalScript_empty.
Qed.

(** X12. Something is printed exactly when the inputs differ. On two
    readable inputs, in every format and in brief mode, diff.go (under a
    context that is not cancelled) leaves the standard output as it was iff
    the normalised sequences are equal, and command.go iff [areIdentical]
    holds. *)
Theorem X12_output_iff_different :
  (forall (c : command) (ctx : Context) (f1 f2 : string) (A B : list string)
          (w : World),
     quiet ctx ->
     Positional c = [f1; f2] ->
     source w f1 = Opens (mkReader A None) ->
     source (drained w f1) f2 = Opens (mkReader B None) ->
     (snd (fst (run (DiffGo.Execute c ctx) w)) = stdout w
      <-> normalized (Flags c) A = normalized (Flags c) B))
  /\
  (forall (p : command) (f1 f2 : string) (rest A B : list string) (w : World),
     Positional p = f1 :: f2 :: rest ->
     files w f1 = Opens (mkReader A None) ->
     files w f2 = Opens (mkReader B None) ->
     (snd (fst (run (CommandGo.Executor p) w)) = stdout w
      <-> CommandGo.areIdentical A B (IgnoreCase (Flags p))
            (IgnoreWhitespace (Flags p)) = true)).
Proof.
  split.
  - intros c ctx f1 f2 A B w Q P H1 H2.
    destruct (Execute_quiet ctx Q c f1 f2 A B w P H1 H2) as (w' & E & R & O).
    unfold run. rewrite E. cbn [fst snd]. rewrite O.
    destruct (lines_eqb (normalized (Flags c) A) (normalized (Flags c) B)) eqn:Eq.
    + apply lines_eqb_true in Eq. rewrite append_nil_r. tauto.
    + apply lines_eqb_false in Eq. split; [|tauto].
      intros H. apply append_same_l in H. exfalso. apply Eq.
      destruct (Brief (Flags c)); [discriminate H|].
      now apply diffOutput_empty in H.
  - intros p f1 f2 rest A B w P H1 H2.
    rewrite (Executor_output p f1 f2 rest A B w P H1 H2). cbn [fst snd].
    destruct (CommandGo.areIdentical A B (IgnoreCase (Flags p))
                (IgnoreWhitespace (Flags p))) eqn:Eq.
    + rewrite append_nil_r. tauto.
    + split; [|discriminate]. intros H. apply append_same_l in H. exfalso.
      destruct (Brief (Flags p)); [discriminate H|].
      destruct (Unified (Flags p)); [discriminate H|].
      destruct (ContextDiff (Flags p)); [discriminate H|].
      pose proof (scripts_agree A B 0) as Ag. cbn [Nat.add] in Ag.
      rewrite <- Ag in H. apply normalScript_empty in H.
      subst. rewrite areIdentical_spec, lines_eqb_refl in Eq. discriminate Eq.
Qed.

Lemma X12_output_iff_different_witness :
  (snd (fst (run (DiffGo.Execute (Diff sideBySideParams) background) abc_axc)) = ""
   <-> ["a"; "b"; "c"] = ["a"; "x"; "c"])
  /\
  (snd (fst (run (CommandGo.Executor (Diff contextParams)) abc_axc)) = ""
   <-> CommandGo.areIdentical ["a"; "b"; "c"] ["a"; "x"; "c"] false false = true).
Proof.
  split.
  - exact (proj1 X12_output_iff_different (Diff sideBySideParams) background
             "A.txt" "B.txt" ["a"; "b"; "c"] ["a"; "x"; "c"] abc_axc
             eq_refl eq_refl eq_refl eq_refl).
  - exact (proj2 X12_output_iff_different (Diff contextParams)
             "A.txt" "B.txt" [] ["a"; "b"; "c"] ["a"; "x"; "c"] abc_axc
             eq_refl eq_refl eq_refl).
Defined.

Lemma map_nth_seq {A : Type} (g : string -> A) (l : list string) :
  map (fun i => g (nth i l "")) (seq 0 (length l)) = map g l.
Proof.
  induction l as [|x l IH]; [reflexivity|].
  cbn [length seq map nth]. f_equal.
  rewrite <- seq_shift, map_map. exact IH.
Qed.

Lemma sideBySideRows_at (l1 : list string) :
  forall l2,
  sideBySideRows l1 l2
  = concat_str (map (sideBySideAt l1 l2)
                  (seq 0 (Nat.max (length l1) (length l2)))).
Proof.
  induction l1 as [|x xs IH]; intros l2.
  - cbn [sideBySideRows length Nat.max]. f_equal.
    rewrite <- (map_nth_seq (sideBySideRow "") l2).
    apply map_ext. intros i. unfold sideBySideAt. now destruct i.
  - destruct l2 as [|y ys].
    + cbn [sideBySideRows length Nat.max]. f_equal.
      rewrite <- (map_nth_seq (fun a => sideBySideRow a "") (x :: xs)).
      apply map_ext. intros i. unfold sideBySideAt. now destruct i.
    + cbn [sideBySideRows length Nat.max seq map concat_str]. f_equal.
      rewrite IH. f_equal. rewrite <- seq_shift, map_map. reflexivity.
Qed.

(** X13. diff.go in side-by-side format (SideBySide set, unified format not
    selected, not brief, context not cancelled): for two inputs that differ
    it prints one row for every index below the length of the longer
    (normalised) sequence, pairing line [i] of one with line [i] of the
    other, an absent line shown as empty. *)
Theorem X13_side_by_side_rows :
  forall (c : command) (ctx : Context) (f1 f2 : string) (A B : list string)
         (w : World),
  quiet ctx ->
  Positional c = [f1; f2] ->
  source w f1 = Opens (mkReader A None) ->
  source (drained w f1) f2 = Opens (mkReader B None) ->
  SideBySide (Flags c) = true -> Unified (Flags c) = false ->
  (UnifiedContext (Flags c) <= 0)%Z -> Brief (Flags c) = false ->
  normalized (Flags c) A <> normalized (Flags c) B ->
  run (DiffGo.Execute c ctx) w
  = (None,
     stdout w ++
       concat_str
         (map (sideBySideAt (normalized (Flags c) A) (normalized (Flags c) B))
            (seq 0 (Nat.max (length A) (length B)))),
     stderr w).
Proof.
  intros c ctx f1 f2 A B w Q P H1 H2 HS HU HC HB HD.
  destruct (Execute_quiet ctx Q c f1 f2 A B w P H1 H2) as (w' & E & R & O).
  unfold run. rewrite E. cbn [fst snd]. rewrite R, O, HB.
  apply lines_eqb_false in HD. rewrite HD.
  unfold diffOutput. rewrite HU, HS.
  replace (0 <? UnifiedContext (Flags c))%Z with false
    by (symmetry; apply Z.ltb_ge; exact HC).
  cbn [orb]. now rewrite sideBySideRows_at, !normalized_length.
Qed.

Lemma X13_side_by_side_rows_witness :
  run (DiffGo.Execute (Diff sideBySideParams) background)
    (world0 (twoFiles "A.txt" ["a"; "b"] "B.txt" ["a"]))
  = (None,
     "a" ++ spaces 39 ++ "   " ++ "a" ++ spaces 39 ++ nl
     ++ "b" ++ spaces 39 ++ " | " ++ spaces 40 ++ nl, "").
Proof.
  refine (X13_side_by_side_rows (Diff sideBySideParams) background
            "A.txt" "B.txt" ["a"; "b"] ["a"]
            (world0 (twoFiles "A.txt" ["a"; "b"] "B.txt" ["a"]))
            eq_refl eq_refl eq_refl eq_refl eq_refl eq_refl (Z.le_refl 0)
            eq_refl _).
  discriminate.
Defined.

(** X14. Flags command.go never looks at. Two commands with the same
    operands that agree on Unified, ContextDiff, Brief, IgnoreCase and
    IgnoreWhitespace run alike: the two widths, SideBySide and Recursive
    have no effect. *)
Theorem X14_command_unused_flags :
  forall (p p' : command) (w : World),
  Positional p = Positional p' ->
  Unified (Flags p) = Unified (Flags p') ->
  ContextDiff (Flags p) = ContextDiff (Flags p') ->
  Brief (Flags p) = Brief (Flags p') ->
  IgnoreCase (Flags p) = IgnoreCase (Flags p') ->
  IgnoreWhitespace (Flags p) = IgnoreWhitespace (Flags p') ->
  CommandGo.Executor p w = CommandGo.Executor p' w.
Proof.
  intros [pos [cl uc u cd b ic iw sbs r]] [pos' [cl' uc' u' cd' b' ic' iw' sbs' r']] w.
  cbn [Positional Flags Unified ContextDiff Brief IgnoreCase IgnoreWhitespace].
  intros -> -> -> -> -> ->. reflexivity.
Qed.

Lemma X14_command_unused_flags_witness :
  CommandGo.Executor
    (Diff [PString "A.txt"; PString "B.txt"; POption (OSideBySideFlag true);
           POption (OUnifiedContext 7); POption (ORecursiveFlag true)]) abc_axc
  = CommandGo.Executor (Diff [PString "A.txt"; PString "B.txt"]) abc_axc.
Proof.
  exact (X14_command_unused_flags
           (Diff [PString "A.txt"; PString "B.txt"; POption (OSideBySideFlag true);
                  POption (OUnifiedContext 7); POption (ORecursiveFlag true)])
           (Diff [PString "A.txt"; PString "B.txt"]) abc_axc
           eq_refl eq_refl eq_refl eq_refl eq_refl eq_refl).
Defined.

(** X15. Flags diff.go never looks at. Under every context, two commands
    with the same operands that agree on IgnoreCase, IgnoreWhitespace, Brief,
    Unified, SideBySide and on whether UnifiedContext is positive run alike:
    ContextDiff, ContextLines, Recursive and the value of a positive
    UnifiedContext have no effect. *)
Theorem X15_diffgo_unused_flags :
  forall (c c' : command) (ctx : Context) (w : World),
  Positional c = Positional c' ->
  IgnoreCase (Flags c) = IgnoreCase (Flags c') ->
  IgnoreWhitespace (Flags c) = IgnoreWhitespace (Flags c') ->
  Brief (Flags c) = Brief (Flags c') ->
  Unified (Flags c) = Unified (Flags c') ->
  SideBySide (Flags c) = SideBySide (Flags c') ->
  (0 <? UnifiedContext (Flags c))%Z = (0 <? UnifiedContext (Flags c'))%Z ->
  DiffGo.Execute c ctx w = DiffGo.Execute c' ctx w.
Proof.
  intros [pos [cl uc u cd b ic iw sbs r]] [pos' [cl' uc' u' cd' b' ic' iw' sbs' r']]
    ctx w.
  cbn [Positional Flags Unified SideBySide Brief IgnoreCase IgnoreWhitespace
       UnifiedContext].
  intros -> -> -> -> -> -> H.
  unfold DiffGo.Execute, DiffGo.generateDiff.
  cbn [Positional Flags Unified SideBySide Brief IgnoreCase IgnoreWhitespace
       UnifiedContext].
  rewrite H. reflexivity.
Qed.

Lemma X15_diffgo_unused_flags_witness :
  DiffGo.Execute
    (Diff [PString "A.txt"; PString "B.txt"; POption (OContextFlag true);
           POption (OUnifiedContext 7)]) background abc_axc
  = DiffGo.Execute
      (Diff [PString "A.txt"; PString "B.txt"; POption (OUnifiedContext 1)])
      background abc_axc.
Proof.
  exact (X15_diffgo_unused_flags
           (Diff [PString "A.txt"; PString "B.txt"; POption (OContextFlag true);
                  POption (OUnifiedContext 7)])
           (Diff [PString "A.txt"; PString "B.txt"; POption (OUnifiedContext 1)])
           background abc_axc
           eq_refl eq_refl eq_refl eq_refl eq_refl eq_refl eq_refl).
Defined.

Lemma Args_from_app (ps qs : list parameter) :
  forall c, Args_from c (ps ++ qs)%list = Args_from (Args_from c ps) qs.
Proof.
  induction ps as [|p ps IH]; intros c; [reflexivity|].
  destruct p; cbn [app Args_from]; apply IH.
Qed.

Lemma Diff_widths (parameters : list parameter) :
  UnifiedContext (Flags (Diff parameters))
  = (if (UnifiedContext (Flags (Args parameters)) =? 0)%Z
        && Unified (Flags (Args parameters))
     then 3%Z else UnifiedContext (Flags (Args parameters)))
  /\ ContextLines (Flags (Diff parameters))
     = (if (ContextLines (Flags (Args parameters)) =? 0)%Z
           && ContextDiff (Flags (Args parameters))
        then 3%Z else ContextLines (Flags (Args parameters)))
  /\ Unified (Flags (Diff parameters)) = Unified (Flags (Args parameters))
  /\ ContextDiff (Flags (Diff parameters))
     = ContextDiff (Flags (Args parameters)).
Proof.
  unfold Diff. cbv zeta.
  destruct (Flags (Args parameters)) as [cl uc u cd b ic iw sbs r].
  cbn [UnifiedContext ContextLines Unified ContextDiff].
  destruct ((uc =? 0)%Z && u); cbn;
    destruct ((cl =? 0)%Z && cd); cbn; repeat split; reflexivity.
Qed.

(** X16. The widths after [Diff]. A width of 0 under its mode flag is
    replaced by 3, whether 0 was passed or nothing was, so a selected mode
    never has width 0; a non-zero width is kept as given, and so is a width
    whose mode flag is not set. *)
Theorem X16_width_never_zero :
  forall parameters : list parameter,
  (UnifiedContext (Flags (Args parameters)) = 0%Z ->
   Unified (Flags (Args parameters)) = true ->
   UnifiedContext (Flags (Diff parameters)) = 3%Z)
  /\ (ContextLines (Flags (Args parameters)) = 0%Z ->
      ContextDiff (Flags (Args parameters)) = true ->
      ContextLines (Flags (Diff parameters)) = 3%Z)
  /\ UnifiedContext
       (Flags (Diff (parameters
                     ++ [POption (OUnifiedFlag true); POption (OUnifiedContext 0)])%list))
     = 3%Z
  /\ ContextLines
       (Flags (Diff (parameters
                     ++ [POption (OContextFlag true); POption (OContextLines 0)])%list))
     = 3%Z
  /\ (Unified (Flags (Diff parameters)) = true ->
      UnifiedContext (Flags (Diff parameters)) <> 0%Z)
  /\ (ContextDiff (Flags (Diff parameters)) = true ->
      ContextLines (Flags (Diff parameters)) <> 0%Z)
  /\ (UnifiedContext (Flags (Args parameters)) <> 0%Z
      \/ Unified (Flags (Args parameters)) = false ->
      UnifiedContext (Flags (Diff parameters))
      = UnifiedContext (Flags (Args parameters)))
  /\ (ContextLines (Flags (Args parameters)) <> 0%Z
      \/ ContextDiff (Flags (Args parameters)) = false ->
      ContextLines (Flags (Diff parameters))
      = ContextLines (Flags (Args parameters))).
Proof.
  intros parameters.
  assert (Explicit : forall o1 o2 : Option,
    Flags (Args (parameters ++ [POption o1; POption o2])%list)
    = Configure o2 (Configure o1 (Flags (Args parameters)))).
  { intros o1 o2. unfold Args. rewrite Args_from_app. reflexivity. }
  destruct (Diff_widths parameters) as (HU & HC & FU & FC).
  destruct (Diff_widths (parameters
              ++ [POption (OUnifiedFlag true); POption (OUnifiedContext 0)])%list)
    as (HU0 & _).
  destruct (Diff_widths (parameters
              ++ [POption (OContextFlag true); POption (OContextLines 0)])%list)
    as (_ & HC0 & _).
  rewrite Explicit in HU0, HC0. cbn in HU0, HC0.
  rewrite HU, HC, FU, FC.
  split; [intros -> ->; reflexivity|].
  split; [intros -> ->; reflexivity|].
  split; [exact HU0|]. split; [exact HC0|].
  destruct (Z.eqb_spec (UnifiedContext (Flags (Args parameters))) 0) as [Eu|Nu];
    destruct (Z.eqb_spec (ContextLines (Flags (Args parameters))) 0) as [Ec|Nc];
    destruct (Unified (Flags (Args parameters)));
    destruct (ContextDiff (Flags (Args parameters))); cbn;
    (split; [|split; [|split]]); intros H;
    first [ discriminate H | discriminate | assumption | reflexivity
          | destruct H as [H|H]; first [ contradiction | discriminate H ] ].
Qed.

Lemma X16_width_never_zero_witness :
  UnifiedContext
    (Flags (Diff [POption (OUnifiedFlag true); POption (OUnifiedContext 0)]))
  = 3%Z
  /\ UnifiedContext
       (Flags (Diff [POption (OUnifiedFlag true); POption (OUnifiedContext 5)]))
     = 5%Z.
Proof.
  split.
  - exact (proj1 (X16_width_never_zero
                    [POption (OUnifiedFlag true); POption (OUnifiedContext 0)])
             eq_refl eq_refl).
  - refine (proj1 (proj2 (proj2 (proj2 (proj2 (proj2 (proj2
              (X16_width_never_zero
                 [POption (OUnifiedFlag true); POption (OUnifiedContext 5)]))))))) _).
    left. discriminate.
Defined.

(** ** Normalisation *)

Lemma isSpace_toLowerByte (c : ascii) : isSpace (toLowerByte c) = isSpace c.
Proof.
  unfold toLowerByte. cbv zeta.
  destruct (Nat.leb_spec 65 (nat_of_ascii c)) as [L|L]; [|reflexivity].
  destruct (Nat.leb_spec (nat_of_ascii c) 90) as [U|U]; [|reflexivity].
  cbn [andb]. unfold isSpace. cbv zeta.
  rewrite nat_ascii_embedding by lia.
  destruct (Nat.leb_spec 9 (nat_of_ascii c + 32)),
    (Nat.leb_spec (nat_of_ascii c + 32) 13),
    (Nat.eqb_spec (nat_of_ascii c + 32) 32),
    (Nat.leb_spec 9 (nat_of_ascii c)), (Nat.leb_spec (nat_of_ascii c) 13),
    (Nat.eqb_spec (nat_of_ascii c) 32); simpl; try reflexivity; lia.
Qed.

Lemma toLowerByte_idem (c : ascii) : toLowerByte (toLowerByte c) = toLowerByte c.
Proof.
  assert (U : forall d, ((65 <=? nat_of_ascii d) && (nat_of_ascii d <=? 90))%nat = false ->
                        toLowerByte d = d).
  { intros d H. unfold toLowerByte. cbv zeta. now rewrite H. }
  destruct (((65 <=? nat_of_ascii c) && (nat_of_ascii c <=? 90))%nat) eqn:E.
  - apply U. unfold toLowerByte. cbv zeta. rewrite E.
    apply andb_prop in E. destruct E as [L H].
    apply Nat.leb_le in L. apply Nat.leb_le in H.
    rewrite nat_ascii_embedding by lia.
    apply andb_false_iff. right. apply Nat.leb_gt. lia.
  - now rewrite !(U c E).
Qed.

Lemma ToLower_idem (s : string) : ToLower (ToLower s) = ToLower s.
Proof.
  induction s as [|c s IH]; [reflexivity|].
  cbn [ToLower]. now rewrite toLowerByte_idem, IH.
Qed.

Lemma startsField_ToLower (s : string) :
  startsField (ToLower s) = startsField s.
Proof. destruct s; [reflexivity|]. simpl. now rewrite isSpace_toLowerByte. Qed.

Lemma Fields_ToLower (s : string) : Fields (ToLower s) = map ToLower (Fields s).
Proof.
  induction s as [|c s IH]; [reflexivity|].
  cbn [ToLower Fields]. rewrite isSpace_toLowerByte, startsField_ToLower, IH.
  destruct (isSpace c); [reflexivity|].
  destruct (startsField s); [|reflexivity].
  destruct (Fields s); reflexivity.
Qed.

Lemma Join_ToLower (l : list string) :
  ToLower (Join l " ") = Join (map ToLower l) " ".
Proof.
  induction l as [|e l IH]; [reflexivity|].
  destruct l as [|e2 l]; [reflexivity|].
  change (Join (e :: e2 :: l) " ") with (e ++ " " ++ Join (e2 :: l) " ").
  change (Join (map ToLower (e :: e2 :: l)) " ")
    with (ToLower e ++ " " ++ Join (map ToLower (e2 :: l)) " ").
  rewrite !ToLower_app, IH. reflexivity.
Qed.

Lemma collapse_ToLower (s : string) : collapse (ToLower s) = ToLower (collapse s).
Proof. unfold collapse. now rewrite Fields_ToLower, Join_ToLower. Qed.

Lemma Fields_words (s : string) : Forall isWord (Fields s).
Proof.
  induction s as [|c s IH]; [constructor|].
  cbn [Fields]. destruct (isSpace c) eqn:Ec; [exact IH|].
  assert (W : isWord (String c "")).
  { split; [discriminate|]. simpl. now rewrite Ec. }
  destruct (startsField s).
  - destruct (Fields s) as [|f fs]; [now constructor|].
    inversion IH as [|? ? [Hn Hs] Hfs]; subst. constructor; [|exact Hfs].
    split; [discriminate|]. simpl. now rewrite Ec, Hs.
  - now constructor.
Qed.

Lemma Fields_word_app (e t : string) :
  isWord e -> Fields (e ++ String " " t) = e :: Fields t.
Proof.
  intros [Hn Hs]. induction e as [|c e IH]; [congruence|].
  simpl in Hs. apply andb_prop in Hs. destruct Hs as [Hc He].
  apply negb_true_iff in Hc. cbn [append Fields]. rewrite Hc.
  destruct e as [|d e].
  - cbn [append startsField isSpace]. simpl. reflexivity.
  - rewrite IH by (try discriminate; exact He).
    simpl in He. apply andb_prop in He. destruct He as [Hd _].
    cbn [append startsField]. now rewrite Hd.
Qed.

Lemma Fields_word (e : string) : isWord e -> Fields e = [e].
Proof.
  intros W. rewrite <- (Fields_snoc_space " " e eq_refl).
  now rewrite (Fields_word_app e "" W).
Qed.

Lemma Fields_Join (l : list string) :
  Forall isWord l -> Fields (Join l " ") = l.
Proof.
  induction l as [|e l IH]; intros H; [reflexivity|].
  inversion H as [|? ? We Wl]; subst.
  destruct l as [|e2 l]; [now apply Fields_word|].
  change (Join (e :: e2 :: l) " ") with (e ++ String " " (Join (e2 :: l) " ")).
  rewrite (Fields_word_app e _ We). now rewrite IH.
Qed.

Lemma collapse_idem (s : string) : collapse (collapse s) = collapse s.
Proof.
  unfold collapse. now rewrite (Fields_Join (Fields s) (Fields_words s)).
Qed.

Lemma normalized_map (f : flags) (A : list string) :
  normalized f A = map (normalLine f) A.
Proof.
  unfold normalized, normalLine.
  destruct (IgnoreCase f), (IgnoreWhitespace f); cbv zeta;
    rewrite ?map_map; try reflexivity.
  now rewrite map_id.
Qed.

Lemma normalLine_idem (f : flags) (s : string) :
  normalLine f (normalLine f s) = normalLine f s.
Proof.
  unfold normalLine. destruct (IgnoreCase f), (IgnoreWhitespace f); cbv zeta.
  - now rewrite collapse_ToLower, collapse_idem, <- collapse_ToLower, ToLower_idem.
  - apply ToLower_idem.
  - apply collapse_idem.
  - reflexivity.
Qed.

(** X17. On ASCII lines normalising is idempotent, so diff.go treats inputs
    and their normal forms alike: on two readable inputs of ASCII lines, and
    on inputs that hold their normalised lines instead, it returns the same
    error and writes the same text (under a context that is not cancelled). *)
Theorem X17_normalisation_idempotent :
  forall (c : command) (ctx : Context) (f1 f2 : string) (A B : list string)
         (w w2 : World),
  asciiLines A -> asciiLines B ->
  quiet ctx ->
  Positional c = [f1; f2] ->
  source w f1 = Opens (mkReader A None) ->
  source (drained w f1) f2 = Opens (mkReader B None) ->
  source w2 f1 = Opens (mkReader (normalized (Flags c) A) None) ->
  source (drained w2 f1) f2 = Opens (mkReader (normalized (Flags c) B) None) ->
  stdout w2 = stdout w -> stderr w2 = stderr w ->
  normalized (Flags c) (normalized (Flags c) A) = normalized (Flags c) A
  /\ run (DiffGo.Execute c ctx) w2 = run (DiffGo.Execute c ctx) w.
Proof.
  intros c ctx f1 f2 A B w w2 _ _ Q P H1 H2 H1' H2' HO HE.
  assert (I : forall L, normalized (Flags c) (normalized (Flags c) L)
                        = normalized (Flags c) L).
  { intros L. rewrite !normalized_map, map_map. apply map_ext.
    intros a. apply normalLine_idem. }
  split; [apply I|].
  destruct (Execute_quiet ctx Q c f1 f2 A B w P H1 H2) as (w' & E & R & O).
  destruct (Execute_quiet ctx Q c f1 f2 _ _ w2 P H1' H2') as (w2' & E2 & R2 & O2).
  unfold run. rewrite E, E2. cbn [fst snd].
  rewrite R, R2, O, O2, !I, HO, HE. reflexivity.
Qed.

Lemma X17_normalisation_idempotent_witness :
  run (DiffGo.Execute (Diff ignoreBothParams) background)
    (world0 (twoFiles "A.txt" ["hello world"] "B.txt" ["hello there"]))
  = run (DiffGo.Execute (Diff ignoreBothParams) background) hello.
Proof.
  exact (proj2 (X17_normalisation_idempotent (Diff ignoreBothParams) background
                  "A.txt" "B.txt" ["Hello  World"] ["hello there"] hello
                  (world0 (twoFiles "A.txt" ["hello world"] "B.txt" ["hello there"]))
                  ltac:(repeat constructor) ltac:(repeat constructor)
                  eq_refl eq_refl eq_refl eq_refl eq_refl eq_refl eq_refl eq_refl)).
Defined.

(** X18. On ASCII lines the two normalizers of diff.go commute: folding
    case and then collapsing white space gives the same lines as collapsing
    and then folding, so the order in which [Execute] applies them does not
    matter (under a context that is not cancelled). *)
Theorem X18_normalizers_commute :
  forall (ctx : Context) (lines : list string) (w1 w2 w3 w4 : World),
  asciiLines lines ->
  quiet ctx ->
  fst (DiffGo.normalizeWhitespace ctx
         (fst (DiffGo.normalizeCase ctx lines w1)) w2)
  = fst (DiffGo.normalizeCase ctx
           (fst (DiffGo.normalizeWhitespace ctx lines w3)) w4).
Proof.
  intros ctx lines w1 w2 w3 w4 _ Q.
  unfold DiffGo.normalizeCase, DiffGo.normalizeWhitespace.
  destruct (normalizeLoop_quiet ctx Q ToLower lines 0 [] w1) as (? & -> & _).
  destruct (normalizeLoop_quiet ctx Q (fun line => Join (Fields line) " ")
              lines 0 [] w3) as (? & -> & _).
  cbn [fst app].
  destruct (normalizeLoop_quiet ctx Q (fun line => Join (Fields line) " ")
              (map ToLower lines) 0 [] w2) as (? & -> & _).
  destruct (normalizeLoop_quiet ctx Q ToLower
              (map (fun line => Join (Fields line) " ") lines) 0 [] w4)
    as (? & -> & _).
  cbn [fst app]. rewrite !map_map. apply map_ext. intros a.
  apply (collapse_ToLower a).
Qed.

Lemma X18_normalizers_commute_witness :
  fst (DiffGo.normalizeWhitespace background
         (fst (DiffGo.normalizeCase background [" A  b "] (world0 noFile)))
         (world0 noFile))
  = fst (DiffGo.normalizeCase background
           (fst (DiffGo.normalizeWhitespace background [" A  b "] (world0 noFile)))
           (world0 noFile)).
Proof.
  exact (X18_normalizers_commute background [" A  b "] (world0 noFile)
           (world0 noFile) (world0 noFile) (world0 noFile)
           ltac:(repeat constructor) eq_refl).
Defined.

Lemma trimLeft_ToLower (s : string) : trimLeft (ToLower s) = ToLower (trimLeft s).
Proof.
  induction s as [|c s IH]; [reflexivity|].
  cbn [ToLower trimLeft]. rewrite isSpace_toLowerByte.
  destruct (isSpace c); [exact IH | reflexivity].
Qed.

Lemma trimRight_ToLower (s : string) :
  trimRight (ToLower s) = ToLower (trimRight s).
Proof.
  induction s as [|c s IH]; [reflexivity|].
  cbn [ToLower trimRight]. rewrite IH, isSpace_toLowerByte.
  destruct (trimRight s); cbn [ToLower]; [|reflexivity].
  destruct (isSpace c); reflexivity.
Qed.

Lemma TrimSpace_ToLower (s : string) :
  TrimSpace (ToLower s) = ToLower (TrimSpace s).
Proof. unfold TrimSpace. now rewrite trimLeft_ToLower, trimRight_ToLower. Qed.

Lemma map_coarser {A B C : Type} (g : A -> B) (h : A -> C) :
  (forall a b, g a = g b -> h a = h b) ->
  forall l1 l2, map g l1 = map g l2 -> map h l1 = map h l2.
Proof.
  intros H. induction l1 as [|a l1 IH]; intros [|b l2] E;
    try discriminate E; [reflexivity|].
  cbn [map] in *. injection E as E1 E2. f_equal; auto.
Qed.

Lemma normalLine_coarser (f f' : flags) (a b : string) :
  ignoresMore f f' -> normalLine f a = normalLine f b ->
  normalLine f' a = normalLine f' b.
Proof.
  unfold ignoresMore, normalLine. intros [Hc Hw].
  destruct (IgnoreCase f), (IgnoreWhitespace f); cbv zeta;
    try rewrite (Hc eq_refl); try rewrite (Hw eq_refl); intros E.
  - exact E.
  - destruct (IgnoreWhitespace f'); congruence.
  - destruct (IgnoreCase f'); [|exact E].
    now rewrite !collapse_ToLower, E.
  - now subst.
Qed.

Lemma compared_coarser (ic iw ic' iw' : bool) (a b : string) :
  (ic = true -> ic' = true) -> (iw = true -> iw' = true) ->
  compared ic iw a = compared ic iw b ->
  compared ic' iw' a = compared ic' iw' b.
Proof.
  unfold compared. intros Hc Hw.
  destruct ic, iw; cbv zeta;
    try rewrite (Hc eq_refl); try rewrite (Hw eq_refl); intros E.
  - exact E.
  - destruct iw'; [|exact E]. now rewrite <- !TrimSpace_ToLower, E.
  - destruct ic'; congruence.
  - now subst.
Qed.

(** X19. Ignoring more never separates inputs of ASCII lines. If two
    sequences of ASCII lines compare equal under some flags, they compare
    equal under any flags that ignore at least as much: for the normal forms
    of diff.go and for [areIdentical] of command.go. *)
Theorem X19_ignoring_more_is_coarser :
  (forall (f f' : flags) (A B : list string),
     asciiLines A -> asciiLines B ->
     ignoresMore f f' ->
     normalized f A = normalized f B -> normalized f' A = normalized f' B)
  /\
  (forall (f f' : flags) (A B : list string),
     asciiLines A -> asciiLines B ->
     ignoresMore f f' ->
     CommandGo.areIdentical A B (IgnoreCase f) (IgnoreWhitespace f) = true ->
     CommandGo.areIdentical A B (IgnoreCase f') (IgnoreWhitespace f') = true).
Proof.
  split.
  - intros f f' A B _ _ H. rewrite !normalized_map.
    apply map_coarser. intros a b. now apply normalLine_coarser.
  - intros f f' A B _ _ [Hc Hw]. rewrite !areIdentical_spec, !lines_eqb_true.
    apply map_coarser. intros a b. now apply compared_coarser.
Qed.

Lemma X19_ignoring_more_is_coarser_witness :
  normalized (Flags (Diff ignoreBothParams)) ["a  b"]
  = normalized (Flags (Diff ignoreBothParams)) ["a b"]
  /\ CommandGo.areIdentical ["A "] ["A"] true true = true.
Proof.
  split.
  - refine (proj1 X19_ignoring_more_is_coarser (Flags (Diff ignoreSpaceParams))
              (Flags (Diff ignoreBothParams)) ["a  b"] ["a b"]
              ltac:(repeat constructor) ltac:(repeat constructor) _ eq_refl).
    split; [discriminate | reflexivity].
  - refine (proj2 X19_ignoring_more_is_coarser (Flags (Diff ignoreSpaceParams))
              (Flags (Diff ignoreBothParams)) ["A "] ["A"]
              ltac:(repeat constructor) ltac:(repeat constructor) _ eq_refl).
    split; [discriminate | reflexivity].
Defined.

(** X20. For any fixed flags, [areIdentical] of command.go is an
    equivalence on line sequences: reflexive, symmetric and transitive. *)
Theorem X20_areIdentical_equivalence :
  forall (ic iw : bool),
  (forall A, CommandGo.areIdentical A A ic iw = true)
  /\ (forall A B, CommandGo.areIdentical A B ic iw
                  = CommandGo.areIdentical B A ic iw)
  /\ (forall A B C,
        CommandGo.areIdentical A B ic iw = true ->
        CommandGo.areIdentical B C ic iw = true ->
        CommandGo.areIdentical A C ic iw = true).
Proof.
  intros ic iw. split; [|split].
  - intros A. rewrite areIdentical_spec. apply lines_eqb_refl.
  - intros A B. rewrite !areIdentical_spec.
    destruct (lines_eqb (map (compared ic iw) A) (map (compared ic iw) B)) eqn:E.
    + apply lines_eqb_true in E. rewrite E. symmetry. apply lines_eqb_refl.
    + symmetry. apply lines_eqb_false. apply lines_eqb_false in E. congruence.
  - intros A B C. rewrite !areIdentical_spec, !lines_eqb_true. congruence.
Qed.

Lemma X20_areIdentical_equivalence_witness :
  CommandGo.areIdentical [" A"] ["a"] true true = true.
Proof.
  exact (proj2 (proj2 (X20_areIdentical_equivalence true true))
           [" A"] ["a "] ["a"] eq_refl eq_refl).
Defined.

(** ** Renderers of diff.go under any context *)

Lemma partial_full (w w' : World) (full : string) :
  steps w w' full -> partialOf w w' None full.
Proof.
  intros H. exists full, "". rewrite append_nil_r. repeat split; auto.
  all: try apply H.
Qed.

Lemma partial_stop (w w' : World) (e full : string) :
  steps w w' "" -> partialOf w w' (Some e) full.
Proof.
  intros H. exists "", full. split; [exact H|]. split; [reflexivity|].
  discriminate.
Qed.

Lemma partial_pre (w w1 w2 : World) (r : error) (o full : string) :
  steps w w1 o -> partialOf w1 w2 r full -> partialOf w w2 r (o ++ full).
Proof.
  intros H (out & rest & St & E & N). exists (o ++ out), rest.
  split; [exact (steps_trans _ _ _ _ _ H St)|].
  split; [now rewrite E, append_assoc | exact N].
Qed.

Lemma partial_eq (w w' : World) (r : error) (full full' : string) :
  partialOf w w' r full -> full = full' -> partialOf w w' r full'.
Proof. now intros H <-. Qed.

Lemma partial_None (w w' : World) (full : string) :
  partialOf w w' None full -> steps w w' full.
Proof.
  intros (out & rest & St & E & N). rewrite (N eq_refl), append_nil_r in E.
  now subst.
Qed.

Section AnyContext.

Variable ctx : Context.

Ltac poll k n w :=
  let r := fresh "r" in
  let w' := fresh "w" in
  let E := fresh "E" in
  let St := fresh "St" in
  destruct (checkEvery_cases k ctx n w) as (r & w' & E & St & _ & [->|(-> & _)]);
  repeat rewrite bind_assoc; unfold bind at 1; rewrite E; cbv beta iota;
  [| eexists; eexists; split; [reflexivity|];
     split; [apply partial_stop; exact St | now right] ].

Ltac finish PO D :=
  do 2 eexists; split; [reflexivity|]; split; [|exact D];
  eapply partial_eq; [eapply partial_pre; [|exact PO]; chain | str_norm].

Lemma generateNormalDiffLoop_any (l1 l2 : list string) :
  forall fuel i j lc w,
  (i <= length l1)%nat -> (j <= length l2)%nat ->
  ((length l1 - i) + (length l2 - j) < fuel)%nat ->
  exists r w',
    DiffGo.generateNormalDiffLoop ctx l1 l2 Stdout fuel i j lc w = (r, w')
    /\ partialOf w w' r (normalScript i j (skipn i l1) (skipn j l2))
    /\ (r = None \/ r = Some (ctxErr ctx)).
Proof.
  induction fuel as [|fuel IH]; intros i j lc w Hi Hj Hf; [lia|].
  cbn [DiffGo.generateNormalDiffLoop].
  destruct (Nat.ltb_spec i (length l1)) as [Li|Li];
    destruct (Nat.ltb_spec j (length l2)) as [Lj|Lj]; cbn [orb].
  - poll 1000 (S lc) w.
    destruct (Nat.leb_spec (length l1) i); [lia|].
    destruct (Nat.leb_spec (length l2) j); [lia|].
    rewrite (skipn_nth "" l1 i), (skipn_nth "" l2 j) by lia.
    cbn [normalScript]. unfold changeCommand.
    destruct (String.eqb (nth i l1 "") (nth j l2 "")).
    + destruct (IH (S i) (S j) (S lc) w0 ltac:(lia) ltac:(lia) ltac:(lia))
        as (r & w' & E' & PO & D).
      rewrite E'. finish PO D.
    + do 4 run_print.
      destruct (IH (S i) (S j) (S lc) w4 ltac:(lia) ltac:(lia) ltac:(lia))
        as (r & w' & E' & PO & D).
      rewrite E'. finish PO D.
  - poll 1000 (S lc) w.
    destruct (Nat.leb_spec (length l1) i); [lia|].
    destruct (Nat.leb_spec (length l2) j); [|lia].
    rewrite (skipn_nth "" l1 i) by lia. rewrite (skipn_all2 l2) by lia.
    cbn [normalScript deleteCommands].
    do 2 run_print.
    destruct (IH (S i) j (S lc) w2 ltac:(lia) ltac:(lia) ltac:(lia))
      as (r & w' & E' & PO & D).
    rewrite (skipn_all2 l2) in PO by lia. rewrite normalScript_nil_r in PO.
    rewrite E'. finish PO D.
  - poll 1000 (S lc) w.
    destruct (Nat.leb_spec (length l1) i); [|lia].
    rewrite (skipn_nth "" l2 j) by lia. rewrite (skipn_all2 l1) by lia.
    cbn [normalScript appendCommands].
    do 2 run_print.
    destruct (IH i (S j) (S lc) w2 ltac:(lia) ltac:(lia) ltac:(lia))
      as (r & w' & E' & PO & D).
    rewrite (skipn_all2 l1) in PO by lia. cbn [normalScript] in PO.
    rewrite E'. finish PO D.
  - rewrite (skipn_all2 l1), (skipn_all2 l2) by lia. unfold ret.
    do 2 eexists. split; [reflexivity|].
    split; [apply partial_full, steps_refl | now left].
Qed.

Lemma emitRest_any (sign : string) (lines : list string) :
  forall fuel k w,
  (k <= length lines)%nat -> (length lines - k < fuel)%nat ->
  exists r k' w',
    DiffGo.emitRest ctx sign lines Stdout fuel k w = ((r, k'), w')
    /\ partialOf w w' r (signed sign (skipn k lines))
    /\ ((r = None /\ k' = length lines) \/ r = Some (ctxErr ctx)).
Proof.
  induction fuel as [|fuel IH]; intros k w Hk Hf; [lia|].
  cbn [DiffGo.emitRest].
  destruct (Nat.ltb_spec k (length lines)) as [Lk|Lk].
  - destruct (checkEvery_cases 100 ctx k w)
      as (r0 & w0 & E0 & St0 & _ & [->|(-> & _)]);
      unfold bind at 1; rewrite E0; cbv beta iota.
    + run_print.
      destruct (IH (S k) w1 ltac:(lia) ltac:(lia)) as (r & k' & w' & E' & PO & D).
      rewrite E'. do 3 eexists. split; [reflexivity|]. split; [|exact D].
      rewrite (skipn_nth "" lines k) by lia. rewrite signed_cons.
      eapply partial_eq; [eapply partial_pre; [|exact PO]; chain | str_norm].
    + do 3 eexists. split; [reflexivity|].
      split; [apply partial_stop; exact St0 | now right].
  - rewrite skipn_all2 by lia. unfold ret. do 3 eexists.
    split; [reflexivity|]. split; [apply partial_full, steps_refl|].
    left. split; [reflexivity | lia].
Qed.

Lemma generateUnifiedDiffLoop_any (l1 l2 : list string) :
  forall fuel i j lc w,
  (i <= length l1)%nat -> (j <= length l2)%nat ->
  ((length l1 - i) + (length l2 - j) < fuel)%nat ->
  exists r w',
    DiffGo.generateUnifiedDiffLoop ctx l1 l2 Stdout fuel i j lc w = (r, w')
    /\ partialOf w w' r (unifiedHunks i j (skipn i l1) (skipn j l2))
    /\ (r = None \/ r = Some (ctxErr ctx)).
Proof.
  induction fuel as [|fuel IH]; intros i j lc w Hi Hj Hf; [lia|].
  cbn [DiffGo.generateUnifiedDiffLoop].
  destruct (Nat.ltb_spec i (length l1)) as [Li|Li];
    destruct (Nat.ltb_spec j (length l2)) as [Lj|Lj]; cbn [orb].
  - poll 1000 (S lc) w.
    destruct (Nat.leb_spec (length l1) i); [lia|].
    destruct (Nat.leb_spec (length l2) j); [lia|].
    rewrite (skipn_nth "" l1 i), (skipn_nth "" l2 j) by lia.
    cbn [unifiedHunks]. unfold hunkHeader.
    destruct (String.eqb (nth i l1 "") (nth j l2 "")).
    + destruct (IH (S i) (S j) (S lc) w0 ltac:(lia) ltac:(lia) ltac:(lia))
        as (r & w' & E' & PO & D).
      rewrite E'. finish PO D.
    + do 3 run_print.
      destruct (IH (S i) (S j) (S lc) w3 ltac:(lia) ltac:(lia) ltac:(lia))
        as (r & w' & E' & PO & D).
      rewrite E'. finish PO D.
  - poll 1000 (S lc) w.
    destruct (Nat.leb_spec (length l1) i); [lia|].
    destruct (Nat.leb_spec (length l2) j); [|lia].
    run_print.
    destruct (emitRest_any "-" l1 (S (length l1)) i w1 ltac:(lia) ltac:(lia))
      as (r & k' & w2 & E2 & PO2 & D2).
    repeat rewrite bind_assoc. unfold bind at 1. rewrite E2. cbv beta iota.
    cbn [fst snd].
    rewrite (skipn_all2 l2) by lia.
    assert (Sp : unifiedHunks i j (skipn i l1) []
                 = hunkHeader i (length l1 - i) j 0 ++ signed "-" (skipn i l1)).
    { rewrite (skipn_nth "" l1 i) by lia. cbn [unifiedHunks].
      do 2 f_equal. cbn [length]. rewrite length_skipn. lia. }
    rewrite Sp. unfold hunkHeader.
    destruct D2 as [ [-> ->] | -> ].
    + destruct (IH (length l1) j (S lc) w2 ltac:(lia) ltac:(lia) ltac:(lia))
        as (r & w' & E' & PO & D).
      rewrite E'. rewrite (skipn_all2 l1 (n := length l1)) in PO by lia.
      rewrite (skipn_all2 l2) in PO by lia. cbn [unifiedHunks] in PO.
      apply partial_None in PO2.
      do 2 eexists; split; [reflexivity|]; split; [|exact D].
      eapply partial_eq; [eapply partial_pre; [|exact PO]; chain | str_norm].
    + do 2 eexists. split; [reflexivity|]. split; [|now right].
      eapply partial_eq; [eapply partial_pre; [|exact PO2]; chain | str_norm].
  - poll 1000 (S lc) w.
    destruct (Nat.leb_spec (length l1) i); [|lia].
    run_print.
    destruct (emitRest_any "+" l2 (S (length l2)) j w1 ltac:(lia) ltac:(lia))
      as (r & k' & w2 & E2 & PO2 & D2).
    repeat rewrite bind_assoc. unfold bind at 1. rewrite E2. cbv beta iota.
    cbn [fst snd].
    rewrite (skipn_all2 l1) by lia.
    assert (Sp : unifiedHunks i j [] (skipn j l2)
                 = hunkHeader i 0 j (length l2 - j) ++ signed "+" (skipn j l2)).
    { rewrite (skipn_nth "" l2 j) by lia. cbn [unifiedHunks].
      do 2 f_equal. cbn [length]. rewrite length_skipn. lia. }
    rewrite Sp. unfold hunkHeader.
    destruct D2 as [ [-> ->] | -> ].
    + destruct (IH i (length l2) (S lc) w2 ltac:(lia) ltac:(lia) ltac:(lia))
        as (r & w' & E' & PO & D).
      rewrite E'. rewrite (skipn_all2 l2 (n := length l2)) in PO by lia.
      rewrite (skipn_all2 l1) in PO by lia. cbn [unifiedHunks] in PO.
      apply partial_None in PO2.
      do 2 eexists; split; [reflexivity|]; split; [|exact D].
      eapply partial_eq; [eapply partial_pre; [|exact PO]; chain | str_norm].
    + do 2 eexists. split; [reflexivity|]. split; [|now right].
      eapply partial_eq; [eapply partial_pre; [|exact PO2]; chain | str_norm].
  - rewrite (skipn_all2 l1), (skipn_all2 l2) by lia. unfold ret.
    do 2 eexists. split; [reflexivity|].
    split; [apply partial_full, steps_refl | now left].
Qed.

Lemma generateSideBySideDiffLoop_any (l1 l2 : list string) :
  forall fuel i w,
  (i <= Nat.max (length l1) (length l2))%nat ->
  (Nat.max (length l1) (length l2) - i < fuel)%nat ->
  exists r w',
    DiffGo.generateSideBySideDiffLoop ctx l1 l2 Stdout fuel i
      (Nat.max (length l1) (length l2)) w = (r, w')
    /\ partialOf w w' r (sideBySideRows (skipn i l1) (skipn i l2))
    /\ (r = None \/ r = Some (ctxErr ctx)).
Proof.
  induction fuel as [|fuel IH]; intros i w Hi Hf; [lia|].
  cbn [DiffGo.generateSideBySideDiffLoop].
  destruct (Nat.ltb_spec i (Nat.max (length l1) (length l2))) as [Lm|Lm].
  - poll 1000 i w. cbv zeta.
    assert (R : forall a b,
      (if String.eqb a b
       then Fprint Stdout (padRight40 a ++ "   " ++ padRight40 b ++ nl)
       else Fprint Stdout (padRight40 a ++ " | " ++ padRight40 b ++ nl))
      = Fprint Stdout (sideBySideRow a b)).
    { intros a b. unfold sideBySideRow. destruct (String.eqb a b); reflexivity. }
    rewrite R. clear R. run_print.
    destruct (IH (S i) w1 ltac:(lia) ltac:(lia)) as (r & w' & E' & PO & D).
    rewrite E'.
    destruct (Nat.ltb_spec i (length l1)) as [Li|Li];
      destruct (Nat.ltb_spec i (length l2)) as [Lj|Lj]; try lia.
    + rewrite (skipn_nth "" l1 i), (skipn_nth "" l2 i) by lia.
      cbn [sideBySideRows]. finish PO D.
    + rewrite (skipn_nth "" l1 i) by lia.
      rewrite (skipn_all2 l2 (n := i)) by lia.
      rewrite (skipn_all2 l2) in PO by lia.
      rewrite sideBySideRows_nil_r in PO.
      cbn [sideBySideRows map concat_str]. finish PO D.
    + rewrite (skipn_nth "" l2 i) by lia.
      rewrite (skipn_all2 l1 (n := i)) by lia.
      rewrite (skipn_all2 l1) in PO by lia.
      cbn [sideBySideRows] in PO.
      cbn [sideBySideRows map concat_str]. finish PO D.
  - rewrite (skipn_all2 l1), (skipn_all2 l2) by lia. unfold ret.
    do 2 eexists. split; [reflexivity|].
    split; [apply partial_full, steps_refl | now left].
Qed.

Lemma generateDiff_any (c : command) (l1 l2 : list string) (f1 f2 : string)
  (w : World) :
  exists r w',
    DiffGo.generateDiff c ctx l1 l2 f1 f2 Stdout w = (r, w')
    /\ partialOf w w' r (diffOutput (Flags c) l1 l2 f1 f2)
    /\ (r = None \/ r = Some (ctxErr ctx)).
Proof.
  unfold DiffGo.generateDiff, diffOutput.
  destruct (Unified (Flags c) || (0 <? UnifiedContext (Flags c))%Z).
  - unfold DiffGo.generateUnifiedDiff, unifiedHeader. do 2 run_print. cbv zeta.
    destruct (generateUnifiedDiffLoop_any l1 l2 (S (length l1 + length l2))
                0 0 0 w1 ltac:(lia) ltac:(lia) ltac:(lia))
      as (r & w' & E' & PO & D).
    rewrite E'. finish PO D.
  - destruct (SideBySide (Flags c)).
    + unfold DiffGo.generateSideBySideDiff. cbv zeta.
      replace (if (length l1 <? length l2)%nat then length l2 else length l1)
        with (Nat.max (length l1) (length l2))
        by (destruct (Nat.ltb_spec (length l1) (length l2)); lia).
      apply (generateSideBySideDiffLoop_any l1 l2 _ 0 w); lia.
    + unfold DiffGo.generateNormalDiff.
      apply (generateNormalDiffLoop_any l1 l2 _ 0 0 0 w); lia.
Qed.

End AnyContext.

(** X21. The renderers of diff.go under every context. Whichever format
    [generateDiff] selects, what it writes to the standard output is a
    prefix of the complete report for the two sequences, all of it when it
    returns nil; it writes nothing else, and the only error it can return is
    the context's. *)
Theorem X21_render_prefix :
  forall (c : command) (ctx : Context) (l1 l2 : list string) (f1 f2 : string)
         (w : World),
  rendered ctx w (DiffGo.generateDiff c ctx l1 l2 f1 f2 Stdout w)
    (diffOutput (Flags c) l1 l2 f1 f2).
Proof.
  intros c ctx l1 l2 f1 f2 w.
  destruct (generateDiff_any ctx c l1 l2 f1 f2 w) as (r & w' & E & PO & D).
  unfold rendered. rewrite E. cbn [fst snd]. split; [exact PO | exact D].
Qed.

(** A normal diff of 1000 lines against none, cancelled from the start: the
    poll of the thousandth iteration stops the run after 999 commands. *)
Example render_cancelled :
  run (DiffGo.generateDiff (Diff []) cancelledAtStart (manyLines 1000) []
         "A" "B" Stdout) (world0 noFile)
  = (Some "context canceled", deleteCommands 0 0 (manyLines 999), "").
Proof. vm_compute. reflexivity. Qed.

(** ** Positional comparison *)

Lemma normalScript_positional (l1 : list string) :
  forall l2 i,
  normalScript i i l1 l2
  = concat_str
      (map (fun k => if String.eqb (nth k l1 "") (nth k l2 "") then ""
                     else changeCommand (i + k) (i + k) (nth k l1 "") (nth k l2 ""))
         (seq 0 (Nat.min (length l1) (length l2))))
    ++ appendCommands (i + length l1) (i + length l1) (skipn (length l1) l2)
    ++ deleteCommands (i + length l2) (i + length l2) (skipn (length l2) l1).
Proof.
  induction l1 as [|x xs IH]; intros l2 i.
  - cbn [normalScript length Nat.min seq map concat_str skipn append].
    rewrite skipn_nil. cbn [deleteCommands]. now rewrite append_nil_r, Nat.add_0_r.
  - destruct l2 as [|y ys].
    + cbn [normalScript length Nat.min seq map concat_str skipn append
           appendCommands].
      now rewrite Nat.add_0_r.
    + cbn [normalScript length Nat.min seq map concat_str skipn nth].
      rewrite IH, Nat.add_0_r, !append_assoc. f_equal.
      replace (S i + length xs)%nat with (i + S (length xs))%nat by lia.
      replace (S i + length ys)%nat with (i + S (length ys))%nat by lia.
      f_equal. f_equal. rewrite <- seq_shift, map_map.
      apply map_ext. intros k. cbn [nth].
      now replace (i + S k)%nat with (S i + k)%nat by lia.
Qed.

Lemma normalScript_positionalScript (l1 l2 : list string) :
  normalScript 0 0 l1 l2 = positionalScript l1 l2.
Proof. apply (normalScript_positional l1 l2 0). Qed.

(** X22. Normal format compares position by position and never realigns. In
    normal mode, for two inputs that differ, both implementations print a
    change command at exactly the indices below both lengths where line [i]
    of one differs from line [i] of the other, followed by append commands
    for the surplus lines of the second input or delete commands for the
    surplus lines of the first. diff.go does so on the normalised sequences
    (context not cancelled), command.go on the lines as read. *)
Theorem X22_normal_is_positional :
  (forall (c : command) (ctx : Context) (f1 f2 : string) (A B : list string)
          (w : World),
     quiet ctx ->
     Positional c = [f1; f2] ->
     source w f1 = Opens (mkReader A None) ->
     source (drained w f1) f2 = Opens (mkReader B None) ->
     Brief (Flags c) = false -> Unified (Flags c) = false ->
     (UnifiedContext (Flags c) <= 0)%Z -> SideBySide (Flags c) = false ->
     normalized (Flags c) A <> normalized (Flags c) B ->
     run (DiffGo.Execute c ctx) w
     = (None,
        stdout w ++ positionalScript (normalized (Flags c) A)
                      (normalized (Flags c) B),
        stderr w))
  /\
  (forall (p : command) (f1 f2 : string) (rest A B : list string) (w : World),
     Positional p = f1 :: f2 :: rest ->
     files w f1 = Opens (mkReader A None) ->
     files w f2 = Opens (mkReader B None) ->
     Brief (Flags p) = false -> Unified (Flags p) = false ->
     ContextDiff (Flags p) = false ->
     CommandGo.areIdentical A B (IgnoreCase (Flags p))
       (IgnoreWhitespace (Flags p)) = false ->
     run (CommandGo.Executor p) w
     = (None, stdout w ++ positionalScript A B, stderr w)).
Proof.
  split.
  - intros c ctx f1 f2 A B w Q P H1 H2 HB HU HC HS HD.
    destruct (Execute_quiet ctx Q c f1 f2 A B w P H1 H2) as (w' & E & R & O).
    unfold run. rewrite E. cbn [fst snd]. rewrite R, O, HB.
    apply lines_eqb_false in HD. rewrite HD.
    unfold diffOutput. rewrite HU, HS.
    replace (0 <? UnifiedContext (Flags c))%Z with false
      by (symmetry; apply Z.ltb_ge; exact HC).
    cbn [orb]. now rewrite normalScript_positionalScript.
  - intros p f1 f2 rest A B w P H1 H2 HB HU HC HD.
    rewrite (Executor_output p f1 f2 rest A B w P H1 H2).
    rewrite HD, HB, HU, HC.
    pose proof (scripts_agree A B 0) as Ag. cbn [Nat.add] in Ag.
    now rewrite <- Ag, normalScript_positionalScript.
Qed.

Lemma X22_normal_is_positional_witness :
  run (DiffGo.Execute (Diff [PString "A.txt"; PString "B.txt"]) background)
    (world0 (twoFiles "A.txt" ["a"; "b"] "B.txt" ["x"; "a"; "b"]))
  = (None,
     "1c1" ++ nl ++ "< a" ++ nl ++ "---" ++ nl ++ "> x" ++ nl
     ++ "2c2" ++ nl ++ "< b" ++ nl ++ "---" ++ nl ++ "> a" ++ nl
     ++ "2a3" ++ nl ++ "> b" ++ nl, "")
  /\
  run (CommandGo.Executor (Diff [PString "A.txt"; PString "B.txt"]))
    (world0 (twoFiles "A.txt" ["a"; "b"] "B.txt" ["x"; "a"; "b"]))
  = (None,
     "1c1" ++ nl ++ "< a" ++ nl ++ "---" ++ nl ++ "> x" ++ nl
     ++ "2c2" ++ nl ++ "< b" ++ nl ++ "---" ++ nl ++ "> a" ++ nl
     ++ "2a3" ++ nl ++ "> b" ++ nl, "").
Proof.
  split.
  - refine (proj1 X22_normal_is_positional
              (Diff [PString "A.txt"; PString "B.txt"]) background
              "A.txt" "B.txt" ["a"; "b"] ["x"; "a"; "b"]
              (world0 (twoFiles "A.txt" ["a"; "b"] "B.txt" ["x"; "a"; "b"]))
              eq_refl eq_refl eq_refl eq_refl eq_refl eq_refl (Z.le_refl 0)
              eq_refl _).
    discriminate.
  - exact (proj2 X22_normal_is_positional
             (Diff [PString "A.txt"; PString "B.txt"])
             "A.txt" "B.txt" [] ["a"; "b"] ["x"; "a"; "b"]
             (world0 (twoFiles "A.txt" ["a"; "b"] "B.txt" ["x"; "a"; "b"]))
             eq_refl eq_refl eq_refl eq_refl eq_refl eq_refl eq_refl).
Defined.

(** X23. In command.go the normalisation flags decide whether anything is
    reported, not what: when the two files are not identical under the
    flags, the run is the one the same command gives with both flags
    cleared, so the report shows the lines as read and marks as changed
    every pair that differs as read. *)
Theorem X23_command_reports_raw_lines :
  forall (p : command) (f1 f2 : string) (rest A B : list string) (w : World),
  Positional p = f1 :: f2 :: rest ->
  files w f1 = Opens (mkReader A None) ->
  files w f2 = Opens (mkReader B None) ->
  CommandGo.areIdentical A B (IgnoreCase (Flags p)) (IgnoreWhitespace (Flags p))
  = false ->
  run (CommandGo.Executor p) w = run (CommandGo.Executor (withoutIgnoring p)) w.
Proof.
  intros p f1 f2 rest A B w P H1 H2 HD.
  rewrite (Executor_output p f1 f2 rest A B w P H1 H2).
  rewrite (Executor_output (withoutIgnoring p) f1 f2 rest A B w P H1 H2).
  rewrite HD. destruct p as [pos [cl uc u cd b ic iw sbs r]].
  cbn [withoutIgnoring Flags Configure IgnoreCase IgnoreWhitespace Brief Unified
       ContextDiff Positional] in *.
  destruct (CommandGo.areIdentical A B false false) eqn:E; [|reflexivity].
  exfalso. rewrite areIdentical_spec in E, HD.
  apply lines_eqb_true in E. apply lines_eqb_false in HD. apply HD.
  unfold compared in E. cbn [map] in E. rewrite !map_id in E. now rewrite E.
Qed.

Lemma X23_command_reports_raw_lines_witness :
  run (CommandGo.Executor
         (Diff [PString "A.txt"; PString "B.txt"; POption (OIgnoreCaseFlag true)]))
    (world0 (twoFiles "A.txt" ["A"; "b"] "B.txt" ["a"; "c"]))
  = (None,
     "1c1" ++ nl ++ "< A" ++ nl ++ "---" ++ nl ++ "> a" ++ nl
     ++ "2c2" ++ nl ++ "< b" ++ nl ++ "---" ++ nl ++ "> c" ++ nl, "").
Proof.
  exact (X23_command_reports_raw_lines
           (Diff [PString "A.txt"; PString "B.txt"; POption (OIgnoreCaseFlag true)])
           "A.txt" "B.txt" [] ["A"; "b"] ["a"; "c"]
           (world0 (twoFiles "A.txt" ["A"; "b"] "B.txt" ["a"; "c"]))
           eq_refl eq_refl eq_refl eq_refl).
Defined.
